(** * portal: agent connection registry and command dispatcher

    A shallow embedding of the Go packages

      - [internal/services/nodes]        (inventory: nodes, group membership)
      - [internal/services/remediation]  (command_history: the pending-command store)
      - [internal/services/users]        (accounts: roles, deletion)
      - [internal/services/websocket]    (connection registry, dispatcher, liveness)
      - [internal/api/handlers/websocket] (the upgrade, command and isolation handlers)
      - [internal/api/handlers/agent]    (the agents' poll for pending commands)

    Conventions of the embedding.

      - [time.Time] and [time.Duration] are integers counting nanoseconds;
        every operation that calls [time.Now()] takes the instant as [now].
      - A [*websocket.Conn] is a handle of type [ConnId]; the world records
        which handles were closed, on which handles writes fail, and every
        frame written.
      - A [*AgentConnection] is a pointer into a heap of [AgentConnection]
        objects, so the registry map and a read loop share one object.
      - The SQL tables are lists of rows; a statement's only failure is the
        one its data causes ([sql.ErrNoRows]).  A query stands for the rows
        its statement selects: what the driver makes of a column when it
        fills the Go struct (a NULL, the precision of a timestamp), the width
        of a column and the place an updated row takes in a later scan are
        not modelled, and the further properties below are stated so that
        they do not depend on them: the effect of an insert is stated for a
        call that returns without error, a row after an update is named by its
        id.
      - A goroutine started with [go] is a task the scheduler runs in a later
        step; the logging calls have no effect on the state and are omitted. *)

From Stdlib Require Import ZArith Lia.
From stdpp Require Import gmap strings list fin_maps pretty sorting.

Local Open Scope string_scope.
Local Open Scope list_scope.

(** ** Time *)

Definition Time := Z.
Definition Duration := Z.
Bind Scope Z_scope with Time Duration.
Definition Second : Duration := 1000000000%Z.
Definition Minute : Duration := (60 * Second)%Z.

(** Go's [error]: [None] is [nil], [Some msg] an error value. *)
Definition error := option string.

(** The value of an [int64] (an [int], a [time.Duration]) after an
    arithmetic operation whose exact result is [z]. *)
Definition wrap64 (z : Z) : Z := ((z + 2 ^ 63) mod 2 ^ 64 - 2 ^ 63)%Z.

(** ** package nodes *)

Module nodes.

Record Node := {
  ID : Z;
  Hostname : string;
  IPAddress : string;
  OSVersion : string;
  FibratusVersion : string;
  CPU : string;
  Memory : string;
  Disk : string;
  Status : string;
  Isolated : bool;
  LastHeartbeat : Time;
  CreatedAt : Time;
  UpdatedAt : Time
}.

(** The [nodes] table, in row order. *)
Definition Table := list Node.

(** [SELECT * FROM nodes WHERE hostname = $1], first row;
    [None] is [sql.ErrNoRows]. *)
Definition GetNodeByHostname (tbl : Table) (hostname : string) : option Node :=
  List.find (λ n, bool_decide (Hostname n = hostname)) tbl.

(** The assignment of [UPDATE nodes SET ... WHERE id = $11]. *)
Definition update_row (node : Node) (now : Time) (row : Node) : Node :=
  if bool_decide (ID row = ID node) then
    {| ID := ID row;
       Hostname := Hostname node;
       IPAddress := IPAddress node;
       OSVersion := OSVersion node;
       FibratusVersion := FibratusVersion node;
       CPU := CPU node;
       Memory := Memory node;
       Disk := Disk node;
       Status := Status node;
       Isolated := Isolated node;
       LastHeartbeat := LastHeartbeat node;
       CreatedAt := CreatedAt row;
       UpdatedAt := now |}
  else row.

(** [UpdateNode]: [RETURNING updated_at] scanned from the updated row;
    [None] when no row has the id. *)
Definition UpdateNode (tbl : Table) (node : Node) (now : Time) : option Table :=
  if bool_decide (Exists (λ row, ID row = ID node) tbl)
  then Some (update_row node now <$> tbl)
  else None.

(** [GetNodesByGroupID]: nodes joined with [node_group_mapping], a list of
    (node_id, group_id) pairs. *)
Definition GetNodesByGroupID (tbl : Table) (mapping : list (Z * Z)) (groupID : Z)
  : list Node :=
  n ← tbl;
  m ← mapping;
  if bool_decide (ID n = m.1 ∧ m.2 = groupID) then [n] else [].

Definition set_Status (s : string) (n : Node) : Node :=
  {| ID := ID n; Hostname := Hostname n; IPAddress := IPAddress n;
     OSVersion := OSVersion n; FibratusVersion := FibratusVersion n;
     CPU := CPU n; Memory := Memory n; Disk := Disk n;
     Status := s; Isolated := Isolated n;
     LastHeartbeat := LastHeartbeat n;
     CreatedAt := CreatedAt n; UpdatedAt := UpdatedAt n |}.

Definition set_LastHeartbeat (t : Time) (n : Node) : Node :=
  {| ID := ID n; Hostname := Hostname n; IPAddress := IPAddress n;
     OSVersion := OSVersion n; FibratusVersion := FibratusVersion n;
     CPU := CPU n; Memory := Memory n; Disk := Disk n;
     Status := Status n; Isolated := Isolated n;
     LastHeartbeat := t;
     CreatedAt := CreatedAt n; UpdatedAt := UpdatedAt n |}.

(** [HeartbeatRequest]; the fields carry the prefix [Req]. *)
Record HeartbeatRequest := {
  ReqHostname : string;
  ReqIPAddress : string;
  ReqOSVersion : string;
  ReqFibratusVersion : string;
  ReqCPU : string;
  ReqMemory : string;
  ReqDisk : string
}.

(** The [nodes] table with its [SERIAL] id sequence. *)
Record Inventory := {
  table : Table;
  next_id : Z
}.

(** [CreateNode]: [INSERT ... RETURNING id, created_at, updated_at].  The
    insert fails on a row with the same hostname and address
    ([UNIQUE(hostname, ip_address)]); the sequence value is used up either
    way. *)
Definition CreateNode (inv : Inventory) (node : Node) (now : Time)
  : option Node * Inventory :=
  if bool_decide (Exists (λ r, Hostname r = Hostname node
                               ∧ IPAddress r = IPAddress node) (table inv))
  then (None, {| table := table inv; next_id := (next_id inv + 1)%Z |})
  else
    let row := {| ID := next_id inv; Hostname := Hostname node;
                  IPAddress := IPAddress node; OSVersion := OSVersion node;
                  FibratusVersion := FibratusVersion node; CPU := CPU node;
                  Memory := Memory node; Disk := Disk node;
                  Status := Status node; Isolated := Isolated node;
                  LastHeartbeat := LastHeartbeat node;
                  CreatedAt := now; UpdatedAt := now |} in
    (Some row, {| table := table inv ++ [row]; next_id := (next_id inv + 1)%Z |}).

(** [UpdateNode] for a caller that changes the address: the statement
    also fails when another row has the hostname and address written
    ([UNIQUE(hostname, ip_address)]). *)
Definition UpdateNode_unique (tbl : Table) (node : Node) (now : Time)
  : option Table :=
  if bool_decide (Exists (λ r, ID r ≠ ID node ∧ Hostname r = Hostname node
                               ∧ IPAddress r = IPAddress node) tbl)
  then None
  else UpdateNode tbl node now.

(** [ProcessHeartbeat]: the node returned ([None] on an error) and the
    inventory left. *)
Definition ProcessHeartbeat (inv : Inventory) (req : HeartbeatRequest)
    (now : Time) : option Node * Inventory :=
  match GetNodeByHostname (table inv) (ReqHostname req) with
  | Some existingNode =>
      let node := {| ID := ID existingNode; Hostname := Hostname existingNode;
                     IPAddress := ReqIPAddress req;
                     OSVersion := ReqOSVersion req;
                     FibratusVersion := ReqFibratusVersion req;
                     CPU := ReqCPU req; Memory := ReqMemory req;
                     Disk := ReqDisk req; Status := "online";
                     Isolated := Isolated existingNode;
                     LastHeartbeat := now;
                     CreatedAt := CreatedAt existingNode;
                     UpdatedAt := UpdatedAt existingNode |} in
      match UpdateNode_unique (table inv) node now with
      | Some tbl =>
          (Some {| ID := ID node; Hostname := Hostname node;
                   IPAddress := IPAddress node; OSVersion := OSVersion node;
                   FibratusVersion := FibratusVersion node; CPU := CPU node;
                   Memory := Memory node; Disk := Disk node;
                   Status := Status node; Isolated := Isolated node;
                   LastHeartbeat := LastHeartbeat node;
                   CreatedAt := CreatedAt node; UpdatedAt := now |},
           {| table := tbl; next_id := next_id inv |})
      | None => (None, inv)
      end
  | None =>
      CreateNode inv
        {| ID := 0; Hostname := ReqHostname req; IPAddress := ReqIPAddress req;
           OSVersion := ReqOSVersion req;
           FibratusVersion := ReqFibratusVersion req;
           CPU := ReqCPU req; Memory := ReqMemory req; Disk := ReqDisk req;
           Status := "online"; Isolated := false; LastHeartbeat := now;
           CreatedAt := 0; UpdatedAt := 0 |} now
  end.

(** [UpdateNodeStatus]: [heartbeatTimeout] is an [int] of seconds; the
    cutoff is [time.Now().Add(time.Duration(-heartbeatTimeout) * time.Second)]. *)
Definition heartbeat_cutoff (heartbeatTimeout : Z) (now : Time) : Time :=
  (now + wrap64 (wrap64 (- heartbeatTimeout) * Second))%Z.

Definition UpdateNodeStatus (tbl : Table) (heartbeatTimeout : Z) (now : Time)
  : Table :=
  (λ n, if bool_decide (Status n = "online"
                        ∧ (LastHeartbeat n < heartbeat_cutoff heartbeatTimeout now)%Z)
        then {| ID := ID n; Hostname := Hostname n; IPAddress := IPAddress n;
                OSVersion := OSVersion n; FibratusVersion := FibratusVersion n;
                CPU := CPU n; Memory := Memory n; Disk := Disk n;
                Status := "offline"; Isolated := Isolated n;
                LastHeartbeat := LastHeartbeat n;
                CreatedAt := CreatedAt n; UpdatedAt := now |}
        else n) <$> tbl.

(** [DeleteNode]: [DELETE FROM nodes WHERE id = $1] removes the row and,
    by [ON DELETE CASCADE], the node's rows of [node_group_mapping] (a list
    of (node_id, group_id) pairs); it never fails.  The [node_id] of the
    node's rows of [command_history] becomes NULL, which the command store
    below cannot hold: the function is used on an inventory whose node has
    no command. *)
Definition DeleteNode (tbl : Table) (mapping : list (Z * Z)) (id : Z)
  : Table * list (Z * Z) :=
  (filter (λ n, ID n ≠ id) tbl, filter (λ m, m.1 ≠ id) mapping).

(** [NodeGroup]; the fields carry the prefix [Group]. *)
Record NodeGroup := {
  GroupID : Z;
  GroupName : string;
  GroupDescription : string;
  GroupCreatedAt : Time;
  GroupUpdatedAt : Time
}.

(** [AddNodeToGroup]: the two existence checks, then
    [INSERT ... ON CONFLICT DO NOTHING] into [node_group_mapping]. *)
Definition AddNodeToGroup (tbl : Table) (groups : list NodeGroup)
    (mapping : list (Z * Z)) (nodeID groupID : Z) : error * list (Z * Z) :=
  if bool_decide (length (filter (λ n, ID n = nodeID) tbl) = 0%nat)
  then (Some "node not found", mapping)
  else if bool_decide (length (filter (λ g, GroupID g = groupID) groups) = 0%nat)
  then (Some "group not found", mapping)
  else if bool_decide ((nodeID, groupID) ∈ mapping) then (None, mapping)
  else (None, mapping ++ [(nodeID, groupID)]).

(** [RemoveNodeFromGroup]. *)
Definition RemoveNodeFromGroup (mapping : list (Z * Z)) (nodeID groupID : Z)
  : list (Z * Z) :=
  filter (λ m, ¬ (m.1 = nodeID ∧ m.2 = groupID)) mapping.

(** [GetNodeGroups]. *)
Definition GetNodeGroups (groups : list NodeGroup) (mapping : list (Z * Z))
    (nodeID : Z) : list NodeGroup :=
  g ← groups;
  m ← mapping;
  if bool_decide (GroupID g = m.2 ∧ m.1 = nodeID) then [g] else [].

End nodes.

(** ** package remediation *)

Module remediation.

Definition CommandType := string.

Definition CommandTypeRemoveFile : CommandType := "remove-file".
Definition CommandTypeQuarantineFile : CommandType := "quarantine-file".
Definition CommandTypeListFiles : CommandType := "list-files".
Definition CommandTypeGetFileHash : CommandType := "get-file-hash".
Definition CommandTypeRevertRegistry : CommandType := "revert-registry-key".
Definition CommandTypeSetRegistry : CommandType := "set-registry-value".
Definition CommandTypeGetRegistry : CommandType := "get-registry-value".
Definition CommandTypeExportRegistry : CommandType := "export-registry-hive".
Definition CommandTypeKillProcess : CommandType := "kill-process".
Definition CommandTypeGetProcess : CommandType := "get-process-details".
Definition CommandTypeGetProcessTree : CommandType := "get-process-tree".
Definition CommandTypeScanProcess : CommandType := "scan-process-memory".
Definition CommandTypeIsolateHost : CommandType := "isolate-host".
Definition CommandTypeUnisolateHost : CommandType := "unisolate-host".
Definition CommandTypeGetNetworkConns : CommandType := "get-network-connections".
Definition CommandTypeBlockIP : CommandType := "block-ip".
Definition CommandTypeRebootNode : CommandType := "reboot-node".
Definition CommandTypeUpdateAgent : CommandType := "update-agent".
Definition CommandTypeUninstallAgent : CommandType := "uninstall-agent".
Definition CommandTypeGetSystemInfo : CommandType := "get-system-info".
Definition CommandTypeCollectWinLogs : CommandType := "collect-windows-logs".
Definition CommandTypeCollectAgentLogs : CommandType := "collect-fibratus-logs".
Definition CommandTypeClearLogs : CommandType := "clear-local-logs".
Definition CommandTypeEnableDebugLogs : CommandType := "enable-debug-logging".

Definition CommandStatus := string.

Definition CommandStatusPending : CommandStatus := "pending".
Definition CommandStatusRunning : CommandStatus := "running".
Definition CommandStatusSuccess : CommandStatus := "success".
Definition CommandStatusFailed : CommandStatus := "failed".
Definition CommandStatusTimeout : CommandStatus := "timeout".
Definition CommandStatusCanceled : CommandStatus := "canceled".

(** [CommandResult]; [Data] is the raw JSON text as a request decoder
    accepted it, so [json.Marshal] of a result succeeds. *)
Record CommandResult := {
  Success : bool;
  Message : string;
  Data : string
}.

(** A row of [command_history].  [ResultDetails] holds the result whose
    JSON encoding the column stores ([None] is NULL); the field
    [CommandType] of the source is [CommandType_] here. *)
Record Command := {
  ID : Z;
  NodeID : Z;
  UserID : Z;
  CommandType_ : CommandType;
  CommandDetails : string;
  Status : CommandStatus;
  ResultDetails : option CommandResult;
  ExecutedAt : Time;
  CompletedAt : option Time
}.

(** The [command_history] table with its [SERIAL] id sequence. *)
Record Store := {
  rows : list Command;
  next_id : Z
}.

Definition empty : Store := {| rows := []; next_id := 1 |}.

Definition set_ID (i : Z) (c : Command) : Command :=
  {| ID := i; NodeID := NodeID c; UserID := UserID c;
     CommandType_ := CommandType_ c; CommandDetails := CommandDetails c;
     Status := Status c; ResultDetails := ResultDetails c;
     ExecutedAt := ExecutedAt c; CompletedAt := CompletedAt c |}.

(** [INSERT INTO command_history (node_id, user_id, command_type,
    command_details, status, executed_at) ... RETURNING id]. *)
Definition insert_row (s : Store) (nodeID userID : Z) (ty : CommandType)
    (details : string) (st : CommandStatus) (at_ : Time) : Store * Z :=
  let c := {| ID := next_id s; NodeID := nodeID; UserID := userID;
              CommandType_ := ty; CommandDetails := details;
              Status := st; ResultDetails := None;
              ExecutedAt := at_; CompletedAt := None |} in
  ({| rows := rows s ++ [c]; next_id := (next_id s + 1)%Z |}, next_id s).

(** [ExecuteCommand]: validation, then the insert; the caller's struct gets
    status, timestamp and the new id. *)
Definition ExecuteCommand (s : Store) (cmd : Command) (now : Time)
  : error * Store * Command :=
  if bool_decide (NodeID cmd = 0%Z) then (Some "node ID is required", s, cmd)
  else if bool_decide (UserID cmd = 0%Z) then (Some "user ID is required", s, cmd)
  else if bool_decide (CommandType_ cmd = "") then (Some "command type is required", s, cmd)
  else
    let '(s', i) := insert_row s (NodeID cmd) (UserID cmd) (CommandType_ cmd)
                      (CommandDetails cmd) CommandStatusPending now in
    (None, s',
     {| ID := i; NodeID := NodeID cmd; UserID := UserID cmd;
        CommandType_ := CommandType_ cmd; CommandDetails := CommandDetails cmd;
        Status := CommandStatusPending; ResultDetails := ResultDetails cmd;
        ExecutedAt := now; CompletedAt := CompletedAt cmd |}).

(** [ORDER BY executed_at], as a stable insertion sort. *)
Fixpoint insert_by_time (c : Command) (l : list Command) : list Command :=
  match l with
  | [] => [c]
  | x :: r =>
      if (ExecutedAt c <=? ExecutedAt x)%Z then c :: l
      else x :: insert_by_time c r
  end.

Definition order_by_executed_at (l : list Command) : list Command :=
  foldr insert_by_time [] l.

(** [GetPendingCommands]. *)
Definition GetPendingCommands (s : Store) (nodeID : Z) : list Command :=
  order_by_executed_at
    (filter (λ c, NodeID c = nodeID ∧ Status c = CommandStatusPending) (rows s)).

(** [GetPendingCommandsByHostname]: the join with [nodes]. *)
Definition GetPendingCommandsByHostname (s : Store) (tbl : nodes.Table)
    (hostname : string) : list Command :=
  order_by_executed_at
    (ch ← rows s;
     n ← tbl;
     if bool_decide (NodeID ch = nodes.ID n ∧ nodes.Hostname n = hostname
                     ∧ Status ch = CommandStatusPending)
     then [ch] else []).

(** [GetCommand]; [None] is [sql.ErrNoRows]. *)
Definition GetCommand (s : Store) (id : Z) : option Command :=
  List.find (λ c, bool_decide (ID c = id)) (rows s).

(** [SELECT status FROM command_history WHERE id = $1]. *)
Definition get_status (s : Store) (commandID : Z) : option CommandStatus :=
  Status <$> List.find (λ c, bool_decide (ID c = commandID)) (rows s).

Definition set_result (st : CommandStatus) (res : option CommandResult)
    (done : option Time) (c : Command) : Command :=
  {| ID := ID c; NodeID := NodeID c; UserID := UserID c;
     CommandType_ := CommandType_ c; CommandDetails := CommandDetails c;
     Status := st; ResultDetails := res;
     ExecutedAt := ExecutedAt c; CompletedAt := done |}.

(** [UPDATE command_history SET ... WHERE id = $n] with the row change [f]. *)
Definition update_where_id (commandID : Z) (f : Command → Command) (s : Store)
  : Store :=
  {| rows := (λ c, if bool_decide (ID c = commandID) then f c else c) <$> rows s;
     next_id := next_id s |}.

(** [UpdateCommandResult]. *)
Definition UpdateCommandResult (s : Store) (commandID : Z)
    (result : CommandResult) (now : Time) : error * Store :=
  let status := if Success result then CommandStatusSuccess
                else CommandStatusFailed in
  (None,
   update_where_id commandID (set_result status (Some result) (Some now)) s).

(** [CancelCommand]. *)
Definition CancelCommand (s : Store) (commandID : Z) (now : Time)
  : error * Store :=
  match get_status s commandID with
  | None => (Some "sql: no rows in result set", s)
  | Some status =>
      if bool_decide (status ≠ CommandStatusPending)
      then (Some "only pending commands can be canceled", s)
      else
        (None,
         update_where_id commandID
           (λ c, set_result CommandStatusCanceled (ResultDetails c) (Some now) c) s)
  end.

Definition terminal_status (st : CommandStatus) : Prop :=
  st = CommandStatusSuccess ∨ st = CommandStatusFailed
  ∨ st = CommandStatusTimeout ∨ st = CommandStatusCanceled.

Global Instance terminal_status_dec st : Decision (terminal_status st).
Proof. unfold terminal_status. apply _. Defined.

(** [CleanupOldCommands]: the rows deleted and the store left. *)
Definition CleanupOldCommands (s : Store) (olderThan : Time) : nat * Store :=
  let old (c : Command) : bool :=
    bool_decide (terminal_status (Status c))
    && match CompletedAt c with
       | Some t => bool_decide (t < olderThan)%Z
       | None => false
       end in
  (length (filter (λ c, old c = true) (rows s)),
   {| rows := filter (λ c, old c = false) (rows s); next_id := next_id s |}).

(** [TimeoutStalePendingCommands]. *)
Definition TimeoutStalePendingCommands (s : Store) (timeout : Duration)
    (now : Time) : nat * Store :=
  let cutoff := (now - timeout)%Z in
  let stale c := Status c = CommandStatusPending ∧ (ExecutedAt c < cutoff)%Z in
  (length (filter stale (rows s)),
   {| rows := (λ c, if bool_decide (stale c)
                    then set_result CommandStatusTimeout (ResultDetails c) (Some now) c
                    else c) <$> rows s;
      next_id := next_id s |}).

(** [ValidateCommandType]. *)
Definition ValidateCommandType (cmdType : CommandType) : bool :=
  bool_decide (cmdType ∈
    [ CommandTypeRemoveFile; CommandTypeQuarantineFile; CommandTypeListFiles;
      CommandTypeGetFileHash; CommandTypeRevertRegistry; CommandTypeSetRegistry;
      CommandTypeGetRegistry; CommandTypeExportRegistry; CommandTypeKillProcess;
      CommandTypeGetProcess; CommandTypeGetProcessTree; CommandTypeScanProcess;
      CommandTypeIsolateHost; CommandTypeUnisolateHost; CommandTypeGetNetworkConns;
      CommandTypeBlockIP; CommandTypeRebootNode; CommandTypeUpdateAgent;
      CommandTypeUninstallAgent; CommandTypeGetSystemInfo; CommandTypeCollectWinLogs;
      CommandTypeCollectAgentLogs; CommandTypeClearLogs; CommandTypeEnableDebugLogs ]).

End remediation.

(** ** package users *)

Module users.

Record User := {
  ID : Z;
  Username : string;
  PasswordHash : string;
  MFASecret : option string;
  MFAEnabled : bool;
  Role : string;
  CreatedAt : Time;
  UpdatedAt : Time
}.

(** The [users] table, in row order. *)
Definition Table := list User.

Definition AvailableRoles : list string := ["admin"; "analyst"; "readonly"].

(** [isValidRole]: the loop over [AvailableRoles]. *)
Definition isValidRole (role : string) : bool :=
  existsb (λ r, bool_decide (r = role)) AvailableRoles.

(** [DeleteUser].  [referenced] lists the user ids held by the columns
    that refer to [users(id)] without an [ON DELETE] action ([created_by]
    of [rules], [rule_versions], [configs], [config_versions] and
    [api_keys], [acknowledged_by] of [alerts]): the database refuses to
    delete a user one of them names. *)
Definition DeleteUser (tbl : Table) (referenced : list Z) (id : Z)
  : error * Table :=
  let count := length (filter (λ u, Role u = "admin") tbl) in
  match List.find (λ u, bool_decide (ID u = id)) tbl with
  | None => (Some "sql: no rows in result set", tbl)
  | Some u =>
      if bool_decide (Role u = "admin" ∧ (count ≤ 1)%nat)
      then (Some "cannot delete the last admin user", tbl)
      else if bool_decide (id ∈ referenced)
      then (Some "pq: update or delete on table users violates foreign key constraint", tbl)
      else (None, filter (λ u, ID u ≠ id) tbl)
  end.

(** [HasAnyUser]. *)
Definition HasAnyUser (tbl : Table) : bool := bool_decide (0 < length tbl)%nat.

End users.

(** ** package websocket (internal/services/websocket) *)

Module websocket.

(** A [*websocket.Conn] and a [*AgentConnection]. *)
Definition ConnId := nat.
Definition ptr := nat.

(** The values of a [map[string]interface{}] decoded from or encoded to JSON. *)
#[warnings="-register-all"] Inductive JValue :=
| JNull
| JBool (b : bool)
| JNumber (z : Z)
| JString (s : string)
| JArray (l : list JValue)
| JObject (l : list (string * JValue)).

Record AgentConnection := {
  NodeID : Z;
  Hostname : string;
  Conn : ConnId;
  Connected : Time;
  LastActivity : Time
}.

(** [Command]; its field [Command] is [Command_] here. *)
Record Command := {
  CommandID : string;
  Command_ : string;
  Priority : string;
  Details : list (string * JValue);
  TargetNode : string;
  TargetGroup : string
}.

(** [CommandResponse]; the fields carry the prefix [R]. *)
Record CommandResponse := {
  RCommandID : string;
  RStatus : string;
  RSuccess : bool;
  RMessage : string;
  RDetails : list (string * JValue);
  RTimestamp : string
}.

(** What [ReadMessage] delivers: bytes that [json.Unmarshal] decodes into a
    [CommandResponse], or bytes it rejects. *)
Inductive Message :=
| MsgResponse (resp : CommandResponse)
| MsgUndecodable.

(** A frame on the wire: a text message holding [json.Marshal cmd], or a ping. *)
Inductive Frame :=
| TextMessage (cmd : Command)
| PingMessage.

(** A goroutine started with [go] that has not run yet:
    [go s.unregisterConnection(hostname)], and the anonymous function of
    [unregisterConnection], sleeping until [wake]. *)
Inductive Task :=
| GoUnregister (hostname : string)
| GoOfflineCheck (hostname : string) (wake : Time).

(** The [Service] with everything it shares with the rest of the process. *)
Record World := {
  connections : gmap string ptr;
  heap : gmap ptr AgentConnection;
  commandChan : list Command;
  listeners : gset ptr;
  goroutines : list Task;
  db_nodes : nodes.Table;
  db_groups : list (Z * Z);
  db_commands : remediation.Store;
  closed : gset ConnId;
  broken : gset ConnId;
  wire : list (ConnId * Frame)
}.

Definition set_connections (f : gmap string ptr → gmap string ptr) (w : World) :=
  {| connections := f (connections w); heap := heap w;
     commandChan := commandChan w; listeners := listeners w;
     goroutines := goroutines w; db_nodes := db_nodes w;
     db_groups := db_groups w; db_commands := db_commands w;
     closed := closed w; broken := broken w; wire := wire w |}.

Definition set_heap (f : gmap ptr AgentConnection → gmap ptr AgentConnection)
    (w : World) :=
  {| connections := connections w; heap := f (heap w);
     commandChan := commandChan w; listeners := listeners w;
     goroutines := goroutines w; db_nodes := db_nodes w;
     db_groups := db_groups w; db_commands := db_commands w;
     closed := closed w; broken := broken w; wire := wire w |}.

Definition set_commandChan (f : list Command → list Command) (w : World) :=
  {| connections := connections w; heap := heap w;
     commandChan := f (commandChan w); listeners := listeners w;
     goroutines := goroutines w; db_nodes := db_nodes w;
     db_groups := db_groups w; db_commands := db_commands w;
     closed := closed w; broken := broken w; wire := wire w |}.

Definition set_listeners (f : gset ptr → gset ptr) (w : World) :=
  {| connections := connections w; heap := heap w;
     commandChan := commandChan w; listeners := f (listeners w);
     goroutines := goroutines w; db_nodes := db_nodes w;
     db_groups := db_groups w; db_commands := db_commands w;
     closed := closed w; broken := broken w; wire := wire w |}.

Definition set_goroutines (f : list Task → list Task) (w : World) :=
  {| connections := connections w; heap := heap w;
     commandChan := commandChan w; listeners := listeners w;
     goroutines := f (goroutines w); db_nodes := db_nodes w;
     db_groups := db_groups w; db_commands := db_commands w;
     closed := closed w; broken := broken w; wire := wire w |}.

Definition set_db_nodes (f : nodes.Table → nodes.Table) (w : World) :=
  {| connections := connections w; heap := heap w;
     commandChan := commandChan w; listeners := listeners w;
     goroutines := goroutines w; db_nodes := f (db_nodes w);
     db_groups := db_groups w; db_commands := db_commands w;
     closed := closed w; broken := broken w; wire := wire w |}.

Definition set_db_groups (f : list (Z * Z) → list (Z * Z)) (w : World) :=
  {| connections := connections w; heap := heap w;
     commandChan := commandChan w; listeners := listeners w;
     goroutines := goroutines w; db_nodes := db_nodes w;
     db_groups := f (db_groups w); db_commands := db_commands w;
     closed := closed w; broken := broken w; wire := wire w |}.

Definition set_db_commands (f : remediation.Store → remediation.Store)
    (w : World) :=
  {| connections := connections w; heap := heap w;
     commandChan := commandChan w; listeners := listeners w;
     goroutines := goroutines w; db_nodes := db_nodes w;
     db_groups := db_groups w; db_commands := f (db_commands w);
     closed := closed w; broken := broken w; wire := wire w |}.

Definition set_closed (f : gset ConnId → gset ConnId) (w : World) :=
  {| connections := connections w; heap := heap w;
     commandChan := commandChan w; listeners := listeners w;
     goroutines := goroutines w; db_nodes := db_nodes w;
     db_groups := db_groups w; db_commands := db_commands w;
     closed := f (closed w); broken := broken w; wire := wire w |}.

Definition set_broken (f : gset ConnId → gset ConnId) (w : World) :=
  {| connections := connections w; heap := heap w;
     commandChan := commandChan w; listeners := listeners w;
     goroutines := goroutines w; db_nodes := db_nodes w;
     db_groups := db_groups w; db_commands := db_commands w;
     closed := closed w; broken := f (broken w); wire := wire w |}.

Definition set_wire (f : list (ConnId * Frame) → list (ConnId * Frame))
    (w : World) :=
  {| connections := connections w; heap := heap w;
     commandChan := commandChan w; listeners := listeners w;
     goroutines := goroutines w; db_nodes := db_nodes w;
     db_groups := db_groups w; db_commands := db_commands w;
     closed := closed w; broken := broken w; wire := f (wire w) |}.

(** [NewService]: empty registry, empty channel of capacity 1000; the two
    background loops are the steps [commandDispatcher_step] and
    [checkConnections] below. *)
Definition NewService (tbl : nodes.Table) (groups : list (Z * Z))
    (cmds : remediation.Store) : World :=
  {| connections := ∅; heap := ∅; commandChan := []; listeners := ∅;
     goroutines := []; db_nodes := tbl; db_groups := groups;
     db_commands := cmds; closed := ∅; broken := ∅; wire := [] |}.

Definition commandChan_cap : nat := 1000.

(** [s.commandChan <- cmd]: [None] while the buffer is full (the sender
    blocks). *)
Definition chan_send (w : World) (cmd : Command) : option World :=
  if decide (length (commandChan w) < commandChan_cap)
  then Some (set_commandChan (λ q, q ++ [cmd]) w)
  else None.

(** [agent, exists := s.connections[hostname]], with the object read
    through the pointer (a registered pointer is always allocated, see
    [reachable_registry_wf]). *)
Definition lookup_agent (w : World) (hostname : string)
  : option (ptr * AgentConnection) :=
  p ← connections w !! hostname;
  a ← heap w !! p;
  Some (p, a).

(** A write on a connection succeeds unless the handle was closed or the
    peer is gone. *)
Definition write_ok (w : World) (c : ConnId) : bool :=
  bool_decide ((c ∉ closed w) ∧ (c ∉ broken w)).

(** [Conn.WriteMessage] and [Conn.WriteControl]. *)
Definition write_frame (w : World) (c : ConnId) (f : Frame) : error * World :=
  if write_ok w c then (None, set_wire (λ l, l ++ [(c, f)]) w)
  else (Some "write: connection closed", w).

(** [RegisterConnection]. *)
Definition RegisterConnection (w : World) (hostname : string) (conn : ConnId)
    (now : Time) : error * World :=
  match nodes.GetNodeByHostname (db_nodes w) hostname with
  | None => (Some "node not found: sql: no rows in result set", w)
  | Some node =>
      let agent := {| NodeID := nodes.ID node; Hostname := hostname;
                      Conn := conn; Connected := now; LastActivity := now |} in
      let p := fresh (dom (heap w)) in
      let w1 := set_connections (insert hostname p)
                  (set_heap (insert p agent) w) in
      let node' := nodes.set_LastHeartbeat now (nodes.set_Status "online" node) in
      let w2 := match nodes.UpdateNode (db_nodes w1) node' now with
                | Some tbl => set_db_nodes (λ _, tbl) w1
                | None => w1
                end in
      (None, set_listeners (λ l, l ∪ {[p]}) w2)
  end.

(** [SendCommand]; [None] while the send on the full channel blocks. *)
Definition SendCommand (w : World) (cmd : Command) : option (error * World) :=
  if bool_decide (CommandID cmd = "") then
    Some (Some "command ID is required", w)
  else if bool_decide (Command_ cmd = "") then
    Some (Some "command type is required", w)
  else if bool_decide (TargetNode cmd = "" ∧ TargetGroup cmd = "") then
    Some (Some "either target node or target group is required", w)
  else
    w' ← chan_send w cmd; Some (None, w').

(** [sendCommandToAgent]; [json.Marshal] of a decoded command cannot fail. *)
Definition sendCommandToAgent (w : World) (agent : AgentConnection)
    (cmd : Command) : error * World :=
  match write_frame w (Conn agent) (TextMessage cmd) with
  | (Some e, w') => (Some (String.append "failed to write message: " e), w')
  | (None, w') => (None, w')
  end.

Definition isolation_command (hostname reason : string) (now : Time) : Command :=
  {| CommandID := String.append "isolate-" (pretty now);
     Command_ := "isolate-host";
     Priority := "critical";
     Details := [("reason", JString reason);
                 ("allow_portal_communication", JBool true);
                 ("allow_dns", JBool true)];
     TargetNode := hostname;
     TargetGroup := "" |}.

(** [SendIsolationCommand]. *)
Definition SendIsolationCommand (w : World) (hostname reason : string)
    (now : Time) : option (error * World) :=
  let cmd := isolation_command hostname reason now in
  match lookup_agent w hostname with
  | None =>
      w' ← chan_send w cmd;
      Some (Some "agent not currently connected, command queued", w')
  | Some (_, agent) => Some (sendCommandToAgent w agent cmd)
  end.

(** [dispatchToNode]: the branch for an absent target only logs and
    returns; a failed write is only logged. *)
Definition dispatchToNode (w : World) (cmd : Command) : World :=
  match lookup_agent w (TargetNode cmd) with
  | None => w
  | Some (_, agent) => (sendCommandToAgent w agent cmd).2
  end.

(** [dispatchToGroup]: logs that group dispatch is not implemented. *)
Definition dispatchToGroup (w : World) (cmd : Command) : World := w.

(** One iteration of [for cmd := range s.commandChan] in
    [commandDispatcher]: the command received and the world after its
    dispatch; [None] while the channel is empty. *)
Definition commandDispatcher_step (w : World) : option (Command * World) :=
  match commandChan w with
  | [] => None
  | cmd :: rest =>
      let w1 := set_commandChan (λ _, rest) w in
      Some (cmd,
            if bool_decide (TargetNode cmd ≠ "") then dispatchToNode w1 cmd
            else if bool_decide (TargetGroup cmd ≠ "") then dispatchToGroup w1 cmd
            else w1)
  end.

(** [n] iterations of the dispatcher loop: the commands taken, in order. *)
Fixpoint commandDispatcher (n : nat) (w : World) : list Command * World :=
  match n with
  | O => ([], w)
  | S n' =>
      match commandDispatcher_step w with
      | None => ([], w)
      | Some (cmd, w') =>
          let '(taken, w'') := commandDispatcher n' w' in (cmd :: taken, w'')
      end
  end.

(** [handleCommandResponse]: logs the response; no state is updated. *)
Definition handleCommandResponse (w : World) (agent : AgentConnection)
    (resp : CommandResponse) : error * World := (None, w).

(** [processAgentMessage]. *)
Definition processAgentMessage (w : World) (agent : AgentConnection)
    (message : Message) : error * World :=
  match message with
  | MsgResponse resp =>
      if bool_decide (RCommandID resp ≠ "") then handleCommandResponse w agent resp
      else (None, w)
  | MsgUndecodable => (None, w)
  end.

Definition set_LastActivity (t : Time) (a : AgentConnection) : AgentConnection :=
  {| NodeID := NodeID a; Hostname := Hostname a; Conn := Conn a;
     Connected := Connected a; LastActivity := t |}.

(** [unregisterConnection]. *)
Definition unregisterConnection (w : World) (hostname : string) (now : Time)
  : World :=
  match lookup_agent w hostname with
  | Some (_, agent) =>
      set_goroutines (λ g, g ++ [GoOfflineCheck hostname (now + 30 * Second)%Z])
        (set_connections (delete hostname)
           (set_closed (λ c, c ∪ {[Conn agent]}) w))
  | None => w
  end.

(** The function started by [unregisterConnection], after its sleep. *)
Definition offline_check (w : World) (hostname : string) (now : Time) : World :=
  match connections w !! hostname with
  | Some _ => w
  | None =>
      match nodes.GetNodeByHostname (db_nodes w) hostname with
      | None => w
      | Some node =>
          match nodes.UpdateNode (db_nodes w) (nodes.set_Status "offline" node) now with
          | Some tbl => set_db_nodes (λ _, tbl) w
          | None => w
          end
      end
  end.

(** [listenForMessages], the read loop of the connection object [p], one
    event at a time: a pong, a message read, and the read error that ends
    the loop and runs the deferred [unregisterConnection]. *)
Definition listen_pong (w : World) (p : ptr) (now : Time) : World :=
  set_heap (alter (set_LastActivity now) p) w.

Definition listen_message (w : World) (p : ptr) (message : Message)
    (now : Time) : World :=
  let w1 := set_heap (alter (set_LastActivity now) p) w in
  match heap w1 !! p with
  | Some agent => (processAgentMessage w1 agent message).2
  | None => w1
  end.

Definition listen_exit (w : World) (p : ptr) (now : Time) : World :=
  let w1 := set_listeners (λ l, l ∖ {[p]}) w in
  match heap w1 !! p with
  | Some agent => unregisterConnection w1 (Hostname agent) now
  | None => w1
  end.

(** The two checks of the loop body of [checkConnections]: a ping, and on
    a failed ping [go s.unregisterConnection(hostname)]. *)
Definition ping_or_unregister (w : World) (hostname : string)
    (agent : AgentConnection) : World :=
  match write_frame w (Conn agent) PingMessage with
  | (Some _, w') => set_goroutines (λ g, g ++ [GoUnregister hostname]) w'
  | (None, w') => w'
  end.

Definition check_one (now : Time) (w : World) (entry : string * ptr) : World :=
  match heap w !! entry.2 with
  | None => w
  | Some agent =>
      let w1 := if decide (now - LastActivity agent > 2 * Minute)%Z
                then ping_or_unregister w entry.1 agent else w in
      if decide (now - LastActivity agent > 30 * Second)%Z
      then ping_or_unregister w1 entry.1 agent else w1
  end.

(** [checkConnections]: the loop over the registry. *)
Definition checkConnections (w : World) (now : Time) : World :=
  foldl (check_one now) w (map_to_list (connections w)).

(** Running a started goroutine. *)
Definition run_task (w : World) (t : Task) (now : Time) : World :=
  match t with
  | GoUnregister hostname => unregisterConnection w hostname now
  | GoOfflineCheck hostname _ => offline_check w hostname now
  end.

Definition task_ready (t : Task) (now : Time) : Prop :=
  match t with
  | GoUnregister _ => True
  | GoOfflineCheck _ wake => (wake ≤ now)%Z
  end.

(** [GetConnectionStats]: the count and the registered hostnames. *)
Definition GetConnectionStats (w : World) : nat * list string :=
  (size (connections w), (map_to_list (connections w)).*1).

End websocket.

(** ** HTTP answers *)

Module http.

(** What a handler writes: [http.Error] with its status code and text, or
    the JSON object encoded with status 200. *)
Inductive Response :=
| Error (code : nat) (message : string)
| Json (fields : list (string * websocket.JValue)).

End http.

(** ** package websocket (internal/api/handlers/websocket) *)

Module handler.
Import websocket.

(** [HandleAgentConnection]: [apiKeyID] is the context value, [upgraded]
    the result of [Upgrade] ([None] when the upgrade fails). *)
Definition HandleAgentConnection (w : World) (apiKeyID : option Z)
    (hostname : string) (upgraded : option ConnId) (now : Time) : World :=
  match apiKeyID with
  | None => w
  | Some _ =>
      if bool_decide (hostname = "") then w
      else
        match upgraded with
        | None => w
        | Some conn =>
            match RegisterConnection w hostname conn now with
            | (Some _, w') => set_closed (λ c, c ∪ {[conn]}) w'
            | (None, w') => w'
            end
        end
  end.

(** The body of a [SendCommand] request; the fields carry the prefix [Req]. *)
Record SendCommandRequest := {
  ReqCommand : string;
  ReqPriority : string;
  ReqDetails : list (string * JValue);
  ReqTargetNode : string;
  ReqTargetGroup : string
}.

(** [SendCommand]: [userID] is the context value, [body] the decoded request
    ([None] when decoding fails); the result is [None] while the service's
    send on the full channel blocks. *)
Definition SendCommand (w : World) (userID : option Z)
    (body : option SendCommandRequest) (now : Time)
  : option (http.Response * World) :=
  match userID with
  | None => Some (http.Error 500 "User ID not found in context", w)
  | Some _ =>
      match body with
      | None => Some (http.Error 400 "Invalid request body", w)
      | Some req =>
          if bool_decide (ReqCommand req = "") then
            Some (http.Error 400 "Command is required", w)
          else if bool_decide (ReqTargetNode req = "" ∧ ReqTargetGroup req = "") then
            Some (http.Error 400 "Either target_node or target_group is required", w)
          else
            let cmd := {| CommandID := String.append "cmd-" (pretty now);
                          Command_ := ReqCommand req;
                          Priority := ReqPriority req;
                          Details := ReqDetails req;
                          TargetNode := ReqTargetNode req;
                          TargetGroup := ReqTargetGroup req |} in
            match websocket.SendCommand w cmd with
            | None => None
            | Some (Some _, w') =>
                Some (http.Error 500 "Failed to send command", w')
            | Some (None, w') =>
                Some (http.Json [("command_id", JString (CommandID cmd));
                                 ("status", JString "queued")], w')
            end
      end
  end.

(** [IsolateNode]: [hostname] is the path variable, [body] the reason of the
    decoded request ([None] when decoding fails). *)
Definition IsolateNode (w : World) (userID : option Z) (hostname : string)
    (body : option string) (now : Time) : option (http.Response * World) :=
  match userID with
  | None => Some (http.Error 500 "User ID not found in context", w)
  | Some _ =>
      if bool_decide (hostname = "") then
        Some (http.Error 400 "Hostname is required", w)
      else
        let reason := default "Manual isolation by admin" body in
        match SendIsolationCommand w hostname reason now with
        | None => None
        | Some (Some err, w') =>
            Some (http.Error 500
                    (String.append "Failed to send isolation command: " err), w')
        | Some (None, w') =>
            Some (http.Json [("status", JString "isolation_initiated");
                             ("message", JString "Isolation command sent to agent")],
                  w')
        end
  end.

End handler.

(** ** package agent (the agents' polling API) *)

Module agent.

(** What a handler writes: [http.Error] with its status code and text, the
    JSON object [{commands: [...]}], or the JSON object [{status: ok}]. *)
Inductive Answer :=
| Error (code : nat) (message : string)
| Commands (commands : list remediation.Command)
| StatusOk.

(** [GetPendingCommands]: the agent's poll.  The handler runs the query of
    [GetPendingCommandsByHostname] and encodes its rows; it issues no other
    statement, so the store it leaves is the store it found. *)
Definition GetPendingCommands (s : remediation.Store) (tbl : nodes.Table)
    (hostname : string) : Answer * remediation.Store :=
  if bool_decide (hostname = "") then (Error 400 "Hostname is required", s)
  else (Commands (remediation.GetPendingCommandsByHostname s tbl hostname), s).

(** [SubmitCommandResult]: [id] is the path variable ([None] when it is not
    a number), [body] the decoded result ([None] when decoding fails). *)
Definition SubmitCommandResult (s : remediation.Store) (id : option Z)
    (body : option remediation.CommandResult) (now : Time)
  : Answer * remediation.Store :=
  match id with
  | None => (Error 400 "Invalid command ID", s)
  | Some i =>
      match body with
      | None => (Error 400 "Invalid request body", s)
      | Some result =>
          match remediation.UpdateCommandResult s i result now with
          | (Some _, s') => (Error 500 "Failed to update command result", s')
          | (None, s') => (StatusOk, s')
          end
      end
  end.

End agent.

(** ** The process as a transition system *)

Module portal.
Import websocket.

(** The statements other packages run on [command_history]: the methods of
    [remediation.Service], and the row [isolation.Service] records. *)
Inductive StoreOp :=
| OpExecute (cmd : remediation.Command) (now : Time)
| OpUpdateResult (commandID : Z) (result : remediation.CommandResult) (now : Time)
| OpCancel (commandID : Z) (now : Time)
| OpCleanup (olderThan : Time)
| OpTimeout (timeout : Duration) (now : Time)
| OpIsolationRecord (nodeID userID : Z) (action : string) (now : Time).

Definition apply_op (s : remediation.Store) (op : StoreOp) : remediation.Store :=
  match op with
  | OpExecute cmd now => (remediation.ExecuteCommand s cmd now).1.2
  | OpUpdateResult i r now => (remediation.UpdateCommandResult s i r now).2
  | OpCancel i now => (remediation.CancelCommand s i now).2
  | OpCleanup t => (remediation.CleanupOldCommands s t).2
  | OpTimeout d now => (remediation.TimeoutStalePendingCommands s d now).2
  | OpIsolationRecord n u a now =>
      (remediation.insert_row s n u a "" remediation.CommandStatusPending now).1
  end.

Definition apply_ops (s : remediation.Store) (ops : list StoreOp)
  : remediation.Store := foldl apply_op s ops.

(** One atomic step of the process: a handler call, an iteration of a
    background loop, an event of a read loop, a started goroutine, or a
    change made by the environment (the inventory edited by other
    handlers, a peer going away). *)
Inductive step : World → World → Prop :=
| step_connect w apiKeyID hostname upgraded now :
    step w (handler.HandleAgentConnection w apiKeyID hostname upgraded now)
| step_send w cmd err w' :
    SendCommand w cmd = Some (err, w') → step w w'
| step_isolate w hostname reason now err w' :
    SendIsolationCommand w hostname reason now = Some (err, w') → step w w'
| step_dispatch w cmd w' :
    commandDispatcher_step w = Some (cmd, w') → step w w'
| step_pong w p now :
    p ∈ listeners w → step w (listen_pong w p now)
| step_message w p message now :
    p ∈ listeners w → step w (listen_message w p message now)
| step_read_error w p now :
    p ∈ listeners w → step w (listen_exit w p now)
| step_health w now :
    step w (checkConnections w now)
| step_go w i t now :
    goroutines w !! i = Some t → task_ready t now →
    step w (run_task (set_goroutines (delete i) w) t now)
| step_inventory w tbl groups :
    step w (set_db_groups (λ _, groups) (set_db_nodes (λ _, tbl) w))
| step_store w op :
    step w (set_db_commands (λ s, apply_op s op) w)
| step_peer_gone w c :
    step w (set_broken (λ b, b ∪ {[c]}) w).

(** The worlds reached from a new service by steps that keep [P]. *)
Inductive reachable_while (P : World → Prop) : World → Prop :=
| reach_new tbl groups cmds :
    P (NewService tbl groups cmds) →
    reachable_while P (NewService tbl groups cmds)
| reach_step w w' :
    reachable_while P w → step w w' → P w' → reachable_while P w'.

Definition reachable : World → Prop := reachable_while (λ _, True).

(** Every registry entry points to an allocated object that carries the
    entry's key. *)
Definition registry_wf (w : World) : Prop :=
  ∀ k p, connections w !! k = Some p →
         ∃ a, heap w !! p = Some a ∧ Hostname a = k.

(** No two registry entries belong to one agent identity. *)
Definition one_connection_per_identity (w : World) : Prop :=
  ∀ k1 k2 p1 p2 a1 a2,
    connections w !! k1 = Some p1 → connections w !! k2 = Some p2 →
    heap w !! p1 = Some a1 → heap w !! p2 = Some a2 →
    Hostname a1 = Hostname a2 → k1 = k2 ∧ p1 = p2.

(** The ids of the store are below the next value of the sequence. *)
Definition store_wf (s : remediation.Store) : Prop :=
  Forall (λ c, (remediation.ID c < remediation.next_id s)%Z) (remediation.rows s).

Definition is_pending (s : remediation.Store) (commandID : Z) : Prop :=
  ∃ c, c ∈ remediation.rows s ∧ remediation.ID c = commandID
       ∧ remediation.Status c = remediation.CommandStatusPending.

(** The command [commandID] can no longer be pending: no row with its id
    is pending, and the sequence has passed it. *)
Definition retired (commandID : Z) (s : remediation.Store) : Prop :=
  store_wf s ∧ (commandID < remediation.next_id s)%Z
  ∧ ∀ c, c ∈ remediation.rows s → remediation.ID c = commandID →
         remediation.Status c ≠ remediation.CommandStatusPending.

(** The goroutines one iteration of the loop of [checkConnections] starts
    for the registry entry [e]. *)
Definition spawned_by_check (now : Time) (w : World) (e : string * ptr)
  : list Task :=
  match heap w !! e.2 with
  | None => []
  | Some a =>
      if write_ok w (Conn a) then []
      else
        (if decide (now - LastActivity a > 2 * Minute)%Z
         then [GoUnregister e.1] else [])
        ++ (if decide (now - LastActivity a > 30 * Second)%Z
            then [GoUnregister e.1] else [])
  end.

(** What a step can do to the registry map and the connection objects. *)
Inductive registry_change (w w' : World) : Prop :=
| rc_same :
    connections w' = connections w → heap w' = heap w → registry_change w w'
| rc_delete h :
    connections w' = delete h (connections w) → heap w' = heap w →
    registry_change w w'
| rc_touch p t :
    connections w' = connections w →
    heap w' = alter (set_LastActivity t) p (heap w) → registry_change w w'
| rc_register h node a :
    nodes.GetNodeByHostname (db_nodes w) h = Some node →
    Hostname a = h →
    connections w' = <[h := fresh (dom (heap w))]> (connections w) →
    heap w' = <[fresh (dom (heap w)) := a]> (heap w) →
    registry_change w w'.

(** The validation of [SendCommand], as a proposition. *)
Definition fails_validation (cmd : Command) : Prop :=
  CommandID cmd = "" ∨ Command_ cmd = ""
  ∨ (TargetNode cmd = "" ∧ TargetGroup cmd = "").

(** A caller submitting [cmds] one after the other, each accepted. *)
Fixpoint submit_all (w : World) (cmds : list Command) : option World :=
  match cmds with
  | [] => Some w
  | cmd :: rest =>
      match SendCommand w cmd with
      | Some (None, w') => submit_all w' rest
      | _ => None
      end
  end.

(** The ids of the store are below the next value of the sequence and
    pairwise distinct. *)
Definition ids_unique (s : remediation.Store) : Prop :=
  store_wf s ∧ NoDup (remediation.ID <$> remediation.rows s).

(** A run of statements on [command_history] as the database sees it: a
    statement of [StoreOp] carried out, or an insert the database refuses (a
    foreign key, a column width), which leaves the rows alone and may have
    used up a value of the id sequence. *)
Inductive StoreEvent :=
| Carried (op : StoreOp)
| InsertRefused (used : bool).

Definition apply_event (s : remediation.Store) (e : StoreEvent)
  : remediation.Store :=
  match e with
  | Carried op => apply_op s op
  | InsertRefused used =>
      {| remediation.rows := remediation.rows s;
         remediation.next_id := if used then (remediation.next_id s + 1)%Z
                                else remediation.next_id s |}
  end.

Definition apply_events (s : remediation.Store) (es : list StoreEvent)
  : remediation.Store := foldl apply_event s es.

(** The rows [TimeoutStalePendingCommands] selects. *)
Definition stale (timeout : Duration) (now : Time) (c : remediation.Command)
  : Prop :=
  remediation.Status c = remediation.CommandStatusPending
  ∧ (remediation.ExecutedAt c < now - timeout)%Z.

(** The rows [CleanupOldCommands] selects. *)
Definition expired (olderThan : Time) (c : remediation.Command) : Prop :=
  remediation.terminal_status (remediation.Status c)
  ∧ ∃ t, remediation.CompletedAt c = Some t ∧ (t < olderThan)%Z.

(** Every registered connection object has its read loop running. *)
Definition registered_listening (w : World) : Prop :=
  ∀ h p, connections w !! h = Some p → p ∈ listeners w.

(** The frame [dispatchToNode] writes for [cmd], if any. *)
Definition delivered (w : World) (cmd : Command) : option (ConnId * Frame) :=
  if bool_decide (TargetNode cmd ≠ "") then
    match lookup_agent w (TargetNode cmd) with
    | Some (_, a) =>
        if write_ok w (Conn a) then Some (Conn a, TextMessage cmd) else None
    | None => None
    end
  else None.

(** The pings one iteration of the loop of [checkConnections] writes for
    the registry entry [e]. *)
Definition pings_by_check (now : Time) (w : World) (e : string * ptr)
  : list (ConnId * Frame) :=
  match heap w !! e.2 with
  | None => []
  | Some a =>
      if write_ok w (Conn a) then
        (if decide (now - LastActivity a > 2 * Minute)%Z
         then [(Conn a, PingMessage)] else [])
        ++ (if decide (now - LastActivity a > 30 * Second)%Z
            then [(Conn a, PingMessage)] else [])
      else []
  end.

(** The columns [UpdateNode] writes agree between two node records. *)
Definition same_columns (a b : nodes.Node) : Prop :=
  nodes.Hostname a = nodes.Hostname b
  ∧ nodes.IPAddress a = nodes.IPAddress b
  ∧ nodes.OSVersion a = nodes.OSVersion b
  ∧ nodes.FibratusVersion a = nodes.FibratusVersion b
  ∧ nodes.CPU a = nodes.CPU b
  ∧ nodes.Memory a = nodes.Memory b
  ∧ nodes.Disk a = nodes.Disk b
  ∧ nodes.Status a = nodes.Status b
  ∧ nodes.Isolated a = nodes.Isolated b
  ∧ nodes.LastHeartbeat a = nodes.LastHeartbeat b.

(** The order of [ORDER BY executed_at]. *)
Definition by_executed_at (a b : remediation.Command) : Prop :=
  (remediation.ExecutedAt a ≤ remediation.ExecutedAt b)%Z.

End portal.

(** ** Sample worlds *)

Module sample.
Import websocket.

Definition node (i : Z) (h : string) : nodes.Node :=
  {| nodes.ID := i; nodes.Hostname := h; nodes.IPAddress := "10.0.0.1";
     nodes.OSVersion := ""; nodes.FibratusVersion := ""; nodes.CPU := "";
     nodes.Memory := ""; nodes.Disk := ""; nodes.Status := "offline";
     nodes.Isolated := false; nodes.LastHeartbeat := 0%Z;
     nodes.CreatedAt := 0%Z; nodes.UpdatedAt := 0%Z |}.

(** An inventory with [h1] and [h2], both members of group 7. *)
Definition inventory : nodes.Table := [node 1 "h1"; node 2 "h2"].
Definition groups : list (Z * Z) := [(1, 7); (2, 7)]%Z.

Definition w0 : World := NewService inventory groups remediation.empty.

(** [h1] connects on handle 1 at time 0. *)
Definition w1 : World :=
  handler.HandleAgentConnection w0 (Some 5%Z) "h1" (Some 1%nat) 0%Z.

(** [h1] connects again on handle 2, one second later. *)
Definition w2 : World :=
  handler.HandleAgentConnection w1 (Some 5%Z) "h1" (Some 2%nat) Second.

(** [h2] connects on handle 3. *)
Definition w12 : World :=
  handler.HandleAgentConnection w1 (Some 5%Z) "h2" (Some 3%nat) 0%Z.

Definition command (i ty prio node group : string) : Command :=
  {| CommandID := i; Command_ := ty; Priority := prio; Details := [];
     TargetNode := node; TargetGroup := group |}.

Definition cmd_normal : Command :=
  command "cmd-1" "get-system-info" "normal" "h1" "".
Definition cmd_critical : Command :=
  command "cmd-2" "isolate-host" "critical" "h1" "".
Definition cmd_unknown_type : Command :=
  command "cmd-3" "no-such-command" "normal" "h1" "".
Definition cmd_both_targets : Command :=
  command "cmd-4" "isolate-host" "normal" "h1" "7".
Definition cmd_group : Command :=
  command "cmd-5" "reboot-node" "normal" "" "7".

(** A command executed for node 1 at time 5, and its store after the
    agent reported success at time 10. *)
Definition request : remediation.Command :=
  {| remediation.ID := 0; remediation.NodeID := 1; remediation.UserID := 9;
     remediation.CommandType_ := remediation.CommandTypeKillProcess;
     remediation.CommandDetails := "{}"; remediation.Status := "";
     remediation.ResultDetails := None; remediation.ExecutedAt := 0;
     remediation.CompletedAt := None |}%Z.

Definition report_ok : remediation.CommandResult :=
  {| remediation.Success := true; remediation.Message := "killed";
     remediation.Data := "" |}.
Definition report_failed : remediation.CommandResult :=
  {| remediation.Success := false; remediation.Message := "no such process";
     remediation.Data := "" |}.

Definition store_pending : remediation.Store :=
  (remediation.ExecuteCommand remediation.empty request 5).1.2.
Definition store_done : remediation.Store :=
  (remediation.UpdateCommandResult store_pending 1 report_ok 10).2.

(** The request without its node id. *)
Definition request_no_node : remediation.Command :=
  {| remediation.ID := 0; remediation.NodeID := 0; remediation.UserID := 9;
     remediation.CommandType_ := remediation.CommandTypeKillProcess;
     remediation.CommandDetails := "{}"; remediation.Status := "";
     remediation.ResultDetails := None; remediation.ExecutedAt := 0;
     remediation.CompletedAt := None |}%Z.

(** The administrator [root] and the analyst [ann]. *)
Definition user (i : Z) (name role : string) : users.User :=
  {| users.ID := i; users.Username := name; users.PasswordHash := "$2a$10$";
     users.MFASecret := None; users.MFAEnabled := false; users.Role := role;
     users.CreatedAt := 0; users.UpdatedAt := 0 |}%Z.

Definition accounts : users.Table := [user 1 "root" "admin"; user 2 "ann" "analyst"].

End sample.

(** * Properties *)

Import websocket portal.

(** ** Which fields an operation touches *)

Lemma sendCommandToAgent_frame w agent cmd :
  let w' := (sendCommandToAgent w agent cmd).2 in
  connections w' = connections w ∧ heap w' = heap w
  ∧ commandChan w' = commandChan w ∧ listeners w' = listeners w
  ∧ goroutines w' = goroutines w ∧ db_nodes w' = db_nodes w
  ∧ db_groups w' = db_groups w ∧ db_commands w' = db_commands w
  ∧ closed w' = closed w ∧ broken w' = broken w.
Proof.
  unfold sendCommandToAgent, write_frame.
  destruct (write_ok w (Conn agent)); simpl; repeat split.
Qed.

Lemma dispatchToNode_frame w cmd :
  let w' := dispatchToNode w cmd in
  connections w' = connections w ∧ heap w' = heap w
  ∧ commandChan w' = commandChan w ∧ listeners w' = listeners w
  ∧ goroutines w' = goroutines w ∧ db_nodes w' = db_nodes w
  ∧ db_groups w' = db_groups w ∧ db_commands w' = db_commands w
  ∧ closed w' = closed w ∧ broken w' = broken w.
Proof.
  unfold dispatchToNode.
  destruct (lookup_agent w (TargetNode cmd)) as [[p agent]|]; [|by repeat split].
  apply sendCommandToAgent_frame.
Qed.

Lemma commandDispatcher_step_frame w cmd w' :
  commandDispatcher_step w = Some (cmd, w') →
  commandChan w = cmd :: commandChan w'
  ∧ connections w' = connections w ∧ heap w' = heap w
  ∧ listeners w' = listeners w ∧ goroutines w' = goroutines w
  ∧ db_nodes w' = db_nodes w ∧ db_groups w' = db_groups w
  ∧ db_commands w' = db_commands w
  ∧ closed w' = closed w ∧ broken w' = broken w.
Proof.
  unfold commandDispatcher_step.
  destruct (commandChan w) as [|c rest] eqn:Hq; [done|].
  intros [= <- <-].
  repeat case_bool_decide; unfold dispatchToGroup;
    try (pose proof (dispatchToNode_frame (set_commandChan (λ _, rest) w) c)
           as (?&?&Hc&?&?&?&?&?&?&?); simpl in *; rewrite Hc);
    simpl; repeat split; done.
Qed.

Lemma commandDispatcher_takes n w :
  (commandDispatcher n w).1 = take n (commandChan w).
Proof.
  revert w. induction n as [|n IH]; intros w; [done|].
  simpl. destruct (commandDispatcher_step w) as [[cmd w']|] eqn:Hs.
  - apply commandDispatcher_step_frame in Hs as (Hq & _).
    specialize (IH w'). destruct (commandDispatcher n w') as [taken w''].
    simpl in *. by rewrite Hq, IH.
  - unfold commandDispatcher_step in Hs.
    by destruct (commandChan w).
Qed.

Lemma fails_validation_dec cmd : Decision (fails_validation cmd).
Proof. unfold fails_validation. apply _. Qed.

Lemma SendCommand_valid w cmd :
  ¬ fails_validation cmd → SendCommand w cmd = (w' ← chan_send w cmd; Some (None, w')).
Proof.
  unfold fails_validation, SendCommand. intros Hv.
  repeat case_bool_decide; try done; exfalso; apply Hv; auto.
Qed.

Lemma SendCommand_accepted w cmd w' :
  SendCommand w cmd = Some (None, w') →
  ¬ fails_validation cmd ∧ length (commandChan w) < commandChan_cap
  ∧ w' = set_commandChan (λ q, q ++ [cmd]) w.
Proof.
  unfold fails_validation, SendCommand, chan_send.
  repeat case_bool_decide; try done.
  case_decide; simpl; [|done]. intros [= <-]. split; [|done].
  intros [?|[?|?]]; done.
Qed.

Lemma submit_all_chan w cmds w' :
  submit_all w cmds = Some w' → commandChan w' = commandChan w ++ cmds.
Proof.
  revert w. induction cmds as [|cmd rest IH]; intros w; simpl.
  - intros [= <-]. by rewrite app_nil_r.
  - destruct (SendCommand w cmd) as [[[e|] w1]|] eqn:Hs; try done.
    intros Hr. apply IH in Hr. apply SendCommand_accepted in Hs as (_ & _ & ->).
    simpl in Hr. by rewrite Hr, <- app_assoc.
Qed.

(** ** Submission: [SendCommand] *)

(** C7 (as the code has it): [SendCommand] returns an error exactly when the
    command id is empty, the command type is empty, or both targets are
    empty, and then the world (so the queue) is unchanged; every other
    command, whatever its type and also with both targets set, is appended
    to the channel and [nil] is returned, the send blocking only while the
    channel holds 1000 commands. *)
Theorem SendCommand_rejects_iff_fails_validation (w : World) (cmd : Command) :
  ((∃ e w', SendCommand w cmd = Some (Some e, w')) ↔ fails_validation cmd)
  ∧ (∀ e w', SendCommand w cmd = Some (Some e, w') → w' = w)
  ∧ (¬ fails_validation cmd →
     SendCommand w cmd =
       if decide (length (commandChan w) < commandChan_cap)
       then Some (None, set_commandChan (λ q, q ++ [cmd]) w)
       else None).
Proof.
  split_and!.
  - split.
    + intros (e & w' & Hs). destruct (fails_validation_dec cmd) as [|Hv]; [done|].
      rewrite (SendCommand_valid _ _ Hv) in Hs. unfold chan_send in Hs.
      case_decide; simplify_eq/=.
    + unfold fails_validation, SendCommand.
      intros Hf. repeat case_bool_decide; eauto.
      exfalso. destruct Hf as [?|[?|?]]; done.
  - unfold SendCommand, chan_send. intros e w'.
    repeat case_bool_decide; try (by intros [= _ <-]).
    case_decide; simpl; done.
  - intros Hv. rewrite (SendCommand_valid _ _ Hv). unfold chan_send.
    by case_decide.
Qed.

Lemma SendCommand_rejects_iff_fails_validation_witness :
  (∃ e w', SendCommand sample.w0 (sample.command "" "isolate-host" "normal" "h1" "")
           = Some (Some e, w'))
  ∧ SendCommand sample.w0 sample.cmd_normal
    = Some (None, set_commandChan (λ q, q ++ [sample.cmd_normal]) sample.w0).
Proof.
  split.
  - destruct (SendCommand_rejects_iff_fails_validation sample.w0
                (sample.command "" "isolate-host" "normal" "h1" ""))
      as ([_ Hrej] & _ & _).
    apply Hrej. by left.
  - destruct (SendCommand_rejects_iff_fails_validation sample.w0
                sample.cmd_normal) as (_ & _ & Hacc).
    apply Hacc. by intros [?|[?|[? _]]].
Defined.

(** C7, counterexample: a command whose type is not a recognized command
    kind is accepted and enqueued, and so is a command with both a node and
    a group target. *)
Lemma SendCommand_accepts_unrecognized_type_and_both_targets :
  remediation.ValidateCommandType (Command_ sample.cmd_unknown_type) = false
  ∧ SendCommand sample.w0 sample.cmd_unknown_type
    = Some (None, set_commandChan (λ _, [sample.cmd_unknown_type]) sample.w0)
  ∧ TargetNode sample.cmd_both_targets ≠ ""
  ∧ TargetGroup sample.cmd_both_targets ≠ ""
  ∧ SendCommand sample.w0 sample.cmd_both_targets
    = Some (None, set_commandChan (λ _, [sample.cmd_both_targets]) sample.w0).
Proof. split_and!; done. Qed.

(** ** The queue: [commandChan] and [commandDispatcher] *)

(** C3 (as the code has it): there is one queue; commands submitted one
    after the other are taken for dispatch in exactly the order of their
    submission, behind what was queued before them, whatever their
    priority. *)
Theorem commandDispatcher_takes_in_submission_order
    (w w' : World) (cmds : list Command) :
  submit_all w cmds = Some w' →
  (commandDispatcher (length (commandChan w')) w').1 = commandChan w ++ cmds.
Proof.
  intros Hs. rewrite commandDispatcher_takes, firstn_all.
  by apply submit_all_chan.
Qed.

Lemma commandDispatcher_takes_in_submission_order_witness :
  ∃ w', submit_all sample.w1 [sample.cmd_normal; sample.cmd_critical] = Some w'
        ∧ (commandDispatcher (length (commandChan w')) w').1
          = [sample.cmd_normal; sample.cmd_critical].
Proof.
  eexists. split; [reflexivity|].
  exact (commandDispatcher_takes_in_submission_order sample.w1 _
           [sample.cmd_normal; sample.cmd_critical] eq_refl).
Defined.

(** C3, counterexample: with a normal command submitted before a critical
    one, the dispatcher takes the normal command while the critical command
    is still queued. *)
Lemma normal_command_taken_while_critical_queued :
  ∃ w w',
    submit_all sample.w1 [sample.cmd_normal; sample.cmd_critical] = Some w
    ∧ commandDispatcher_step w = Some (sample.cmd_normal, w')
    ∧ Priority sample.cmd_normal = "normal"
    ∧ commandChan w' = [sample.cmd_critical]
    ∧ Priority sample.cmd_critical = "critical".
Proof. do 2 eexists. split_and!; reflexivity. Qed.

(** ** Dispatch: [dispatchToNode] and [dispatchToGroup] *)

Lemma SendIsolationCommand_store w h reason now e w' :
  SendIsolationCommand w h reason now = Some (e, w') →
  db_commands w' = db_commands w ∧ db_nodes w' = db_nodes w.
Proof.
  unfold SendIsolationCommand, chan_send.
  destruct (lookup_agent w h) as [[p a]|].
  - pose proof (sendCommandToAgent_frame w a (isolation_command h reason now))
      as (_&_&_&_&_&Hn&_&Hc&_).
    intros [= Hs]. rewrite Hs in Hn, Hc. done.
  - case_decide; simpl; [|done]. by intros [= _ <-].
Qed.

(** C1 (the code at the failing inputs): neither [dispatchToNode] nor
    [SendIsolationCommand] ever changes what the pending-command drain
    returns, for any agent.  An isolation command for [h1], which has no
    connection, is reported with an error, put on the in-memory channel,
    taken by the dispatcher and dropped: nothing is written, nothing is
    stored, and the drain for [h1] is empty.  The same holds for a command
    whose write fails because the peer is gone. *)
Theorem command_for_absent_agent_is_not_stored_for_poll :
  (∀ w cmd h,
     remediation.GetPendingCommandsByHostname
       (db_commands (dispatchToNode w cmd)) (db_nodes (dispatchToNode w cmd)) h
     = remediation.GetPendingCommandsByHostname (db_commands w) (db_nodes w) h)
  ∧ (∀ w hostname reason now e w' h,
       SendIsolationCommand w hostname reason now = Some (e, w') →
       remediation.GetPendingCommandsByHostname (db_commands w') (db_nodes w') h
       = remediation.GetPendingCommandsByHostname (db_commands w) (db_nodes w) h)
  ∧ (∃ w1 w2,
       lookup_agent sample.w0 "h1" = None
       ∧ SendIsolationCommand sample.w0 "h1" "contain" 42%Z
         = Some (Some "agent not currently connected, command queued", w1)
       ∧ commandDispatcher_step w1
         = Some (isolation_command "h1" "contain" 42%Z, w2)
       ∧ commandChan w2 = [] ∧ wire w2 = [] ∧ goroutines w2 = []
       ∧ db_commands w2 = remediation.empty
       ∧ remediation.GetPendingCommandsByHostname
           (db_commands w2) (db_nodes w2) "h1" = [])
  ∧ (let w := set_broken (λ _, {[1%nat]}) sample.w1 in
     let w' := dispatchToNode w sample.cmd_critical in
     is_Some (lookup_agent w "h1")
     ∧ wire w' = [] ∧ commandChan w' = [] ∧ goroutines w' = []
     ∧ remediation.GetPendingCommandsByHostname
         (db_commands w') (db_nodes w') "h1" = []).
Proof.
  split_and!.
  - intros w cmd h.
    pose proof (dispatchToNode_frame w cmd) as (_&_&_&_&_&Hn&_&Hc&_).
    simpl in *. by rewrite Hn, Hc.
  - intros w hostname reason now e w' h Hs.
    apply SendIsolationCommand_store in Hs as [-> ->]. done.
  - do 2 eexists. split_and!; reflexivity.
  - split_and!; [by eexists|reflexivity..].
Qed.

(** C4 (the code at the failing input): [dispatchToGroup] returns the world
    as it got it.  Group 7 has two members, both connected; a command for
    group 7 is accepted, taken by the dispatcher, and no frame is written to
    any member: zero deliveries are attempted for a snapshot of size two. *)
Theorem group_command_is_delivered_to_no_member :
  (∀ w cmd, dispatchToGroup w cmd = w)
  ∧ (length (nodes.GetNodesByGroupID
               (db_nodes sample.w12) (db_groups sample.w12) 7%Z) = 2%nat
     ∧ is_Some (lookup_agent sample.w12 "h1")
     ∧ is_Some (lookup_agent sample.w12 "h2")
     ∧ ∃ w,
         SendCommand sample.w12 sample.cmd_group = Some (None, w)
         ∧ commandDispatcher_step w = Some (sample.cmd_group, sample.w12)
         ∧ wire sample.w12 = []).
Proof.
  split; [done|].
  split_and!; [reflexivity|by eexists..|].
  eexists. split_and!; reflexivity.
Qed.

(** ** The store: [command_history] *)

Section store_lemmas.
Import remediation.

Lemma find_id_fmap (g : Command → Command) (l : list Command) (j : Z) :
  (∀ c, ID (g c) = ID c) →
  List.find (λ c, bool_decide (ID c = j)) (g <$> l)
  = g <$> List.find (λ c, bool_decide (ID c = j)) l.
Proof.
  intros Hg. induction l as [|c l IH]; [done|].
  simpl. rewrite Hg. by case_bool_decide.
Qed.

Lemma find_id_Some (l : list Command) (j : Z) c :
  List.find (λ c, bool_decide (ID c = j)) l = Some c → c ∈ l ∧ ID c = j.
Proof.
  intros Hf. apply find_some in Hf as [Hin Hb].
  apply list_elem_of_In in Hin. by apply bool_decide_eq_true in Hb.
Qed.

Lemma find_id_None (l : list Command) (j : Z) :
  List.find (λ c, bool_decide (ID c = j)) l = None → ∀ c, c ∈ l → ID c ≠ j.
Proof.
  intros Hf c Hin%list_elem_of_In Heq.
  pose proof (find_none _ _ Hf c Hin) as Hb. simpl in Hb.
  by apply bool_decide_eq_false in Hb.
Qed.

Lemma update_where_id_ID i f c :
  (∀ c, ID (f c) = ID c) →
  ID (if bool_decide (ID c = i) then f c else c) = ID c.
Proof. intros Hf. by case_bool_decide. Qed.

Lemma GetCommand_update_eq s i f c :
  (∀ c, ID (f c) = ID c) →
  GetCommand s i = Some c →
  GetCommand (update_where_id i f s) i = Some (f c).
Proof.
  intros Hf Hc. unfold GetCommand, update_where_id in *. simpl.
  rewrite find_id_fmap by (intros; by apply update_where_id_ID).
  rewrite Hc. simpl. apply find_id_Some in Hc as [_ Hi].
  by rewrite bool_decide_eq_true_2.
Qed.

Lemma GetCommand_update_ne s i j f :
  (∀ c, ID (f c) = ID c) → j ≠ i →
  GetCommand (update_where_id i f s) j = GetCommand s j.
Proof.
  intros Hf Hne. unfold GetCommand, update_where_id in *. simpl.
  rewrite find_id_fmap by (intros; by apply update_where_id_ID).
  destruct (List.find _ (rows s)) as [c|] eqn:Hc; [|done].
  simpl. apply find_id_Some in Hc as [_ Hi].
  rewrite bool_decide_eq_false_2; [done|congruence].
Qed.

Lemma update_where_id_absent s i f :
  GetCommand s i = None → update_where_id i f s = s.
Proof.
  intros Hn. unfold update_where_id. destruct s as [l n]. simpl. f_equal.
  pose proof (find_id_None _ _ Hn) as Hall. simpl in Hall.
  clear Hn. induction l as [|c l IH]; [done|].
  rewrite fmap_cons, IH.
  - rewrite bool_decide_eq_false_2; [done|]. apply Hall. by left.
  - intros c' Hc'. apply Hall. by right.
Qed.

Lemma update_where_id_idemp s i f :
  (∀ c, ID (f c) = ID c) → (∀ c, f (f c) = f c) →
  update_where_id i f (update_where_id i f s) = update_where_id i f s.
Proof.
  intros Hid Hf. unfold update_where_id. simpl. f_equal.
  rewrite <- list_fmap_compose. apply list_fmap_ext.
  intros _ c _. simpl. destruct (decide (ID c = i)) as [Hc|Hc].
  - rewrite (bool_decide_eq_true_2 _ Hc).
    rewrite bool_decide_eq_true_2 by (by rewrite Hid). by rewrite Hf.
  - by rewrite !(bool_decide_eq_false_2 _ Hc).
Qed.


Lemma elem_of_insert_by_time c x l :
  c ∈ insert_by_time x l ↔ c = x ∨ c ∈ l.
Proof.
  induction l as [|y l IH]; simpl.
  - by rewrite elem_of_cons.
  - destruct (ExecutedAt x <=? ExecutedAt y)%Z.
    + by rewrite elem_of_cons.
    + rewrite !elem_of_cons, IH. tauto.
Qed.

Lemma elem_of_order_by_executed_at c l :
  c ∈ order_by_executed_at l ↔ c ∈ l.
Proof.
  induction l as [|y l IH]; [done|].
  unfold order_by_executed_at in *. simpl.
  by rewrite elem_of_insert_by_time, IH, elem_of_cons.
Qed.

Lemma GetPendingCommands_pending s nodeID c :
  c ∈ GetPendingCommands s nodeID →
  c ∈ rows s ∧ Status c = CommandStatusPending.
Proof.
  unfold GetPendingCommands.
  rewrite elem_of_order_by_executed_at, list_elem_of_filter. tauto.
Qed.

Lemma GetPendingCommandsByHostname_pending s tbl h c :
  c ∈ GetPendingCommandsByHostname s tbl h →
  c ∈ rows s ∧ Status c = CommandStatusPending.
Proof.
  unfold GetPendingCommandsByHostname.
  rewrite elem_of_order_by_executed_at, list_elem_of_bind.
  intros (ch & Hc & Hch). apply list_elem_of_bind in Hc as (n & Hc & _).
  case_bool_decide as Hb; [|by apply elem_of_nil in Hc].
  apply list_elem_of_singleton in Hc as ->. tauto.
Qed.

End store_lemmas.

Section retired_lemmas.
Import remediation.

Lemma retired_fmap i s (g : Command → Command) :
  (∀ c, ID (g c) = ID c) →
  (∀ c, Status (g c) = CommandStatusPending → Status c = CommandStatusPending) →
  retired i s → retired i {| rows := g <$> rows s; next_id := next_id s |}.
Proof.
  intros Hid Hst (Hwf & Hlt & Hnp). unfold retired, store_wf in *. simpl.
  split_and!; [|done|].
  - apply Forall_fmap. eapply Forall_impl; [exact Hwf|].
    intros c Hc. simpl. by rewrite Hid.
  - intros c' (c & -> & Hin)%list_elem_of_fmap Hi Hp.
    rewrite Hid in Hi. by eapply Hnp; [| |apply Hst].
Qed.

Lemma retired_filter i s (P : Command → Prop) `{!∀ c, Decision (P c)} :
  retired i s → retired i {| rows := filter P (rows s); next_id := next_id s |}.
Proof.
  intros (Hwf & Hlt & Hnp). unfold retired, store_wf in *. simpl.
  split_and!; [|done|].
  - rewrite Forall_forall in *.
    intros c [_ Hin]%list_elem_of_filter. by apply Hwf.
  - intros c [_ Hin]%list_elem_of_filter. by apply Hnp.
Qed.

Lemma retired_insert_row i s n u ty d st t :
  retired i s → retired i (insert_row s n u ty d st t).1.
Proof.
  intros (Hwf & Hlt & Hnp). unfold retired, store_wf, insert_row in *. simpl.
  split_and!; [|lia|].
  - apply Forall_app. split.
    + eapply Forall_impl; [exact Hwf|]. intros c Hc. simpl in *. lia.
    + apply Forall_singleton. simpl. lia.
  - intros c [Hin|Hin]%elem_of_app; [by apply Hnp|].
    apply list_elem_of_singleton in Hin as ->. simpl. lia.
Qed.

Lemma retired_apply_op i s op : retired i s → retired i (apply_op s op).
Proof.
  intros Hr. destruct op as [cmd now|j r now|j now|t|d now|n u a now]; simpl.
  - unfold ExecuteCommand. repeat case_bool_decide; try done.
    simpl. by apply (retired_insert_row i s).
  - unfold update_where_id. apply retired_fmap; [| |done].
    + intros c. by case_bool_decide.
    + intros c. case_bool_decide; [|done]. simpl. by destruct (Success r).
  - unfold CancelCommand. destruct (get_status s j) as [st|]; [|done].
    case_bool_decide; [done|]. simpl.
    unfold update_where_id. apply retired_fmap; [| |done].
    + intros c. by case_bool_decide.
    + intros c. by case_bool_decide.
  - by apply retired_filter.
  - apply retired_fmap; [| |done].
    + intros c. by case_bool_decide.
    + intros c. by case_bool_decide.
  - by apply (retired_insert_row i s).
Qed.


Lemma retired_not_pending i s : retired i s → ¬ is_pending s i.
Proof. intros (_ & _ & Hnp) (c & Hin & Hi & Hp). by eapply Hnp. Qed.


End retired_lemmas.

(** C5 (as the code has it): [UpdateCommandResult] never fails and never
    looks at the stored status: the row with the given id gets the status
    success or failed chosen by the report, the report as result and the
    time of the call as completion time, also when it was terminal before,
    and keeps its other columns; other rows and a store without the id are
    unchanged.  Only the same report processed again at the same instant
    leaves the store as it is.  The agent's [SubmitCommandResult] answers
    ok and leaves that store; the websocket [handleCommandResponse] updates
    no state. *)
Theorem UpdateCommandResult_overwrites_whatever_status
    (s : remediation.Store) (commandID : Z)
    (result : remediation.CommandResult) (now : Time) :
  let status := if remediation.Success result then "success" else "failed" in
  let s' := (remediation.UpdateCommandResult s commandID result now).2 in
  (remediation.UpdateCommandResult s commandID result now).1 = None
  ∧ (∀ c, remediation.GetCommand s commandID = Some c →
          remediation.GetCommand s' commandID
          = Some {| remediation.ID := remediation.ID c;
                    remediation.NodeID := remediation.NodeID c;
                    remediation.UserID := remediation.UserID c;
                    remediation.CommandType_ := remediation.CommandType_ c;
                    remediation.CommandDetails := remediation.CommandDetails c;
                    remediation.Status := status;
                    remediation.ResultDetails := Some result;
                    remediation.ExecutedAt := remediation.ExecutedAt c;
                    remediation.CompletedAt := Some now |})
  ∧ (remediation.GetCommand s commandID = None → s' = s)
  ∧ (∀ j, j ≠ commandID → remediation.GetCommand s' j = remediation.GetCommand s j)
  ∧ length (remediation.rows s') = length (remediation.rows s)
  ∧ remediation.next_id s' = remediation.next_id s
  ∧ (remediation.UpdateCommandResult s' commandID result now).2 = s'
  ∧ agent.SubmitCommandResult s (Some commandID) (Some result) now
    = (agent.StatusOk, s')
  ∧ (∀ w agent resp, handleCommandResponse w agent resp = (None, w)).
Proof.
  simpl. split_and!; [done| | | | |done| |done|done].
  - intros c Hc.
    rewrite (GetCommand_update_eq _ _ _ c); [|done|done].
    by destruct (remediation.Success result).
  - apply update_where_id_absent.
  - intros j Hj. by apply GetCommand_update_ne.
  - by rewrite length_fmap.
  - by apply update_where_id_idemp.
Qed.

Lemma UpdateCommandResult_overwrites_whatever_status_witness :
  remediation.GetCommand
    (remediation.UpdateCommandResult sample.store_done 1 sample.report_failed 20).2 1
  = Some {| remediation.ID := 1; remediation.NodeID := 1;
            remediation.UserID := 9;
            remediation.CommandType_ := "kill-process";
            remediation.CommandDetails := "{}";
            remediation.Status := "failed";
            remediation.ResultDetails := Some sample.report_failed;
            remediation.ExecutedAt := 5;
            remediation.CompletedAt := Some 20%Z |}.
Proof.
  destruct (UpdateCommandResult_overwrites_whatever_status sample.store_done 1
              sample.report_failed 20) as (_ & Hrow & _).
  exact (Hrow _ eq_refl).
Defined.

(** C5, counterexample: the command 1 is in the terminal status success,
    completed at time 10.  The same completion report arriving again at
    time 20 changes the completion time, and a failure report arriving then
    changes status and result. *)
Lemma duplicate_completion_report_changes_terminal_command :
  remediation.rows sample.store_done
  = [remediation.set_ID 1
       (remediation.set_result "success" (Some sample.report_ok) (Some 10%Z)
          (remediation.set_result "pending" None None
             {| remediation.ID := 0; remediation.NodeID := 1;
                remediation.UserID := 9;
                remediation.CommandType_ := "kill-process";
                remediation.CommandDetails := "{}";
                remediation.Status := ""; remediation.ResultDetails := None;
                remediation.ExecutedAt := 5; remediation.CompletedAt := None |}))]
  ∧ remediation.terminal_status "success"
  ∧ (remediation.CompletedAt <$>
       remediation.GetCommand
         (remediation.UpdateCommandResult sample.store_done 1 sample.report_ok 20).2 1)
    = Some (Some 20%Z)
  ∧ (remediation.Status <$>
       remediation.GetCommand
         (remediation.UpdateCommandResult sample.store_done 1 sample.report_failed 20).2 1)
    = Some "failed"
  ∧ (remediation.UpdateCommandResult sample.store_done 1 sample.report_failed 20).2
    ≠ sample.store_done.
Proof. split_and!; [reflexivity|by left|reflexivity|reflexivity|done]. Qed.



Lemma store_wf_store_done : store_wf sample.store_done.
Proof. repeat constructor. Qed.



(** ** The registry *)

Lemma RegisterConnection_unknown w h conn now :
  nodes.GetNodeByHostname (db_nodes w) h = None →
  RegisterConnection w h conn now
  = (Some "node not found: sql: no rows in result set", w).
Proof. unfold RegisterConnection. by intros ->. Qed.

Lemma RegisterConnection_known w h conn now node :
  nodes.GetNodeByHostname (db_nodes w) h = Some node →
  let p := fresh (dom (heap w)) in
  let a := {| NodeID := nodes.ID node; Hostname := h; Conn := conn;
              Connected := now; LastActivity := now |} in
  let w' := (RegisterConnection w h conn now).2 in
  (RegisterConnection w h conn now).1 = None
  ∧ connections w' = <[h := p]> (connections w)
  ∧ heap w' = <[p := a]> (heap w)
  ∧ listeners w' = listeners w ∪ {[p]}
  ∧ closed w' = closed w ∧ broken w' = broken w ∧ wire w' = wire w
  ∧ commandChan w' = commandChan w ∧ goroutines w' = goroutines w
  ∧ db_commands w' = db_commands w.
Proof.
  intros Hn. unfold RegisterConnection. rewrite Hn. simpl.
  destruct (nodes.UpdateNode _ _ _); simpl; repeat split.
Qed.

Lemma unregisterConnection_registry w h now :
  registry_change w (unregisterConnection w h now).
Proof.
  unfold unregisterConnection.
  destruct (lookup_agent w h) as [[p a]|]; [|by apply rc_same].
  by apply rc_delete with h.
Qed.

Lemma ping_or_unregister_frame w h a :
  let w' := ping_or_unregister w h a in
  connections w' = connections w ∧ heap w' = heap w
  ∧ commandChan w' = commandChan w ∧ listeners w' = listeners w
  ∧ db_nodes w' = db_nodes w ∧ db_groups w' = db_groups w
  ∧ db_commands w' = db_commands w
  ∧ closed w' = closed w ∧ broken w' = broken w.
Proof.
  unfold ping_or_unregister, write_frame.
  destruct (write_ok w (Conn a)); simpl; repeat split.
Qed.

Lemma check_one_frame now w e :
  let w' := check_one now w e in
  connections w' = connections w ∧ heap w' = heap w
  ∧ commandChan w' = commandChan w ∧ listeners w' = listeners w
  ∧ db_nodes w' = db_nodes w ∧ db_groups w' = db_groups w
  ∧ db_commands w' = db_commands w
  ∧ closed w' = closed w ∧ broken w' = broken w.
Proof.
  unfold check_one.
  destruct (heap w !! e.2) as [a|]; [|by repeat split].
  set (w1 := if decide (now - LastActivity a > 2 * Minute)%Z
             then ping_or_unregister w e.1 a else w).
  assert (connections w1 = connections w ∧ heap w1 = heap w
          ∧ commandChan w1 = commandChan w ∧ listeners w1 = listeners w
          ∧ db_nodes w1 = db_nodes w ∧ db_groups w1 = db_groups w
          ∧ db_commands w1 = db_commands w
          ∧ closed w1 = closed w ∧ broken w1 = broken w) as H1.
  { unfold w1. case_decide; [apply ping_or_unregister_frame|by repeat split]. }
  case_decide; [|done].
  pose proof (ping_or_unregister_frame w1 e.1 a) as H2. simpl in H2.
  destruct_and!. split_and!; congruence.
Qed.

Lemma checkConnections_frame w now :
  let w' := checkConnections w now in
  connections w' = connections w ∧ heap w' = heap w
  ∧ commandChan w' = commandChan w ∧ listeners w' = listeners w
  ∧ db_nodes w' = db_nodes w ∧ db_groups w' = db_groups w
  ∧ db_commands w' = db_commands w
  ∧ closed w' = closed w ∧ broken w' = broken w.
Proof.
  unfold checkConnections.
  generalize (map_to_list (connections w)) as l.
  intros l. induction l as [|e l IH] using rev_ind; [by repeat split|].
  rewrite foldl_app. simpl.
  pose proof (check_one_frame now (foldl (check_one now) w l) e) as H.
  simpl in *. destruct_and!. split_and!; congruence.
Qed.

Lemma step_registry w w' : step w w' → registry_change w w'.
Proof.
  intros Hs. destruct Hs.
  - unfold handler.HandleAgentConnection.
    destruct apiKeyID; [|by apply rc_same].
    case_bool_decide; [by apply rc_same|].
    destruct upgraded as [conn|]; [|by apply rc_same].
    destruct (nodes.GetNodeByHostname (db_nodes w) hostname) as [node|] eqn:Hn.
    + pose proof (RegisterConnection_known w hostname conn now node Hn)
        as (He & Hc & Hh & _).
      destruct (RegisterConnection w hostname conn now) as [[e|] w'];
        simpl in *; [done|].
      eapply rc_register; [exact Hn| |exact Hc|exact Hh]. done.
    + rewrite (RegisterConnection_unknown _ _ _ _ Hn). by apply rc_same.
  - unfold SendCommand, chan_send in *.
    repeat case_bool_decide; simplify_eq/=; try by apply rc_same.
    case_decide; simplify_eq/=. by apply rc_same.
  - unfold SendIsolationCommand, chan_send in *.
    destruct (lookup_agent w hostname) as [[p a]|].
    + pose proof (sendCommandToAgent_frame w a
        (isolation_command hostname reason now)) as (?&?&_).
      simplify_eq/=. destruct (sendCommandToAgent _ _ _). simplify_eq/=.
      by apply rc_same.
    + case_decide; simplify_eq/=. by apply rc_same.
  - match goal with H : commandDispatcher_step _ = _ |- _ =>
      apply commandDispatcher_step_frame in H as (_&?&?&_) end.
    by apply rc_same.
  - by eapply rc_touch.
  - unfold listen_message. simpl.
    destruct (alter _ p (heap w) !! p) as [a|] eqn:Ha.
    + unfold processAgentMessage, handleCommandResponse.
      destruct message; [case_bool_decide|]; by eapply rc_touch.
    + by eapply rc_touch.
  - unfold listen_exit. simpl. destruct (heap w !! p) as [a|].
    + destruct (unregisterConnection_registry
                  (set_listeners (λ l, l ∖ {[p]}) w) (Hostname a) now)
        as [?|h ?|? ? ?|]; simpl in *.
      * by apply rc_same.
      * by apply rc_delete with h.
      * by eapply rc_touch.
      * by eapply rc_register.
    + by apply rc_same.
  - pose proof (checkConnections_frame w now) as (?&?&_). by apply rc_same.
  - destruct t as [h|h wake]; simpl.
    + destruct (unregisterConnection_registry
                  (set_goroutines (delete i) w) h now)
        as [?|h' ?|? ? ?|]; simpl in *.
      * by apply rc_same.
      * by apply rc_delete with h'.
      * by eapply rc_touch.
      * by eapply rc_register.
    + unfold offline_check. simpl.
      destruct (connections w !! h); [by apply rc_same|].
      destruct (nodes.GetNodeByHostname (db_nodes w) h); [|by apply rc_same].
      destruct (nodes.UpdateNode _ _ _); by apply rc_same.
  - by apply rc_same.
  - by apply rc_same.
  - by apply rc_same.
Qed.

Lemma registry_wf_change w w' :
  registry_change w w' → registry_wf w → registry_wf w'.
Proof.
  intros [Hc Hh|h Hc Hh|p t Hc Hh|h node a Hn Ha Hc Hh] Hwf k q;
    rewrite Hc, Hh.
  - apply Hwf.
  - intros [_ Hk]%lookup_delete_Some. by apply Hwf.
  - intros (a & Ha & Hk)%Hwf. destruct (decide (p = q)) as [->|Hne].
    + exists (set_LastActivity t a). split; [|done].
      by rewrite lookup_alter_eq, Ha.
    + exists a. by rewrite lookup_alter_ne.
  - intros [[-> <-]|[Hne Hk]]%lookup_insert_Some.
    + exists a. by rewrite lookup_insert_eq.
    + destruct (Hwf _ _ Hk) as (b & Hb & Hkb). exists b. split; [|done].
      rewrite lookup_insert_ne; [done|]. intros <-.
      apply (is_fresh (dom (heap w))). apply elem_of_dom. by eexists.
Qed.

Lemma reachable_while_holds P w : reachable_while P w → P w.
Proof. by intros []. Qed.

Lemma reachable_while_weaken P w : reachable_while P w → reachable w.
Proof.
  induction 1 as [tbl groups cmds _|w w' _ IH Hs _].
  - by apply reach_new.
  - by eapply reach_step.
Qed.

Lemma reachable_registry_wf w : reachable w → registry_wf w.
Proof.
  induction 1 as [tbl groups cmds _|w w' _ IH Hs _].
  - intros k p. simpl. by rewrite lookup_empty.
  - eapply registry_wf_change; [by apply step_registry|done].
Qed.

Lemma registry_wf_one_connection w :
  registry_wf w → one_connection_per_identity w.
Proof.
  intros Hwf k1 k2 p1 p2 a1 a2 Hk1 Hk2 Hp1 Hp2 Heq.
  destruct (Hwf _ _ Hk1) as (b1 & Hb1 & <-).
  destruct (Hwf _ _ Hk2) as (b2 & Hb2 & <-).
  simplify_eq. split; [done|]. congruence.
Qed.

Lemma unknown_never_registered h w :
  reachable_while (λ w, nodes.GetNodeByHostname (db_nodes w) h = None) w →
  connections w !! h = None.
Proof.
  induction 1 as [tbl groups cmds _|w w' Hr IH Hs _]; [done|].
  apply reachable_while_holds in Hr.
  destruct (step_registry _ _ Hs) as [Hc _|k Hc _|p t Hc _|k node a Hn _ Hc _];
    rewrite Hc; try done.
  - rewrite lookup_delete_None. by right.
  - rewrite lookup_insert_None. split; [done|]. intros ->. congruence.
Qed.

Lemma lookup_agent_Some w h p a :
  lookup_agent w h = Some (p, a) ↔ connections w !! h = Some p ∧ heap w !! p = Some a.
Proof.
  unfold lookup_agent. destruct (connections w !! h) as [q|]; simpl.
  - destruct (heap w !! q) as [b|] eqn:Hb; simpl.
    + split; [by intros [= <- <-]|]. intros [[= <-] Ha]. congruence.
    + split; [done|]. intros [[= <-] Ha]. congruence.
  - split; [done|]. by intros [? _].
Qed.

Lemma reachable_w1 : reachable sample.w1.
Proof.
  eapply reach_step; [by apply reach_new| |done]. apply step_connect.
Qed.

Lemma reachable_w2 : reachable sample.w2.
Proof.
  eapply reach_step; [exact reachable_w1| |done]. apply step_connect.
Qed.

(** C2 (as the code has it): in every reachable world no two registry
    entries belong to one agent identity, and [RegisterConnection] for a
    hostname with a node record replaces whatever entry the hostname had by
    the new connection, leaving the entries of all other hostnames as they
    were. *)
Theorem RegisterConnection_last_handshake_wins (w : World) :
  reachable w →
  one_connection_per_identity w
  ∧ ∀ h conn now node,
      nodes.GetNodeByHostname (db_nodes w) h = Some node →
      let w' := (RegisterConnection w h conn now).2 in
      (RegisterConnection w h conn now).1 = None
      ∧ lookup_agent w' h
        = Some (fresh (dom (heap w)),
                {| NodeID := nodes.ID node; Hostname := h; Conn := conn;
                   Connected := now; LastActivity := now |})
      ∧ (∀ k, k ≠ h → lookup_agent w' k = lookup_agent w k)
      ∧ one_connection_per_identity w'.
Proof.
  intros Hr. pose proof (reachable_registry_wf w Hr) as Hwf.
  split; [by apply registry_wf_one_connection|].
  intros h conn now node Hn.
  pose proof (RegisterConnection_known w h conn now node Hn)
    as (He & Hc & Hh & _). simpl in *.
  split_and!; [done| | |].
  - apply lookup_agent_Some. rewrite Hc, Hh.
    by rewrite !lookup_insert_eq.
  - intros k Hk. unfold lookup_agent. rewrite Hc, Hh.
    rewrite lookup_insert_ne by done.
    destruct (connections w !! k) as [q|] eqn:Hq; [|done]. simpl.
    destruct (Hwf _ _ Hq) as (b & Hb & _).
    rewrite lookup_insert_ne; [done|]. intros <-.
    apply (is_fresh (dom (heap w))). apply elem_of_dom. by eexists.
  - apply registry_wf_one_connection.
    eapply registry_wf_change; [|exact Hwf].
    by eapply (rc_register _ _ h node); [exact Hn| |exact Hc|exact Hh].
Qed.

Lemma RegisterConnection_last_handshake_wins_witness :
  one_connection_per_identity sample.w1
  ∧ lookup_agent (RegisterConnection sample.w1 "h1" 2%nat Second).2 "h1"
    = Some (1%nat,
            {| NodeID := 1; Hostname := "h1"; Conn := 2%nat;
               Connected := Second; LastActivity := Second |}).
Proof.
  destruct (RegisterConnection_last_handshake_wins sample.w1 reachable_w1)
    as [Hone Hreg].
  split; [exact Hone|].
  destruct (Hreg "h1" 2%nat Second _ eq_refl) as (_ & Hl & _).
  exact Hl.
Defined.

(** C2, counterexample: [h1] is registered on connection 1 and registers
    again on connection 2; the entry is replaced, and connection 1 is not
    closed. *)
Lemma superseded_connection_is_not_closed :
  (Conn <$> (snd <$> lookup_agent sample.w1 "h1")) = Some 1%nat
  ∧ (RegisterConnection sample.w1 "h1" 2%nat Second).1 = None
  ∧ (Conn <$> (snd <$> lookup_agent
       (RegisterConnection sample.w1 "h1" 2%nat Second).2 "h1")) = Some 2%nat
  ∧ 1%nat ∉ closed (RegisterConnection sample.w1 "h1" 2%nat Second).2.
Proof.
  split_and!; [reflexivity..|].
  apply (bool_decide_unpack _). by vm_compute.
Qed.

(** C8 (as the code has it): [unregisterConnection] takes the hostname only.
    It removes whatever entry the hostname has, closes the connection
    registered there and starts the deferred offline check; the read loop of
    any connection object carrying that hostname, the current one or a
    superseded one, removes the current entry and closes the current
    connection when it ends. *)
Theorem unregisterConnection_removes_current_entry
    (w : World) (h : string) (p : ptr) (a : AgentConnection) (now : Time) :
  lookup_agent w h = Some (p, a) →
  (let w' := unregisterConnection w h now in
   connections w' = delete h (connections w)
   ∧ heap w' = heap w
   ∧ closed w' = closed w ∪ {[Conn a]}
   ∧ goroutines w' = goroutines w ++ [GoOfflineCheck h (now + 30 * Second)%Z])
  ∧ (∀ q b, heap w !! q = Some b → Hostname b = h →
       let w' := listen_exit w q now in
       connections w' = delete h (connections w)
       ∧ lookup_agent w' h = None
       ∧ Conn a ∈ closed w'
       ∧ q ∉ listeners w').
Proof.
  intros Hl. split.
  - unfold unregisterConnection. rewrite Hl. simpl. by repeat split.
  - intros q b Hb <-. unfold listen_exit. simpl. rewrite Hb.
    unfold unregisterConnection.
    assert (lookup_agent (set_listeners (λ l, l ∖ {[q]}) w) (Hostname b)
            = Some (p, a)) as -> by done.
    simpl. split_and!; [done| | |].
    + unfold lookup_agent. simpl. by rewrite lookup_delete_eq.
    + apply elem_of_union_r. by apply elem_of_singleton.
    + intros [_ Hq]%elem_of_difference. apply Hq. by apply elem_of_singleton.
Qed.

Lemma unregisterConnection_removes_current_entry_witness :
  lookup_agent sample.w2 "h1"
  = Some (1%nat, {| NodeID := 1; Hostname := "h1"; Conn := 2%nat;
                    Connected := Second; LastActivity := Second |})
  ∧ lookup_agent (listen_exit sample.w2 0%nat (2 * Second)) "h1" = None
  ∧ 2%nat ∈ closed (listen_exit sample.w2 0%nat (2 * Second)).
Proof.
  split; [reflexivity|].
  destruct (unregisterConnection_removes_current_entry sample.w2 "h1" 1%nat
              _ (2 * Second) eq_refl) as [_ Hexit].
  destruct (Hexit 0%nat {| NodeID := 1; Hostname := "h1"; Conn := 1%nat;
                           Connected := 0; LastActivity := 0 |}
              eq_refl eq_refl) as (_ & Hl & Hc & _).
  split; [exact Hl|exact Hc].
Defined.

(** C8, counterexample: [h1] registered on connection 1 (object 0) and was
    superseded by a registration on connection 2 (object 1).  When the read
    loop of the superseded object 0 ends, its cleanup removes the entry of
    the current connection and closes connection 2; connection 1 is not
    closed. *)
Lemma superseded_read_loop_removes_newer_connection :
  lookup_agent sample.w1 "h1"
  = Some (0%nat, {| NodeID := 1; Hostname := "h1"; Conn := 1%nat;
                    Connected := 0; LastActivity := 0 |})
  ∧ lookup_agent sample.w2 "h1"
    = Some (1%nat, {| NodeID := 1; Hostname := "h1"; Conn := 2%nat;
                      Connected := Second; LastActivity := Second |})
  ∧ 0%nat ∈ listeners sample.w2
  ∧ connections (listen_exit sample.w2 0%nat (2 * Second)) !! "h1" = None
  ∧ 2%nat ∈ closed (listen_exit sample.w2 0%nat (2 * Second))
  ∧ 1%nat ∉ closed (listen_exit sample.w2 0%nat (2 * Second)).
Proof.
  split_and!; [reflexivity|reflexivity| |reflexivity| |];
    apply (bool_decide_unpack _); by vm_compute.
Qed.

(** C10 (as the code has it): registering a connection for a hostname
    without a node record fails: [RegisterConnection] returns an error and
    leaves the world as it was, the handler closes the upgraded connection,
    and no registry entry, connection object or read loop is added, so a
    lookup for the hostname finds after the attempt what it found before.
    A hostname the inventory has never known has no registry entry, before
    and after the attempt. *)
Theorem unknown_hostname_is_not_registered
    (w : World) (h : string) (conn : ConnId) (now : Time) (apiKeyID : Z) :
  nodes.GetNodeByHostname (db_nodes w) h = None →
  let w' := handler.HandleAgentConnection w (Some apiKeyID) h (Some conn) now in
  (∃ e, RegisterConnection w h conn now = (Some e, w))
  ∧ (h ≠ "" → w' = set_closed (λ c, c ∪ {[conn]}) w)
  ∧ (connections w' = connections w ∧ heap w' = heap w
     ∧ listeners w' = listeners w ∧ (h ≠ "" → conn ∈ closed w'))
  ∧ (∀ k, lookup_agent w' k = lookup_agent w k)
  ∧ (reachable_while
       (λ w, nodes.GetNodeByHostname (db_nodes w) h = None) w →
     lookup_agent w h = None ∧ lookup_agent w' h = None).
Proof.
  intros Hn. cbv zeta.
  assert (h ≠ "" →
          handler.HandleAgentConnection w (Some apiKeyID) h (Some conn) now
          = set_closed (λ c, c ∪ {[conn]}) w) as Hh.
  { intros Hne. unfold handler.HandleAgentConnection.
    rewrite bool_decide_eq_false_2 by done.
    by rewrite (RegisterConnection_unknown _ _ _ _ Hn). }
  assert (connections
            (handler.HandleAgentConnection w (Some apiKeyID) h (Some conn) now)
          = connections w
          ∧ heap (handler.HandleAgentConnection w (Some apiKeyID) h (Some conn) now)
            = heap w) as [Hc Hp].
  { destruct (decide (h = "")) as [->|Hne]; [done|]. by rewrite Hh. }
  split_and!.
  - eexists. by apply RegisterConnection_unknown.
  - done.
  - done.
  - done.
  - destruct (decide (h = "")) as [->|Hne]; [done|]. by rewrite Hh.
  - intros Hne. rewrite Hh by done. simpl.
    apply elem_of_union_r. by apply elem_of_singleton.
  - intros k. unfold lookup_agent. by rewrite Hc, Hp.
  - intros Hr%unknown_never_registered.
    unfold lookup_agent. by rewrite Hc, Hr.
Qed.

Lemma ghost_unknown_throughout :
  reachable_while
    (λ w, nodes.GetNodeByHostname (db_nodes w) "ghost" = None) sample.w1.
Proof.
  apply (reach_step _ sample.w0); [|apply step_connect|done].
  by apply (reach_new _ sample.inventory sample.groups remediation.empty).
Qed.

Lemma unknown_hostname_is_not_registered_witness :
  (∃ e, RegisterConnection sample.w1 "ghost" 9%nat Second = (Some e, sample.w1))
  ∧ 9%nat ∈ closed (handler.HandleAgentConnection sample.w1 (Some 5%Z) "ghost"
                      (Some 9%nat) Second)
  ∧ lookup_agent (handler.HandleAgentConnection sample.w1 (Some 5%Z) "ghost"
                    (Some 9%nat) Second) "ghost" = None.
Proof.
  destruct (unknown_hostname_is_not_registered sample.w1 "ghost" 9%nat Second 5
              eq_refl) as (He & _ & (_ & _ & _ & Hc) & _ & Hl).
  split; [exact He|]. split; [by apply Hc|].
  by destruct (Hl ghost_unknown_throughout) as [_ Hl'].
Defined.

(** C10, counterexample: [h1] registers on connection 1 while the
    inventory knows it; then its node record is deleted.  The hostname is
    now unknown to the inventory and still holds its registry entry with the
    connection open: a new attempt to register it fails and is closed, the
    lookup after that attempt finds connection 1, and an isolation command
    is written to it. *)
Lemma registered_agent_outlives_its_node_record :
  let deleted := nodes.DeleteNode (db_nodes sample.w1) (db_groups sample.w1) 1 in
  let w := set_db_groups (λ _, deleted.2)
             (set_db_nodes (λ _, deleted.1) sample.w1) in
  let w' := handler.HandleAgentConnection w (Some 5%Z) "h1" (Some 2%nat) Second in
  reachable w
  ∧ remediation.rows (db_commands sample.w1) = []
  ∧ deleted = ([sample.node 2 "h2"], [(2, 7)]%Z)
  ∧ nodes.GetNodeByHostname (db_nodes w) "h1" = None
  ∧ lookup_agent w "h1"
    = Some (0%nat, {| NodeID := 1; Hostname := "h1"; Conn := 1%nat;
                      Connected := 0; LastActivity := 0 |})
  ∧ (1%nat ∉ closed w)
  ∧ RegisterConnection w "h1" 2%nat Second
    = (Some "node not found: sql: no rows in result set", w)
  ∧ closed w' = closed w ∪ {[2%nat]}
  ∧ lookup_agent w' "h1" = lookup_agent w "h1"
  ∧ (∃ w'', SendIsolationCommand w' "h1" "contain" (2 * Second) = Some (None, w'')
            ∧ wire w''
              = [(1%nat, TextMessage
                           (isolation_command "h1" "contain" (2 * Second)))]).
Proof.
  cbv zeta. split_and!.
  - apply (reach_step _ sample.w1); [apply reachable_w1| |done].
    apply step_inventory.
  - reflexivity.
  - reflexivity.
  - reflexivity.
  - reflexivity.
  - apply (bool_decide_unpack _). by vm_compute.
  - reflexivity.
  - reflexivity.
  - reflexivity.
  - eexists. split; reflexivity.
Qed.

(** ** Liveness: [checkConnections] *)

Lemma GetNodeByHostname_Some tbl h node :
  nodes.GetNodeByHostname tbl h = Some node →
  node ∈ tbl ∧ nodes.Hostname node = h.
Proof.
  intros Hf. apply find_some in Hf as [Hin Hb].
  apply list_elem_of_In in Hin. by apply bool_decide_eq_true in Hb.
Qed.

Lemma update_row_hit node now r :
  nodes.ID r = nodes.ID node →
  nodes.Hostname (nodes.update_row node now r) = nodes.Hostname node
  ∧ nodes.Status (nodes.update_row node now r) = nodes.Status node.
Proof. intros Hid. unfold nodes.update_row. by rewrite bool_decide_eq_true_2. Qed.

Lemma update_row_miss node now r :
  nodes.ID r ≠ nodes.ID node → nodes.update_row node now r = r.
Proof. intros Hid. unfold nodes.update_row. by rewrite bool_decide_eq_false_2. Qed.

Lemma UpdateNode_sets_status tbl h node st now :
  nodes.GetNodeByHostname tbl h = Some node →
  ∃ tbl', nodes.UpdateNode tbl (nodes.set_Status st node) now = Some tbl'
          ∧ ∃ n', nodes.GetNodeByHostname tbl' h = Some n'
                  ∧ nodes.Status n' = st.
Proof.
  intros Hf. pose proof (GetNodeByHostname_Some _ _ _ Hf) as [Hin Hh].
  unfold nodes.UpdateNode. rewrite bool_decide_eq_true_2.
  2:{ apply Exists_exists. by exists node. }
  eexists. split; [done|].
  clear Hin. unfold nodes.GetNodeByHostname in *.
  induction tbl as [|r rest IH]; [done|].
  rewrite fmap_cons. cbn [List.find] in *.
  destruct (decide (nodes.ID r = nodes.ID (nodes.set_Status st node)))
    as [Hid|Hid].
  - destruct (update_row_hit (nodes.set_Status st node) now r Hid) as [Hh' Hs'].
    rewrite bool_decide_eq_true_2 by (by rewrite Hh').
    eexists. split; [done|]. by rewrite Hs'.
  - rewrite update_row_miss by done.
    case_bool_decide; [|by apply IH].
    exfalso. apply Hid. by simplify_eq.
Qed.

Lemma write_ok_ext w1 w2 c :
  closed w1 = closed w2 → broken w1 = broken w2 → write_ok w1 c = write_ok w2 c.
Proof. unfold write_ok. by intros -> ->. Qed.

Lemma spawned_by_check_ext now w1 w2 e :
  heap w1 = heap w2 → closed w1 = closed w2 → broken w1 = broken w2 →
  spawned_by_check now w1 e = spawned_by_check now w2 e.
Proof.
  intros Hh Hc Hb. unfold spawned_by_check. rewrite Hh.
  destruct (heap w2 !! e.2) as [a|]; [|done].
  by rewrite (write_ok_ext w1 w2).
Qed.

Lemma ping_or_unregister_goroutines w h a :
  goroutines (ping_or_unregister w h a)
  = goroutines w ++ (if write_ok w (Conn a) then [] else [GoUnregister h]).
Proof.
  unfold ping_or_unregister, write_frame.
  destruct (write_ok w (Conn a)); simpl; [by rewrite app_nil_r|done].
Qed.

Lemma write_ok_ping_or_unregister w h a c :
  write_ok (ping_or_unregister w h a) c = write_ok w c.
Proof.
  pose proof (ping_or_unregister_frame w h a) as Hfr. simpl in Hfr.
  destruct_and!. by apply write_ok_ext.
Qed.

Lemma check_one_goroutines now w e :
  goroutines (check_one now w e) = goroutines w ++ spawned_by_check now w e.
Proof.
  unfold check_one, spawned_by_check.
  destruct (heap w !! e.2) as [a|]; [|by rewrite app_nil_r].
  destruct (decide (now - LastActivity a > 2 * Minute)%Z);
    destruct (decide (now - LastActivity a > 30 * Second)%Z);
    rewrite ?ping_or_unregister_goroutines, ?write_ok_ping_or_unregister;
    destruct (write_ok w (Conn a)); simpl;
    by rewrite ?app_nil_r, <- ?app_assoc.
Qed.

Lemma foldl_check_one_goroutines now l w w0 :
  heap w = heap w0 → closed w = closed w0 → broken w = broken w0 →
  goroutines (foldl (check_one now) w l)
  = goroutines w ++ (l ≫= spawned_by_check now w0).
Proof.
  revert w. induction l as [|e l IH]; intros w Hh Hc Hb; simpl.
  - by rewrite app_nil_r.
  - pose proof (check_one_frame now w e) as H. simpl in H. destruct_and!.
    rewrite IH by congruence.
    rewrite check_one_goroutines, <- app_assoc.
    by rewrite (spawned_by_check_ext now w w0).
Qed.

Lemma checkConnections_goroutines w now :
  goroutines (checkConnections w now)
  = goroutines w ++ (map_to_list (connections w) ≫= spawned_by_check now w).
Proof. unfold checkConnections. by apply foldl_check_one_goroutines. Qed.

Lemma elem_of_spawned_by_check now w e t :
  t ∈ spawned_by_check now w e ↔
  ∃ a, t = GoUnregister e.1 ∧ heap w !! e.2 = Some a
       ∧ (now - LastActivity a > 30 * Second)%Z
       ∧ write_ok w (Conn a) = false.
Proof.
  unfold spawned_by_check. destruct (heap w !! e.2) as [a|].
  - destruct (write_ok w (Conn a)) eqn:Hok.
    + split; [by intros ?%elem_of_nil|].
      intros (? & _ & [= <-] & _ & ?). congruence.
    + rewrite elem_of_app. split.
      * intros [Ht|Ht]; case_decide; try (by apply elem_of_nil in Ht);
          apply list_elem_of_singleton in Ht as ->; exists a;
          split_and!; try done; unfold Minute, Second in *; lia.
      * intros (? & -> & [= <-] & Hidle & _). right.
        rewrite decide_True by done. by apply list_elem_of_singleton.
  - split; [by intros ?%elem_of_nil|]. by intros (? & _ & ? & _).
Qed.

Lemma ping_or_unregister_wire w h a :
  wire (ping_or_unregister w h a)
  = wire w ++ (if write_ok w (Conn a) then [(Conn a, PingMessage)] else []).
Proof.
  unfold ping_or_unregister, write_frame.
  destruct (write_ok w (Conn a)); simpl; [done|by rewrite app_nil_r].
Qed.

Lemma check_one_wire now w e :
  wire (check_one now w e) = wire w ++ pings_by_check now w e.
Proof.
  unfold check_one, pings_by_check.
  destruct (heap w !! e.2) as [a|]; [|by rewrite app_nil_r].
  destruct (decide (now - LastActivity a > 2 * Minute)%Z);
    destruct (decide (now - LastActivity a > 30 * Second)%Z);
    rewrite ?ping_or_unregister_wire, ?write_ok_ping_or_unregister;
    destruct (write_ok w (Conn a)); simpl;
    by rewrite ?app_nil_r, <- ?app_assoc.
Qed.

Lemma pings_by_check_ext now w1 w2 e :
  heap w1 = heap w2 → closed w1 = closed w2 → broken w1 = broken w2 →
  pings_by_check now w1 e = pings_by_check now w2 e.
Proof.
  intros Hh Hc Hb. unfold pings_by_check. rewrite Hh.
  destruct (heap w2 !! e.2) as [a|]; [|done].
  by rewrite (write_ok_ext w1 w2).
Qed.

Lemma foldl_check_one_wire now l w w0 :
  heap w = heap w0 → closed w = closed w0 → broken w = broken w0 →
  wire (foldl (check_one now) w l)
  = wire w ++ (l ≫= pings_by_check now w0).
Proof.
  revert w. induction l as [|e l IH]; intros w Hh Hc Hb; simpl.
  - by rewrite app_nil_r.
  - pose proof (check_one_frame now w e) as Hfr. simpl in Hfr. destruct_and!.
    rewrite IH by congruence.
    rewrite check_one_wire, <- app_assoc.
    by rewrite (pings_by_check_ext now w w0).
Qed.

Lemma elem_of_pings_by_check now w e cf :
  cf ∈ pings_by_check now w e ↔
  ∃ a, cf = (Conn a, PingMessage) ∧ heap w !! e.2 = Some a
       ∧ (now - LastActivity a > 30 * Second)%Z
       ∧ write_ok w (Conn a) = true.
Proof.
  unfold pings_by_check. destruct (heap w !! e.2) as [a|].
  - destruct (write_ok w (Conn a)) eqn:Hok.
    + rewrite elem_of_app. split.
      * intros [Ht|Ht]; case_decide; try (by apply elem_of_nil in Ht);
          apply list_elem_of_singleton in Ht as ->; exists a;
          split_and!; try done; unfold Minute, Second in *; lia.
      * intros (? & -> & [= <-] & Hidle & _). right.
        rewrite decide_True by done. by apply list_elem_of_singleton.
    + split; [by intros ?%elem_of_nil|].
      intros (? & _ & [= <-] & _ & ?). congruence.
  - split; [by intros ?%elem_of_nil|]. by intros (? & _ & ? & _).
Qed.

Lemma checkConnections_wire w now :
  wire (checkConnections w now)
  = wire w ++ (map_to_list (connections w) ≫= pings_by_check now w).
Proof. unfold checkConnections. by apply foldl_check_one_wire. Qed.

Lemma elem_of_checkConnections_pings w now cf :
  cf ∈ map_to_list (connections w) ≫= pings_by_check now w ↔
  ∃ h p a, cf = (Conn a, PingMessage)
           ∧ lookup_agent w h = Some (p, a)
           ∧ (now - LastActivity a > 30 * Second)%Z
           ∧ write_ok w (Conn a) = true.
Proof.
  rewrite list_elem_of_bind. split.
  - intros ([h p] & (a & -> & Ha & Hidle & Hok)%elem_of_pings_by_check
            & Hin%elem_of_map_to_list).
    exists h, p, a. split_and!; try done. by apply lookup_agent_Some.
  - intros (h & p & a & -> & [Hc Ha]%lookup_agent_Some & Hidle & Hok).
    exists (h, p). split; [|by apply elem_of_map_to_list].
    apply elem_of_pings_by_check. by exists a.
Qed.

Lemma length_pings_by_check now w h p a :
  lookup_agent w h = Some (p, a) →
  length (pings_by_check now w (h, p))
  = if write_ok w (Conn a)
    then if decide (now - LastActivity a > 2 * Minute)%Z then 2%nat
         else if decide (now - LastActivity a > 30 * Second)%Z then 1%nat
         else 0%nat
    else 0%nat.
Proof.
  intros [_ Ha]%lookup_agent_Some. unfold pings_by_check. simpl. rewrite Ha.
  destruct (write_ok w (Conn a)); [|done].
  repeat case_decide; simpl; try done; unfold Minute, Second in *; lia.
Qed.

(** C6 (as the code has it): the sweep itself removes and closes nothing.
    To every registered connection that has been idle for more than 30
    seconds it writes a ping, and a second one when the connection has been
    idle for more than 2 minutes; it writes nothing else, and nothing to a
    connection active within the last 30 seconds.  It starts
    [unregisterConnection] for a hostname exactly when such a ping write
    fails; a connection whose pings are written successfully stays
    registered however long it has been idle.  Once [unregisterConnection]
    runs for a registered hostname the entry is removed, the connection
    closed and the offline check scheduled 30 seconds later; that check sets
    the node's status to offline when the hostname has not registered
    again, and does nothing when it has. *)
Theorem checkConnections_unregisters_on_failed_ping_only
    (w : World) (now : Time) :
  let w' := checkConnections w now in
  (connections w' = connections w ∧ heap w' = heap w
   ∧ closed w' = closed w ∧ db_nodes w' = db_nodes w)
  ∧ (∃ spawned,
       goroutines w' = goroutines w ++ spawned
       ∧ ∀ t, t ∈ spawned ↔
              ∃ h p a, t = GoUnregister h
                       ∧ lookup_agent w h = Some (p, a)
                       ∧ (now - LastActivity a > 30 * Second)%Z
                       ∧ write_ok w (Conn a) = false)
  ∧ (∃ pings,
       wire w' = wire w ++ pings
       ∧ pings = map_to_list (connections w) ≫= pings_by_check now w
       ∧ ∀ cf, cf ∈ pings ↔
               ∃ h p a, cf = (Conn a, PingMessage)
                        ∧ lookup_agent w h = Some (p, a)
                        ∧ (now - LastActivity a > 30 * Second)%Z
                        ∧ write_ok w (Conn a) = true)
  ∧ (∀ h p a, lookup_agent w h = Some (p, a) →
       length (pings_by_check now w (h, p))
       = if write_ok w (Conn a)
         then if decide (now - LastActivity a > 2 * Minute)%Z then 2%nat
              else if decide (now - LastActivity a > 30 * Second)%Z then 1%nat
              else 0%nat
         else 0%nat)
  ∧ (∀ h p a t,
       lookup_agent w h = Some (p, a) →
       let w1 := unregisterConnection w h t in
       connections w1 !! h = None
       ∧ Conn a ∈ closed w1
       ∧ goroutines w1 = goroutines w ++ [GoOfflineCheck h (t + 30 * Second)%Z])
  ∧ (∀ h t node,
       connections w !! h = None →
       nodes.GetNodeByHostname (db_nodes w) h = Some node →
       ∃ n', nodes.GetNodeByHostname (db_nodes (offline_check w h t)) h = Some n'
             ∧ nodes.Status n' = "offline")
  ∧ (∀ h t, is_Some (connections w !! h) → offline_check w h t = w).
Proof.
  cbv zeta. split_and!.
  - apply checkConnections_frame.
  - apply checkConnections_frame.
  - apply checkConnections_frame.
  - apply checkConnections_frame.
  - eexists. split; [apply checkConnections_goroutines|].
    intros t. rewrite list_elem_of_bind. split.
    + intros ([h p] & (a & -> & Ha & Hidle & Hok)%elem_of_spawned_by_check
              & Hin%elem_of_map_to_list).
      exists h, p, a. split_and!; try done. by apply lookup_agent_Some.
    + intros (h & p & a & -> & [Hc Ha]%lookup_agent_Some & Hidle & Hok).
      exists (h, p). split; [|by apply elem_of_map_to_list].
      apply elem_of_spawned_by_check. by exists a.
  - eexists. split; [apply checkConnections_wire|]. split; [done|].
    apply elem_of_checkConnections_pings.
  - intros h p a Hl. by apply length_pings_by_check.
  - intros h p a t Hl. unfold unregisterConnection. rewrite Hl. simpl.
    split_and!; [by rewrite lookup_delete_eq| |done].
    apply elem_of_union_r. by apply elem_of_singleton.
  - intros h t node Hc Hn. unfold offline_check. rewrite Hc, Hn.
    destruct (UpdateNode_sets_status _ _ _ "offline" t Hn)
      as (tbl' & -> & n' & Hn' & Hst). simpl. by exists n'.
  - intros h t [p Hp]. unfold offline_check. by rewrite Hp.
Qed.

Lemma checkConnections_unregisters_on_failed_ping_only_witness :
  (∃ spawned,
     goroutines (checkConnections
                   (set_broken (λ _, {[1%nat]}) sample.w1) Minute) = spawned
     ∧ GoUnregister "h1" ∈ spawned)
  ∧ connections (unregisterConnection sample.w1 "h1" Minute) !! "h1" = None
  ∧ (∃ n', nodes.GetNodeByHostname
             (db_nodes (offline_check sample.w0 "h1" Minute)) "h1" = Some n'
           ∧ nodes.Status n' = "offline")
  ∧ length (pings_by_check (3 * Minute) sample.w1 ("h1", 0%nat)) = 2%nat
  ∧ length (pings_by_check Minute sample.w1 ("h1", 0%nat)) = 1%nat
  ∧ length (pings_by_check (30 * Second) sample.w1 ("h1", 0%nat)) = 0%nat.
Proof.
  split_and!.
  - destruct (checkConnections_unregisters_on_failed_ping_only
                (set_broken (λ _, {[1%nat]}) sample.w1) Minute)
      as (_ & (spawned & Hg & Hin) & _).
    eexists. split; [reflexivity|]. rewrite Hg. apply elem_of_app. right.
    apply Hin. do 3 eexists. split_and!; [reflexivity|reflexivity|done|reflexivity].
  - destruct (checkConnections_unregisters_on_failed_ping_only sample.w1 0)
      as (_ & _ & _ & _ & Hun & _).
    by destruct (Hun "h1" _ _ Minute eq_refl) as (Hc & _).
  - destruct (checkConnections_unregisters_on_failed_ping_only sample.w0 0)
      as (_ & _ & _ & _ & _ & Hoff & _).
    by apply (Hoff "h1" Minute _ eq_refl eq_refl).
  - destruct (checkConnections_unregisters_on_failed_ping_only sample.w1
                (3 * Minute)) as (_ & _ & _ & Hn & _).
    exact (Hn "h1" 0%nat _ eq_refl).
  - destruct (checkConnections_unregisters_on_failed_ping_only sample.w1
                Minute) as (_ & _ & _ & Hn & _).
    exact (Hn "h1" 0%nat _ eq_refl).
  - destruct (checkConnections_unregisters_on_failed_ping_only sample.w1
                (30 * Second)) as (_ & _ & _ & Hn & _).
    exact (Hn "h1" 0%nat _ eq_refl).
Defined.

(** C6, counterexample: [h1] registered at time 0 on connection 1 and has
    been silent since.  The sweep at 2.5 minutes pings it (twice), no pong
    arrives, and the sweep at 3 minutes pings it again: the writes succeed,
    so no unregister is started and [h1] stays registered with its
    connection open. *)
Lemma idle_connection_with_writable_socket_stays_registered :
  let w' := checkConnections sample.w1 (150 * Second) in
  let w'' := checkConnections w' (3 * Minute) in
  lookup_agent sample.w1 "h1"
  = Some (0%nat, {| NodeID := 1; Hostname := "h1"; Conn := 1%nat;
                    Connected := 0; LastActivity := 0 |})
  ∧ (3 * Minute - 0 > 2 * Minute)%Z
  ∧ wire w' = [(1%nat, PingMessage); (1%nat, PingMessage)]
  ∧ goroutines w'' = []
  ∧ lookup_agent w'' "h1" = lookup_agent sample.w1 "h1"
  ∧ 1%nat ∉ closed w''.
Proof.
  split_and!; [reflexivity|done|reflexivity|reflexivity|reflexivity|].
  apply (bool_decide_unpack _). by vm_compute.
Qed.

(** A connection whose peer is gone: the sweep starts the unregister, the
    unregister removes the entry and schedules the offline check, and the
    check sets the node offline. *)
Example broken_connection_goes_offline :
  let w := set_broken (λ _, {[1%nat]}) sample.w1 in
  let wa := checkConnections w Minute in
  let wb := run_task (set_goroutines (delete 0%nat) wa) (GoUnregister "h1")
              (Minute + Second) in
  let wc := run_task (set_goroutines (delete 0%nat) wb)
              (GoOfflineCheck "h1" (Minute + 31 * Second))
              (Minute + 40 * Second) in
  goroutines wa = [GoUnregister "h1"]
  ∧ goroutines wb = [GoOfflineCheck "h1" (Minute + 31 * Second)]
  ∧ lookup_agent wb "h1" = None
  ∧ (nodes.Status <$> nodes.GetNodeByHostname (db_nodes wb) "h1") = Some "online"
  ∧ (nodes.Status <$> nodes.GetNodeByHostname (db_nodes wc) "h1") = Some "offline".
Proof. split_and!; reflexivity. Qed.

(** * Further properties of the modelled code *)

(** ** [command_history]: inserts, polls and sweeps *)

Section store_more.
Import remediation.

Lemma insert_by_time_perm c l : insert_by_time c l ≡ₚ c :: l.
Proof.
  induction l as [|x l IH]; [done|]. simpl.
  destruct (ExecutedAt c <=? ExecutedAt x)%Z; [done|].
  rewrite IH. apply Permutation_swap.
Qed.

Lemma order_by_executed_at_perm l : order_by_executed_at l ≡ₚ l.
Proof.
  induction l as [|x l IH]; [done|].
  unfold order_by_executed_at in *. simpl.
  by rewrite insert_by_time_perm, IH.
Qed.

Lemma insert_by_time_sorted c l :
  StronglySorted by_executed_at l →
  StronglySorted by_executed_at (insert_by_time c l).
Proof.
  induction 1 as [|x l Hs IH Hx]; simpl.
  - repeat constructor.
  - destruct (ExecutedAt c <=? ExecutedAt x)%Z eqn:Hle.
    + apply Z.leb_le in Hle. constructor; [by constructor|].
      constructor; [done|]. eapply Forall_impl; [exact Hx|].
      intros y Hy. unfold by_executed_at in *. lia.
    + apply Z.leb_gt in Hle. constructor; [done|].
      rewrite insert_by_time_perm. constructor; [|done].
      unfold by_executed_at. lia.
Qed.

Lemma order_by_executed_at_sorted l :
  StronglySorted by_executed_at (order_by_executed_at l).
Proof.
  induction l as [|x l IH]; [constructor|].
  unfold order_by_executed_at in *. simpl. by apply insert_by_time_sorted.
Qed.

Lemma find_id_app (l1 l2 : list Command) j :
  List.find (λ c, bool_decide (ID c = j)) (l1 ++ l2)
  = match List.find (λ c, bool_decide (ID c = j)) l1 with
    | Some c => Some c
    | None => List.find (λ c, bool_decide (ID c = j)) l2
    end.
Proof.
  induction l1 as [|c l1 IH]; [done|]. simpl. by case_bool_decide.
Qed.

Lemma store_wf_fresh s c : store_wf s → c ∈ rows s → ID c ≠ next_id s.
Proof.
  unfold store_wf. rewrite Forall_forall. intros Hwf Hin Heq.
  specialize (Hwf c Hin). lia.
Qed.

Lemma GetCommand_fresh s : store_wf s → GetCommand s (next_id s) = None.
Proof.
  intros Hwf. unfold GetCommand.
  destruct (List.find _ (rows s)) as [c|] eqn:Hf; [|done].
  apply find_id_Some in Hf as [Hin Hid]. by destruct (store_wf_fresh s c).
Qed.

End store_more.

(** X1: [ExecuteCommand] rejects a command without node id, user id or
    command type and leaves the store alone.  Whenever it returns without
    error, the command had all three, the caller's struct carries the next
    value of the id sequence, the status pending and the time of the call,
    and the row stored under that id is pending with the command's node,
    user, type and details and without result, whatever status, result or id
    the caller's struct held before; that row is among the pending rows of
    its node, and the row of every other id is as it was. *)
Theorem ExecuteCommand_stores_pending_row
    (s : remediation.Store) (cmd : remediation.Command) (now : Time) :
  store_wf s →
  let rejected := remediation.NodeID cmd = 0%Z ∨ remediation.UserID cmd = 0%Z
                  ∨ remediation.CommandType_ cmd = "" in
  let row := {| remediation.ID := remediation.next_id s;
                remediation.NodeID := remediation.NodeID cmd;
                remediation.UserID := remediation.UserID cmd;
                remediation.CommandType_ := remediation.CommandType_ cmd;
                remediation.CommandDetails := remediation.CommandDetails cmd;
                remediation.Status := remediation.CommandStatusPending;
                remediation.ResultDetails := None;
                remediation.ExecutedAt := now;
                remediation.CompletedAt := None |} in
  (rejected → ∃ e, remediation.ExecuteCommand s cmd now = (Some e, s, cmd))
  ∧ (∀ s' cmd',
       remediation.ExecuteCommand s cmd now = (None, s', cmd') →
       ¬ rejected
       ∧ remediation.ID cmd' = remediation.next_id s
       ∧ remediation.Status cmd' = remediation.CommandStatusPending
       ∧ remediation.ExecutedAt cmd' = now
       ∧ remediation.GetCommand s' (remediation.ID cmd') = Some row
       ∧ row ∈ remediation.GetPendingCommands s' (remediation.NodeID cmd)
       ∧ (∀ j, j ≠ remediation.ID cmd' →
               remediation.GetCommand s' j = remediation.GetCommand s j)
       ∧ store_wf s').
Proof.
  intros Hwf. cbv zeta. split.
  - unfold remediation.ExecuteCommand. intros [?|[?|?]];
      repeat case_bool_decide; try done; by eexists.
  - intros s' cmd'. unfold remediation.ExecuteCommand.
    repeat case_bool_decide; try done. simpl. intros [= <- <-]. simpl.
    split_and!; try done.
    + tauto.
    + unfold remediation.GetCommand. simpl. rewrite find_id_app.
      pose proof (GetCommand_fresh s Hwf) as Hf.
      unfold remediation.GetCommand in Hf. rewrite Hf. simpl.
      by rewrite bool_decide_eq_true_2.
    + unfold remediation.GetPendingCommands. simpl.
      apply elem_of_order_by_executed_at, list_elem_of_filter. split; [done|].
      apply elem_of_app. right. by apply list_elem_of_singleton.
    + intros j Hj. unfold remediation.GetCommand. simpl. rewrite find_id_app.
      destruct (List.find _ (remediation.rows s)); [done|]. simpl.
      by rewrite bool_decide_eq_false_2.
    + unfold store_wf in *. simpl. apply Forall_app. split.
      * eapply Forall_impl; [exact Hwf|]. intros c Hc. simpl in *. lia.
      * apply Forall_singleton. simpl. lia.
Qed.

Lemma ExecuteCommand_stores_pending_row_witness :
  (∃ e, remediation.ExecuteCommand sample.store_done sample.request_no_node 30
        = (Some e, sample.store_done, sample.request_no_node))
  ∧ ∃ s' cmd',
      remediation.ExecuteCommand sample.store_done sample.request 30
      = (None, s', cmd')
      ∧ remediation.ID cmd' = 2%Z
      ∧ is_Some (remediation.GetCommand s' 2).
Proof.
  split.
  - destruct (ExecuteCommand_stores_pending_row sample.store_done
                sample.request_no_node 30 store_wf_store_done) as [Hrej _].
    apply Hrej. by left.
  - destruct (ExecuteCommand_stores_pending_row sample.store_done
                sample.request 30 store_wf_store_done) as [_ Hacc].
    destruct (remediation.ExecuteCommand sample.store_done sample.request 30)
      as [[e s'] cmd'] eqn:He.
    assert (e = None) as -> by (by vm_compute in He; simplify_eq).
    destruct (Hacc s' cmd' eq_refl) as (_ & Hid & _ & _ & Hget & _).
    exists s', cmd'. split; [done|]. split; [exact Hid|].
    rewrite Hid in Hget. eexists. exact Hget.
Defined.

Section join_lemmas.
Import remediation.

Lemma join_no_node (ch : Command) (h : string) (tbl : list nodes.Node) :
  (∀ n, n ∈ tbl → nodes.ID n ≠ NodeID ch) →
  (n ← tbl;
   if bool_decide (NodeID ch = nodes.ID n ∧ nodes.Hostname n = h
                   ∧ Status ch = CommandStatusPending)
   then [ch] else []) = [].
Proof.
  induction tbl as [|n tbl IH]; intros Hno; [done|].
  cbn [mbind list_bind]. rewrite bool_decide_eq_false_2.
  - simpl. apply IH. intros n' Hn'. apply Hno. by right.
  - intros (Hid & _). by apply (Hno n); [left|].
Qed.

Lemma join_one_node (ch : Command) (h : string) (tbl : list nodes.Node) :
  NoDup (nodes.ID <$> tbl) →
  (n ← tbl;
   if bool_decide (NodeID ch = nodes.ID n ∧ nodes.Hostname n = h
                   ∧ Status ch = CommandStatusPending)
   then [ch] else [])
  = if decide (Status ch = CommandStatusPending
               ∧ Exists (λ n, nodes.ID n = NodeID ch ∧ nodes.Hostname n = h) tbl)
    then [ch] else [].
Proof.
  induction tbl as [|n tbl IH]; intros Hnd.
  - simpl. rewrite decide_False; [done|]. intros [_ He]. by inversion He.
  - rewrite fmap_cons in Hnd. apply NoDup_cons in Hnd as [Hn Hnd].
    cbn [mbind list_bind]. case_bool_decide as Hb.
    + destruct Hb as (Hid & Hh & Hp).
      rewrite join_no_node.
      * rewrite decide_True; [done|]. split; [done|]. by left.
      * intros n' Hn' Heq. apply Hn. rewrite <- Hid, <- Heq.
        by apply list_elem_of_fmap_2.
    + simpl. rewrite IH by done. apply decide_ext. split.
      * intros [Hp He]. split; [done|]. by right.
      * intros [Hp He]. split; [done|].
        inversion He as [? ? [Hid Hh]|]; subst; [|done].
        exfalso. apply Hb. by split_and!.
Qed.

Lemma bind_if_filter {A} (P : A → Prop) `{!∀ x, Decision (P x)} (l : list A) :
  (x ← l; if decide (P x) then [x] else []) = filter P l.
Proof.
  induction l as [|x l IH]; [done|].
  cbn [mbind list_bind]. rewrite filter_cons, IH. by case_decide.
Qed.

End join_lemmas.

(** X2: the queries of the two polls select exactly the pending rows of
    the node (for the poll by hostname: of the nodes with that hostname),
    in ascending order of [executed_at]; the poll by node id selects each
    such row once, and so does the poll by hostname when the node ids are
    distinct. *)
Theorem GetPendingCommands_pending_in_time_order
    (s : remediation.Store) (tbl : nodes.Table) (nodeID : Z) (hostname : string) :
  remediation.GetPendingCommands s nodeID
    ≡ₚ filter (λ c, remediation.NodeID c = nodeID
                    ∧ remediation.Status c = remediation.CommandStatusPending)
         (remediation.rows s)
  ∧ StronglySorted by_executed_at (remediation.GetPendingCommands s nodeID)
  ∧ StronglySorted by_executed_at
      (remediation.GetPendingCommandsByHostname s tbl hostname)
  ∧ (∀ c, c ∈ remediation.GetPendingCommandsByHostname s tbl hostname ↔
          c ∈ remediation.rows s
          ∧ remediation.Status c = remediation.CommandStatusPending
          ∧ ∃ n, n ∈ tbl ∧ nodes.ID n = remediation.NodeID c
                 ∧ nodes.Hostname n = hostname)
  ∧ (NoDup (nodes.ID <$> tbl) →
     remediation.GetPendingCommandsByHostname s tbl hostname
       ≡ₚ filter (λ c, remediation.Status c = "pending"
                       ∧ Exists (λ n, nodes.ID n = remediation.NodeID c
                                      ∧ nodes.Hostname n = hostname) tbl)
            (remediation.rows s)).
Proof.
  split_and!.
  - apply order_by_executed_at_perm.
  - apply order_by_executed_at_sorted.
  - apply order_by_executed_at_sorted.
  - intros c. unfold remediation.GetPendingCommandsByHostname.
    rewrite elem_of_order_by_executed_at, list_elem_of_bind. split.
    + intros (ch & Hc & Hch). apply list_elem_of_bind in Hc as (n & Hc & Hn).
      case_bool_decide as Hb; [|by apply elem_of_nil in Hc].
      apply list_elem_of_singleton in Hc as ->.
      destruct Hb as (Hid & Hh & Hp). split_and!; [done..|]. by exists n.
    + intros (Hin & Hp & n & Hn & Hid & Hh). exists c. split; [|done].
      apply list_elem_of_bind. exists n. split; [|done].
      rewrite bool_decide_eq_true_2 by done. by apply list_elem_of_singleton.
  - intros Hnd. unfold remediation.GetPendingCommandsByHostname.
    rewrite order_by_executed_at_perm.
    rewrite <- (bind_if_filter
      (λ c, remediation.Status c = "pending"
            ∧ Exists (λ n, nodes.ID n = remediation.NodeID c
                           ∧ nodes.Hostname n = hostname) tbl)).
    erewrite list_bind_ext; [done| |done].
    intros ch. by apply join_one_node.
Qed.

Lemma GetPendingCommands_pending_in_time_order_witness :
  NoDup (nodes.ID <$> sample.inventory)
  ∧ remediation.GetPendingCommandsByHostname sample.store_pending
      sample.inventory "h1"
    ≡ₚ remediation.rows sample.store_pending.
Proof.
  assert (NoDup (nodes.ID <$> sample.inventory)) as Hnd.
  { apply (bool_decide_unpack _). by vm_compute. }
  split; [exact Hnd|].
  destruct (GetPendingCommands_pending_in_time_order sample.store_pending
              sample.inventory 1 "h1") as (_ & _ & _ & _ & Hp).
  rewrite (Hp Hnd). reflexivity.
Defined.

Section sweep_lemmas.
Import remediation.

Lemma stale_dec d now c : Decision (stale d now c).
Proof. unfold stale. apply _. Qed.

Lemma timeout_row_not_stale d now c :
  ¬ stale d now
      (if bool_decide (Status c = CommandStatusPending ∧ (ExecutedAt c < now - d)%Z)
       then set_result CommandStatusTimeout (ResultDetails c) (Some now) c
       else c).
Proof.
  case_bool_decide as Hs; [|done]. by intros [? _].
Qed.

Lemma length_filter_split {A} (b : A → bool) (l : list A) :
  length l = (length (filter (λ c, b c = true) l)
              + length (filter (λ c, b c = false) l))%nat.
Proof.
  induction l as [|x l IH]; [done|].
  rewrite !filter_cons.
  destruct (b x) eqn:Hb; repeat case_decide; simplify_eq; simpl; lia.
Qed.

Lemma expired_bool t c :
  (bool_decide (terminal_status (Status c))
   && match CompletedAt c with
      | Some d => bool_decide (d < t)%Z
      | None => false
      end) = true ↔ expired t c.
Proof.
  unfold expired. rewrite andb_true_iff, bool_decide_eq_true.
  destruct (CompletedAt c) as [d|].
  - rewrite bool_decide_eq_true. split.
    + intros [? ?]. split; [done|]. by exists d.
    + intros [? (d' & [= <-] & ?)]. done.
  - split; [by intros [_ ?]|]. by intros [_ (? & ? & _)].
Qed.

End sweep_lemmas.

(** X3: for a timeout whose negation is a [time.Duration] (any but the
    least one), [TimeoutStalePendingCommands] reports the number of pending
    rows executed before the time of the call minus the timeout, turns
    exactly those rows into timed-out rows completed at the time of the
    call, keeping their result column, and touches no other row; afterwards
    no row is selected any more, so a second sweep at the same instant
    changes nothing and reports zero. *)
Theorem TimeoutStalePendingCommands_sweeps_stale_rows
    (s : remediation.Store) (timeout : Duration) (now : Time) :
  (- 2 ^ 63 < timeout < 2 ^ 63)%Z →
  let n := (remediation.TimeoutStalePendingCommands s timeout now).1 in
  let s' := (remediation.TimeoutStalePendingCommands s timeout now).2 in
  n = length (filter (stale timeout now) (remediation.rows s))
  ∧ length (remediation.rows s') = length (remediation.rows s)
  ∧ (∀ c, c ∈ remediation.rows s' → ¬ stale timeout now c)
  ∧ (∀ i c, remediation.GetCommand s i = Some c →
       remediation.GetCommand s' i
       = Some (if decide (remediation.Status c = "pending"
                          ∧ (remediation.ExecutedAt c < now - timeout)%Z)
               then {| remediation.ID := remediation.ID c;
                       remediation.NodeID := remediation.NodeID c;
                       remediation.UserID := remediation.UserID c;
                       remediation.CommandType_ := remediation.CommandType_ c;
                       remediation.CommandDetails := remediation.CommandDetails c;
                       remediation.Status := "timeout";
                       remediation.ResultDetails := remediation.ResultDetails c;
                       remediation.ExecutedAt := remediation.ExecutedAt c;
                       remediation.CompletedAt := Some now |}
               else c))
  ∧ remediation.next_id s' = remediation.next_id s
  ∧ remediation.TimeoutStalePendingCommands s' timeout now = (0%nat, s').
Proof.
  intros _. cbv zeta. unfold remediation.TimeoutStalePendingCommands. simpl.
  assert (∀ c, c ∈ ((λ c, if bool_decide
        (remediation.Status c = remediation.CommandStatusPending
         ∧ (remediation.ExecutedAt c < now - timeout)%Z)
      then remediation.set_result remediation.CommandStatusTimeout
             (remediation.ResultDetails c) (Some now) c
      else c) <$> remediation.rows s) → ¬ stale timeout now c) as Hnone.
  { intros c' (c & -> & _)%list_elem_of_fmap. apply timeout_row_not_stale. }
  split_and!.
  - done.
  - by rewrite length_fmap.
  - done.
  - intros i c Hc. unfold remediation.GetCommand in *. simpl.
    rewrite find_id_fmap by (intros; by case_bool_decide).
    rewrite Hc. simpl. f_equal.
    case_bool_decide; [by rewrite decide_True|by rewrite decide_False].
  - done.
  - f_equal.
    + induction (fmap _ (remediation.rows s)) as [|c l IH]; [done|].
      rewrite filter_cons, decide_False; [|apply Hnone; by left].
      apply IH. intros c' Hc'. apply Hnone. by right.
    + f_equal. rewrite <- list_fmap_compose.
      apply list_fmap_ext. intros _ c _. simpl.
      rewrite (bool_decide_eq_false_2 _ (timeout_row_not_stale timeout now c)).
      done.
Qed.

Lemma TimeoutStalePendingCommands_sweeps_stale_rows_witness :
  (- 2 ^ 63 < 60 * Second < 2 ^ 63)%Z
  ∧ (remediation.TimeoutStalePendingCommands sample.store_pending
       (60 * Second) (100 * Second)).1 = 1%nat
  ∧ (∀ c, c ∈ remediation.rows
                (remediation.TimeoutStalePendingCommands sample.store_pending
                   (60 * Second) (100 * Second)).2 →
          ¬ stale (60 * Second) (100 * Second) c)
  ∧ remediation.GetCommand
      (remediation.TimeoutStalePendingCommands sample.store_pending
         (60 * Second) (100 * Second)).2 1
    = Some {| remediation.ID := 1; remediation.NodeID := 1;
              remediation.UserID := 9;
              remediation.CommandType_ := "kill-process";
              remediation.CommandDetails := "{}";
              remediation.Status := "timeout";
              remediation.ResultDetails := None;
              remediation.ExecutedAt := 5;
              remediation.CompletedAt := Some (100 * Second)%Z |}.
Proof.
  assert (- 2 ^ 63 < 60 * Second < 2 ^ 63)%Z as Hd by (by vm_compute).
  split; [exact Hd|].
  destruct (TimeoutStalePendingCommands_sweeps_stale_rows sample.store_pending
              (60 * Second) (100 * Second) Hd) as (Hn & _ & Hnone & Hrow & _).
  split; [rewrite Hn; reflexivity|]. split; [exact Hnone|].
  exact (Hrow 1%Z _ eq_refl).
Defined.

(** X4: [CleanupOldCommands] reports the number of rows it deletes, deletes
    exactly the rows in a terminal status completed before the given time,
    keeps the others in their order, and never deletes a pending row: what
    the query for the pending commands of a node selects is the same before
    and after; the id sequence is not touched. *)
Theorem CleanupOldCommands_deletes_expired_rows_only
    (s : remediation.Store) (olderThan : Time) :
  let n := (remediation.CleanupOldCommands s olderThan).1 in
  let s' := (remediation.CleanupOldCommands s olderThan).2 in
  length (remediation.rows s) = (n + length (remediation.rows s'))%nat
  ∧ (∀ c, c ∈ remediation.rows s' ↔
          c ∈ remediation.rows s ∧ ¬ expired olderThan c)
  ∧ remediation.rows s' `sublist_of` remediation.rows s
  ∧ (∀ nodeID, remediation.GetPendingCommands s' nodeID
               = remediation.GetPendingCommands s nodeID)
  ∧ remediation.next_id s' = remediation.next_id s.
Proof.
  cbv zeta. unfold remediation.CleanupOldCommands. simpl. split_and!.
  - apply length_filter_split.
  - intros c. rewrite list_elem_of_filter, <- expired_bool.
    destruct (_ && _); split; intros [? ?]; split; done.
  - apply sublist_filter.
  - intros nodeID. unfold remediation.GetPendingCommands. simpl. f_equal.
    rewrite list_filter_filter. apply list_filter_iff. intros c. split.
    + by intros [? _].
    + intros [Hn Hp]. split; [done|].
      apply not_true_iff_false. rewrite expired_bool.
      intros [[Ht|[Ht|[Ht|Ht]]] _]; by rewrite Hp in Ht.
  - done.
Qed.

Section ids_lemmas.
Import remediation.

Lemma ids_unique_fmap s (g : Command → Command) :
  (∀ c, ID (g c) = ID c) →
  ids_unique s → ids_unique {| rows := g <$> rows s; next_id := next_id s |}.
Proof.
  intros Hid [Hwf Hnd]. unfold ids_unique, store_wf in *. simpl. split.
  - apply Forall_fmap. eapply Forall_impl; [exact Hwf|].
    intros c Hc. simpl. by rewrite Hid.
  - rewrite <- list_fmap_compose.
    rewrite (list_fmap_ext (ID ∘ g) ID (rows s)); [done|].
    intros _ c _. apply Hid.
Qed.

Lemma ids_unique_filter s (P : Command → Prop) `{!∀ c, Decision (P c)} :
  ids_unique s → ids_unique {| rows := filter P (rows s); next_id := next_id s |}.
Proof.
  intros [Hwf Hnd]. unfold ids_unique, store_wf in *. simpl. split.
  - rewrite Forall_forall in *.
    intros c [_ Hin]%list_elem_of_filter. by apply Hwf.
  - eapply sublist_NoDup; [exact Hnd|].
    apply fmap_sublist, sublist_filter.
Qed.

Lemma ids_unique_insert_row s n u ty d st t :
  ids_unique s → ids_unique (insert_row s n u ty d st t).1.
Proof.
  intros [Hwf Hnd]. unfold ids_unique, store_wf, insert_row in *. simpl. split.
  - apply Forall_app. split.
    + eapply Forall_impl; [exact Hwf|]. intros c Hc. simpl in *. lia.
    + apply Forall_singleton. simpl. lia.
  - rewrite fmap_app. apply NoDup_app. split_and!; [done| |apply NoDup_singleton].
    intros i (c & -> & Hin)%list_elem_of_fmap Hi.
    apply list_elem_of_singleton in Hi. simpl in Hi.
    rewrite Forall_forall in Hwf. specialize (Hwf c Hin). simpl in Hwf. lia.
Qed.

Lemma ids_unique_apply_op s op : ids_unique s → ids_unique (apply_op s op).
Proof.
  intros Hu. destruct op as [cmd now|j r now|j now|t|d now|n u a now]; simpl.
  - unfold ExecuteCommand. repeat case_bool_decide; try done.
    simpl. by apply (ids_unique_insert_row s).
  - unfold update_where_id. apply ids_unique_fmap; [|done].
    intros c. by case_bool_decide.
  - unfold CancelCommand. destruct (get_status s j) as [st|]; [|done].
    case_bool_decide; [done|]. simpl.
    unfold update_where_id. apply ids_unique_fmap; [|done].
    intros c. by case_bool_decide.
  - by apply ids_unique_filter.
  - apply ids_unique_fmap; [|done]. intros c. by case_bool_decide.
  - by apply (ids_unique_insert_row s).
Qed.

Lemma ids_unique_apply_ops s ops : ids_unique s → ids_unique (apply_ops s ops).
Proof.
  revert s. induction ops as [|op ops IH]; intros s Hu; [done|].
  apply IH. by apply ids_unique_apply_op.
Qed.

Lemma GetCommand_of_row (l : list Command) c :
  NoDup (ID <$> l) → c ∈ l →
  List.find (λ c', bool_decide (ID c' = ID c)) l = Some c.
Proof.
  induction l as [|x l IH]; intros Hnd Hin; [by apply elem_of_nil in Hin|].
  rewrite fmap_cons in Hnd. apply NoDup_cons in Hnd as [Hx Hnd].
  simpl. apply elem_of_cons in Hin as [->|Hin].
  - by rewrite bool_decide_eq_true_2.
  - rewrite bool_decide_eq_false_2; [by apply IH|].
    intros Heq. apply Hx. rewrite Heq. by apply list_elem_of_fmap_2.
Qed.

End ids_lemmas.

(** In every store reached from the empty one by the operations on
    [command_history], the command ids are pairwise distinct and below the
    next value of the sequence, so every stored row is the one [GetCommand]
    returns for its id. *)
Lemma command_ids_are_unique (ops : list StoreOp) :
  let s := apply_ops remediation.empty ops in
  ids_unique s
  ∧ ∀ c, c ∈ remediation.rows s →
         remediation.GetCommand s (remediation.ID c) = Some c.
Proof.
  cbv zeta.
  assert (ids_unique (apply_ops remediation.empty ops)) as Hu.
  { apply ids_unique_apply_ops. split; [constructor|]. simpl. constructor. }
  split; [done|]. intros c Hin. destruct Hu as [_ Hnd].
  by apply GetCommand_of_row.
Qed.

Lemma retired_apply_event i s e : retired i s → retired i (apply_event s e).
Proof.
  destruct e as [op|used]; [apply retired_apply_op|].
  intros (Hwf & Hlt & Hnp). unfold retired, store_wf in *. simpl.
  split_and!; [|destruct used; lia|done].
  eapply Forall_impl; [exact Hwf|]. intros c Hc. simpl in *.
  destruct used; lia.
Qed.

Lemma retired_apply_events i s es : retired i s → retired i (apply_events s es).
Proof.
  revert s. induction es as [|e es IH]; intros s Hr; [done|].
  apply IH. by apply retired_apply_event.
Qed.

(** X5: no statement on [command_history] sets an existing row to pending
    or gives out an id a second time: a command id that has been issued and
    is not pending (completed, failed, timed out, canceled or deleted) is
    never pending again and is never among the rows a later poll for pending
    commands selects, whatever statements are carried out or refused in
    between. *)
Theorem pending_status_is_never_reentered
    (s : remediation.Store) (commandID : Z) (es : list StoreEvent) :
  store_wf s →
  (commandID < remediation.next_id s)%Z →
  ¬ is_pending s commandID →
  ¬ is_pending (apply_events s es) commandID
  ∧ (∀ nodeID c, c ∈ remediation.GetPendingCommands (apply_events s es) nodeID →
                 remediation.ID c ≠ commandID)
  ∧ (∀ tbl h c,
       c ∈ remediation.GetPendingCommandsByHostname (apply_events s es) tbl h →
       remediation.ID c ≠ commandID).
Proof.
  intros Hwf Hlt Hnp.
  assert (retired commandID (apply_events s es)) as Hr.
  { apply retired_apply_events. split_and!; [done..|].
    intros c Hin Hid Hp. apply Hnp. by exists c. }
  split_and!.
  - by apply retired_not_pending.
  - intros nodeID c [Hin Hp]%GetPendingCommands_pending Hi.
    apply (retired_not_pending _ _ Hr). by exists c.
  - intros tbl h c [Hin Hp]%GetPendingCommandsByHostname_pending Hi.
    apply (retired_not_pending _ _ Hr). by exists c.
Qed.

Lemma pending_status_is_never_reentered_witness :
  ¬ is_pending
      (apply_events sample.store_done
         [Carried (OpTimeout 0 100); InsertRefused true;
          Carried (OpExecute sample.request 200); Carried (OpCancel 1 300)]) 1.
Proof.
  apply (pending_status_is_never_reentered sample.store_done 1
           [Carried (OpTimeout 0 100); InsertRefused true;
            Carried (OpExecute sample.request 200); Carried (OpCancel 1 300)]
           store_wf_store_done).
  - done.
  - intros (c & Hin & Hid & Hp). simpl in Hin.
    apply list_elem_of_singleton in Hin as ->. done.
Defined.

(** ** The service: queue bound, read loops, frames on the wire *)

Lemma unregisterConnection_frame w h now :
  let w' := unregisterConnection w h now in
  heap w' = heap w ∧ commandChan w' = commandChan w
  ∧ listeners w' = listeners w ∧ db_nodes w' = db_nodes w
  ∧ db_groups w' = db_groups w ∧ db_commands w' = db_commands w
  ∧ broken w' = broken w ∧ wire w' = wire w
  ∧ closed w ⊆ closed w'.
Proof.
  unfold unregisterConnection.
  destruct (lookup_agent w h) as [[p a]|]; simpl; split_and!; try done.
  apply union_subseteq_l.
Qed.

Lemma offline_check_frame w h now :
  let w' := offline_check w h now in
  connections w' = connections w ∧ heap w' = heap w
  ∧ commandChan w' = commandChan w ∧ listeners w' = listeners w
  ∧ goroutines w' = goroutines w ∧ db_groups w' = db_groups w
  ∧ db_commands w' = db_commands w
  ∧ closed w' = closed w ∧ broken w' = broken w ∧ wire w' = wire w.
Proof.
  unfold offline_check.
  destruct (connections w !! h); [by repeat split|].
  destruct (nodes.GetNodeByHostname (db_nodes w) h); [|by repeat split].
  destruct (nodes.UpdateNode _ _ _); by repeat split.
Qed.

Lemma listen_message_eq w p message now :
  listen_message w p message now = listen_pong w p now.
Proof.
  unfold listen_message, listen_pong, processAgentMessage, handleCommandResponse.
  destruct (heap _ !! p); [|done].
  destruct message; [by case_bool_decide|done].
Qed.

Lemma HandleAgentConnection_cases w k h up now :
  let w' := handler.HandleAgentConnection w k h up now in
  w' = w
  ∨ (∃ conn, w' = set_closed (λ c, c ∪ {[conn]}) w)
  ∨ (∃ conn node, up = Some conn
       ∧ nodes.GetNodeByHostname (db_nodes w) h = Some node
       ∧ w' = (RegisterConnection w h conn now).2).
Proof.
  unfold handler.HandleAgentConnection.
  destruct k; [|by left]. case_bool_decide; [by left|].
  destruct up as [conn|]; [|by left].
  destruct (nodes.GetNodeByHostname (db_nodes w) h) as [node|] eqn:Hn.
  - right. right. exists conn, node. split_and!; [done..|].
    pose proof (RegisterConnection_known w h conn now node Hn) as (He & _).
    destruct (RegisterConnection w h conn now) as [[e|] w']; simpl in *; done.
  - right. left. exists conn.
    by rewrite (RegisterConnection_unknown _ _ _ _ Hn).
Qed.

Lemma step_commandChan w w' :
  step w w' →
  commandChan w' = commandChan w
  ∨ (∃ cmd, commandChan w = cmd :: commandChan w')
  ∨ (∃ cmd, length (commandChan w) < commandChan_cap
            ∧ commandChan w' = commandChan w ++ [cmd]).
Proof.
  intros Hs. destruct Hs.
  - destruct (HandleAgentConnection_cases w apiKeyID hostname upgraded now)
      as [->|[[conn ->]|(conn & node & -> & Hn & ->)]]; [by left..|].
    left. by pose proof (RegisterConnection_known w hostname conn now node Hn)
      as (_&_&_&_&_&_&_&?&_).
  - unfold SendCommand, chan_send in *.
    repeat case_bool_decide; simplify_eq/=; try by left.
    case_decide; simplify_eq/=. right. right. by eexists.
  - unfold SendIsolationCommand, chan_send in *.
    destruct (lookup_agent w hostname) as [[p a]|].
    + pose proof (sendCommandToAgent_frame w a
        (isolation_command hostname reason now)) as (_&_&?&_).
      simplify_eq/=. destruct (sendCommandToAgent _ _ _). simplify_eq/=.
      by left.
    + case_decide; simplify_eq/=. right. right. by eexists.
  - match goal with H : commandDispatcher_step _ = _ |- _ =>
      apply commandDispatcher_step_frame in H as (?&_) end.
    right. left. by eexists.
  - by left.
  - rewrite listen_message_eq. by left.
  - left. unfold listen_exit. simpl. destruct (heap w !! p); [|done].
    by pose proof (unregisterConnection_frame
         (set_listeners (λ l, l ∖ {[p]}) w) (Hostname a) now) as (_&?&_).
  - left. by pose proof (checkConnections_frame w now) as (_&_&?&_).
  - left. destruct t as [h|h wake]; simpl.
    + by pose proof (unregisterConnection_frame
           (set_goroutines (delete i) w) h now) as (_&?&_).
    + by pose proof (offline_check_frame
           (set_goroutines (delete i) w) h now) as (_&_&?&_).
  - by left.
  - by left.
  - by left.
Qed.

Lemma reachable_commandChan_bound w :
  reachable w → (length (commandChan w) ≤ commandChan_cap)%nat.
Proof.
  induction 1 as [tbl groups cmds _|w w' _ IH Hs _].
  - simpl. unfold commandChan_cap. lia.
  - destruct (step_commandChan _ _ Hs) as [->|[[cmd Hq]|(cmd & Hlt & ->)]].
    + done.
    + rewrite Hq in IH. simpl in IH. lia.
    + rewrite length_app. simpl. lia.
Qed.

(** X6: in every reachable world the command channel holds at most 1000
    commands, and a sender is held up exactly when it holds 1000:
    [SendCommand] then does not return for a command that passes its
    validation, and [SendIsolationCommand] does not return for an agent
    without registered connection; an invalid command is rejected and an
    isolation command for a registered agent is written whatever the
    channel holds. *)
Theorem commandChan_full_blocks_senders (w : World) :
  reachable w →
  (length (commandChan w) ≤ commandChan_cap)%nat
  ∧ (∀ cmd, SendCommand w cmd = None ↔
            ¬ fails_validation cmd ∧ length (commandChan w) = commandChan_cap)
  ∧ (∀ h reason now,
       SendIsolationCommand w h reason now = None ↔
       lookup_agent w h = None ∧ length (commandChan w) = commandChan_cap).
Proof.
  intros Hb%reachable_commandChan_bound. split; [done|]. split.
  - intros cmd. unfold SendCommand, chan_send, fails_validation.
    repeat case_bool_decide; try (split; [done|tauto]).
    case_decide; simpl.
    + split; [done|]. intros [_ ?]. lia.
    + split; [|done]. intros _. split; [tauto|lia].
  - intros h reason now. unfold SendIsolationCommand, chan_send.
    destruct (lookup_agent w h) as [[p a]|].
    + split; [done|]. by intros [? _].
    + case_decide; simpl.
      * split; [done|]. intros [_ ?]. lia.
      * split; [|done]. intros _. split; [done|lia].
Qed.

Lemma commandChan_full_blocks_senders_witness :
  (length (commandChan sample.w2) ≤ commandChan_cap)%nat
  ∧ SendCommand sample.w2 sample.cmd_normal ≠ None.
Proof.
  destruct (commandChan_full_blocks_senders sample.w2 reachable_w2)
    as (Hb & Hsend & _).
  split; [exact Hb|]. intros [_ Hfull]%Hsend. by vm_compute in Hfull.
Defined.

Lemma SendCommand_frame w cmd e w' :
  SendCommand w cmd = Some (e, w') →
  connections w' = connections w ∧ heap w' = heap w
  ∧ listeners w' = listeners w ∧ goroutines w' = goroutines w
  ∧ closed w' = closed w ∧ broken w' = broken w ∧ wire w' = wire w.
Proof.
  unfold SendCommand, chan_send.
  repeat case_bool_decide; try (by intros [= _ <-]).
  case_decide; simpl; [|done]. by intros [= _ <-].
Qed.

Lemma sendCommandToAgent_wire w a cmd :
  wire (sendCommandToAgent w a cmd).2
  = wire w ++ (if write_ok w (Conn a) then [(Conn a, TextMessage cmd)] else [])
  ∧ ((sendCommandToAgent w a cmd).1 = None ↔ write_ok w (Conn a) = true).
Proof.
  unfold sendCommandToAgent, write_frame.
  destruct (write_ok w (Conn a)); simpl; [done|].
  by rewrite app_nil_r.
Qed.

(** X7: the frames [checkConnections] writes are pings only, to the
    registered connections that have been idle for more than 30 seconds and
    accept the write: two pings for a connection idle for more than 2
    minutes, one otherwise, none for a connection active within the last 30
    seconds; frames written earlier stay on the wire. *)
Theorem checkConnections_pings_idle_connections (w : World) (now : Time) :
  wire (checkConnections w now)
  = wire w ++ (map_to_list (connections w) ≫= pings_by_check now w)
  ∧ (∀ cf, cf ∈ map_to_list (connections w) ≫= pings_by_check now w ↔
       ∃ h p a, cf = (Conn a, PingMessage)
                ∧ lookup_agent w h = Some (p, a)
                ∧ (now - LastActivity a > 30 * Second)%Z
                ∧ write_ok w (Conn a) = true)
  ∧ (∀ h p a, lookup_agent w h = Some (p, a) →
       write_ok w (Conn a) = true →
       length (pings_by_check now w (h, p))
       = if decide (now - LastActivity a > 2 * Minute)%Z then 2%nat
         else if decide (now - LastActivity a > 30 * Second)%Z then 1%nat
         else 0%nat).
Proof.
  split_and!.
  - apply checkConnections_wire.
  - apply elem_of_checkConnections_pings.
  - intros h p a [_ Ha]%lookup_agent_Some Hok. unfold pings_by_check.
    simpl. rewrite Ha, Hok.
    repeat case_decide; simpl; try done; unfold Minute, Second in *; lia.
Qed.

Lemma checkConnections_pings_idle_connections_witness :
  length (pings_by_check (3 * Minute) sample.w1 ("h1", 0%nat)) = 2%nat.
Proof.
  destruct (checkConnections_pings_idle_connections sample.w1 (3 * Minute))
    as (_ & _ & Hn).
  exact (Hn "h1" 0%nat _ eq_refl eq_refl).
Defined.

Lemma SendIsolationCommand_frame w h reason now e w' :
  SendIsolationCommand w h reason now = Some (e, w') →
  connections w' = connections w ∧ heap w' = heap w
  ∧ listeners w' = listeners w ∧ goroutines w' = goroutines w
  ∧ closed w' = closed w ∧ broken w' = broken w.
Proof.
  unfold SendIsolationCommand, chan_send.
  destruct (lookup_agent w h) as [[p a]|].
  - pose proof (sendCommandToAgent_frame w a (isolation_command h reason now))
      as Hfr. simpl in Hfr.
    intros [= Hs]. rewrite Hs in Hfr. simpl in Hfr. destruct_and!. done.
  - case_decide; simpl; [|done]. by intros [= _ <-].
Qed.

Lemma registered_listening_step w w' :
  registry_wf w → registered_listening w → step w w' →
  registered_listening w'.
Proof.
  intros Hwf Hl Hs k q. destruct Hs.
  - destruct (HandleAgentConnection_cases w apiKeyID hostname upgraded now)
      as [->|[[conn ->]|(conn & node & -> & Hn & ->)]]; [apply Hl..|].
    pose proof (RegisterConnection_known w hostname conn now node Hn)
      as (_ & -> & _ & -> & _). simpl.
    intros [[-> <-]|[_ Hk]]%lookup_insert_Some.
    + apply elem_of_union_r. by apply elem_of_singleton.
    + apply elem_of_union_l. by eapply Hl.
  - match goal with H : SendCommand _ _ = _ |- _ =>
      apply SendCommand_frame in H as (-> & _ & -> & _) end. apply Hl.
  - match goal with H : SendIsolationCommand _ _ _ _ = _ |- _ =>
      apply SendIsolationCommand_frame in H as (-> & _ & -> & _) end. apply Hl.
  - match goal with H : commandDispatcher_step _ = _ |- _ =>
      apply commandDispatcher_step_frame in H as (_ & -> & _ & -> & _) end.
    apply Hl.
  - apply Hl.
  - rewrite listen_message_eq. apply Hl.
  - unfold listen_exit. simpl.
    destruct (heap w !! p) as [a|] eqn:Ha.
    + unfold unregisterConnection, lookup_agent. simpl.
      destruct (connections w !! Hostname a) as [r|] eqn:Hr; simpl.
      * destruct (heap w !! r) as [b|] eqn:Hb; simpl.
        -- intros [Hne Hk]%lookup_delete_Some.
           apply elem_of_difference. split; [by eapply Hl|].
           intros ->%elem_of_singleton.
           destruct (Hwf _ _ Hk) as (a' & Ha' & Hh). congruence.
        -- destruct (Hwf _ _ Hr) as (? & ? & _). congruence.
      * intros Hk. apply elem_of_difference. split; [by eapply Hl|].
        intros ->%elem_of_singleton.
        destruct (Hwf _ _ Hk) as (a' & Ha' & Hh). congruence.
    + simpl. intros Hk. apply elem_of_difference. split; [by eapply Hl|].
      intros ->%elem_of_singleton.
      destruct (Hwf _ _ Hk) as (a' & Ha' & _). congruence.
  - pose proof (checkConnections_frame w now) as (-> & _ & _ & -> & _).
    apply Hl.
  - destruct t as [h|h wake]; simpl.
    + pose proof (unregisterConnection_frame
                    (set_goroutines (delete i) w) h now) as (_ & _ & -> & _).
      destruct (unregisterConnection_registry
                  (set_goroutines (delete i) w) h now)
        as [Hc _|h' Hc _|? ? Hc _|? ? ? _ _ Hc Hh]; simpl in *.
      * rewrite Hc. apply Hl.
      * rewrite Hc. intros [_ Hk]%lookup_delete_Some. by eapply Hl.
      * rewrite Hc. apply Hl.
      * pose proof (unregisterConnection_frame
                      (set_goroutines (delete i) w) h now) as (Hheap & _).
        simpl in Hheap. rewrite Hheap in Hh.
        exfalso. apply (is_fresh (dom (heap w))).
        apply elem_of_dom. rewrite Hh at 2. by rewrite lookup_insert_eq.
    + pose proof (offline_check_frame
                    (set_goroutines (delete i) w) h now)
        as (-> & _ & _ & -> & _). apply Hl.
  - apply Hl.
  - apply Hl.
  - apply Hl.
Qed.

(** X8: in every reachable world every registered connection object has
    its read loop running: an entry leaves the registry no later than its
    read loop ends. *)
Theorem registered_connection_has_read_loop (w : World) :
  reachable w → registered_listening w.
Proof.
  induction 1 as [tbl groups cmds _|w w' Hr IH Hs _].
  - intros k p. simpl. by rewrite lookup_empty.
  - eapply registered_listening_step; [|done..].
    by apply reachable_registry_wf.
Qed.

Lemma registered_connection_has_read_loop_witness :
  1%nat ∈ listeners sample.w2.
Proof.
  exact (registered_connection_has_read_loop sample.w2 reachable_w2
           "h1" 1%nat eq_refl).
Defined.

Lemma delivered_ext w1 w2 cmd :
  connections w1 = connections w2 → heap w1 = heap w2 →
  closed w1 = closed w2 → broken w1 = broken w2 →
  delivered w1 cmd = delivered w2 cmd.
Proof.
  intros Hc Hh Hcl Hb. unfold delivered, lookup_agent. rewrite Hc, Hh.
  case_bool_decide; [|done].
  destruct (connections w2 !! TargetNode cmd) as [p|]; [|done]. simpl.
  destruct (heap w2 !! p) as [a|]; [|done]. simpl.
  by rewrite (write_ok_ext w1 w2).
Qed.

Lemma commandDispatcher_step_wire w cmd w' :
  commandDispatcher_step w = Some (cmd, w') →
  wire w' = wire w ++ option_list (delivered w cmd).
Proof.
  unfold commandDispatcher_step.
  destruct (commandChan w) as [|c rest] eqn:Hq; [done|].
  intros [= <- <-].
  rewrite (delivered_ext w (set_commandChan (λ _, rest) w)) by done.
  unfold delivered, dispatchToNode, dispatchToGroup.
  case_bool_decide; [|case_bool_decide; simpl; by rewrite app_nil_r].
  destruct (lookup_agent _ (TargetNode c)) as [[p a]|];
    [|simpl; by rewrite app_nil_r].
  destruct (sendCommandToAgent_wire (set_commandChan (λ _, rest) w) a c)
    as [-> _].
  destruct (write_ok _ (Conn a)); simpl; [done|by rewrite app_nil_r].
Qed.

Lemma omap_pointwise {A B} (f g : A → option B) (l : list A) :
  (∀ x, f x = g x) → omap f l = omap g l.
Proof.
  intros Hfg. induction l as [|x l IH]; [done|].
  csimpl. by rewrite Hfg, IH.
Qed.

Lemma delivered_write_ok w cmd cf :
  delivered w cmd = Some cf → write_ok w cf.1 = true.
Proof.
  unfold delivered. case_bool_decide; [|done].
  destruct (lookup_agent w (TargetNode cmd)) as [[p a]|]; [|done].
  destruct (write_ok w (Conn a)) eqn:Hok; [|done]. by intros [= <-].
Qed.

(** X9: running the dispatcher for [n] iterations takes the first [n]
    queued commands in order, leaves the rest queued, and writes, in the
    same order, one text frame for every taken command whose target node has
    a registered connection that accepts the write; commands for absent
    agents, for groups, and commands whose write fails leave no frame. *)
Theorem commandDispatcher_writes_frames_in_queue_order (n : nat) (w : World) :
  let taken := (commandDispatcher n w).1 in
  let w' := (commandDispatcher n w).2 in
  taken = take n (commandChan w)
  ∧ commandChan w' = drop n (commandChan w)
  ∧ wire w' = wire w ++ omap (delivered w) taken
  ∧ connections w' = connections w ∧ closed w' = closed w.
Proof.
  cbv zeta. revert w. induction n as [|n IH]; intros w.
  - simpl. by rewrite app_nil_r.
  - simpl. destruct (commandDispatcher_step w) as [[cmd w1]|] eqn:Hs.
    + pose proof (commandDispatcher_step_wire _ _ _ Hs) as Hw.
      apply commandDispatcher_step_frame in Hs
        as (Hq & Hc & Hh & _ & _ & _ & _ & _ & Hcl & Hb).
      specialize (IH w1). destruct (commandDispatcher n w1) as [taken w2].
      cbn [fst snd] in *. destruct IH as (Ht & Hq2 & Hw2 & Hc2 & Hcl2).
      subst taken. rewrite Hq. cbn [take drop]. split_and!; [done..| |congruence|congruence].
      rewrite Hw2, Hw, <- app_assoc. f_equal.
      rewrite (omap_pointwise (delivered w1) (delivered w))
        by (intros; by apply delivered_ext).
      csimpl. by destruct (delivered w cmd).
    + unfold commandDispatcher_step in Hs. simpl.
      destruct (commandChan w) eqn:Hq; [|done]. simpl. by rewrite app_nil_r.
Qed.

Lemma commandDispatcher_writes_frames_in_queue_order_witness :
  ∃ w, submit_all sample.w1 [sample.cmd_normal; sample.cmd_group;
                             sample.cmd_critical] = Some w
       ∧ wire (commandDispatcher 3 w).2
         = [(1%nat, TextMessage sample.cmd_normal);
            (1%nat, TextMessage sample.cmd_critical)].
Proof.
  eexists. split; [reflexivity|].
  match goal with |- wire (commandDispatcher 3 ?w).2 = _ =>
    destruct (commandDispatcher_writes_frames_in_queue_order 3 w)
      as (_ & _ & -> & _) end.
  reflexivity.
Defined.

Lemma SendIsolationCommand_cases
    (w : World) (h reason : string) (now : Time) :
  let cmd := isolation_command h reason now in
  (∀ p a, lookup_agent w h = Some (p, a) →
     ∃ e w', SendIsolationCommand w h reason now = Some (e, w')
       ∧ commandChan w' = commandChan w
       ∧ (write_ok w (Conn a) = true →
          e = None ∧ wire w' = wire w ++ [(Conn a, TextMessage cmd)])
       ∧ (write_ok w (Conn a) = false → is_Some e ∧ wire w' = wire w))
  ∧ (lookup_agent w h = None → length (commandChan w) < commandChan_cap →
     ∃ w', SendIsolationCommand w h reason now
           = Some (Some "agent not currently connected, command queued", w')
       ∧ commandChan w' = commandChan w ++ [cmd] ∧ wire w' = wire w).
Proof.
  cbv zeta. split.
  - intros p a Hl. unfold SendIsolationCommand. rewrite Hl.
    unfold sendCommandToAgent, write_frame.
    destruct (write_ok w (Conn a)); do 2 eexists;
      (split; [done|]); simpl; split_and!; done.
  - intros Hl Hlen. unfold SendIsolationCommand, chan_send. rewrite Hl.
    rewrite decide_True by done. simpl. by eexists.
Qed.

(** X10: [SendIsolationCommand] for a registered agent writes the command
    to the registered connection and never queues it: it returns [nil] and
    the frame is on the wire when the write succeeds, and returns an error
    with the command neither written nor queued when the write fails; the
    failed write neither closes nor unregisters the connection and starts no
    goroutine.  For an agent without entry the command is appended to the
    channel and the error "agent not currently connected, command queued"
    is returned. *)
Theorem SendIsolationCommand_writes_or_queues
    (w : World) (h reason : string) (now : Time) :
  let cmd := isolation_command h reason now in
  (∀ p a, lookup_agent w h = Some (p, a) →
     ∃ e w', SendIsolationCommand w h reason now = Some (e, w')
       ∧ commandChan w' = commandChan w
       ∧ connections w' = connections w ∧ closed w' = closed w
       ∧ goroutines w' = goroutines w
       ∧ (write_ok w (Conn a) = true →
          e = None ∧ wire w' = wire w ++ [(Conn a, TextMessage cmd)])
       ∧ (write_ok w (Conn a) = false → is_Some e ∧ wire w' = wire w))
  ∧ (lookup_agent w h = None → length (commandChan w) < commandChan_cap →
     ∃ w', SendIsolationCommand w h reason now
           = Some (Some "agent not currently connected, command queued", w')
       ∧ commandChan w' = commandChan w ++ [cmd] ∧ wire w' = wire w
       ∧ connections w' = connections w).
Proof.
  cbv zeta.
  destruct (SendIsolationCommand_cases w h reason now) as [Hlive Hqueue].
  split.
  - intros p a Hl. destruct (Hlive p a Hl) as (e & w' & Hs & Hq & Hok & Hfail).
    destruct (SendIsolationCommand_frame _ _ _ _ _ _ Hs)
      as (Hc & _ & _ & Hg & Hcl & _).
    exists e, w'. by split_and!.
  - intros Hl Hlen. destruct (Hqueue Hl Hlen) as (w' & Hs & Hq & Hw).
    destruct (SendIsolationCommand_frame _ _ _ _ _ _ Hs) as (Hc & _).
    exists w'. by split_and!.
Qed.

Lemma SendIsolationCommand_writes_or_queues_witness :
  (∃ w', SendIsolationCommand sample.w1 "h1" "contain" 7 = Some (None, w')
         ∧ wire w' = [(1%nat, TextMessage (isolation_command "h1" "contain" 7))])
  ∧ ∃ e w', SendIsolationCommand (set_broken (λ _, {[1%nat]}) sample.w1)
              "h1" "contain" 7 = Some (Some e, w')
            ∧ commandChan w' = [] ∧ wire w' = [].
Proof.
  split.
  - destruct (SendIsolationCommand_writes_or_queues sample.w1 "h1" "contain" 7)
      as [Hlive _].
    destruct (Hlive _ _ eq_refl) as (e & w' & Hs & _ & _ & _ & _ & Hok & _).
    destruct (Hok eq_refl) as [-> Hw]. by exists w'.
  - destruct (SendIsolationCommand_writes_or_queues
                (set_broken (λ _, {[1%nat]}) sample.w1) "h1" "contain" 7)
      as [Hlive _].
    destruct (Hlive _ _ eq_refl) as (e & w' & Hs & Hq & _ & _ & _ & _ & Hfail).
    destruct (Hfail eq_refl) as [[e' ->] Hw]. by exists e', w'.
Defined.

Lemma update_row_hit_columns node now r :
  nodes.ID r = nodes.ID node →
  same_columns (nodes.update_row node now r) node
  ∧ nodes.UpdatedAt (nodes.update_row node now r) = now
  ∧ nodes.ID (nodes.update_row node now r) = nodes.ID r
  ∧ nodes.CreatedAt (nodes.update_row node now r) = nodes.CreatedAt r.
Proof.
  intros Hid. unfold nodes.update_row, same_columns.
  rewrite bool_decide_eq_true_2 by done. simpl. by repeat split.
Qed.

Lemma UpdateNode_lookup tbl h node node' now :
  nodes.GetNodeByHostname tbl h = Some node →
  nodes.ID node' = nodes.ID node → nodes.Hostname node' = h →
  ∃ tbl', nodes.UpdateNode tbl node' now = Some tbl'
          ∧ length tbl' = length tbl
          ∧ ∃ n', nodes.GetNodeByHostname tbl' h = Some n'
                  ∧ same_columns n' node' ∧ nodes.UpdatedAt n' = now
                  ∧ nodes.ID n' = nodes.ID node.
Proof.
  intros Hf Hid Hh. pose proof (GetNodeByHostname_Some _ _ _ Hf) as [Hin Hhn].
  unfold nodes.UpdateNode. rewrite bool_decide_eq_true_2.
  2:{ apply Exists_exists. by exists node. }
  eexists. split; [done|]. split; [by rewrite length_fmap|].
  clear Hin. unfold nodes.GetNodeByHostname in *.
  induction tbl as [|r rest IH]; [done|].
  rewrite fmap_cons. cbn [List.find] in *.
  destruct (decide (nodes.ID r = nodes.ID node')) as [Hr|Hr].
  - destruct (update_row_hit_columns node' now r Hr) as (Hcol & Hup & Hi & _).
    rewrite bool_decide_eq_true_2 by (destruct Hcol as [-> _]; done).
    eexists. split_and!; [done..|]. congruence.
  - rewrite update_row_miss by done.
    case_bool_decide; [|by apply IH].
    exfalso. apply Hr. by simplify_eq.
Qed.

Lemma UpdateNode_rows tbl node now tbl' :
  nodes.UpdateNode tbl node now = Some tbl' →
  length tbl' = length tbl
  ∧ (∃ n', n' ∈ tbl' ∧ nodes.ID n' = nodes.ID node)
  ∧ (∀ r, r ∈ tbl' → nodes.ID r = nodes.ID node →
          same_columns r node ∧ nodes.UpdatedAt r = now)
  ∧ (∀ r, r ∈ tbl → nodes.ID r ≠ nodes.ID node → r ∈ tbl').
Proof.
  unfold nodes.UpdateNode, nodes.Table in *.
  case_bool_decide as Hex; [|done]. intros [= <-]. split_and!.
  - by rewrite length_fmap.
  - apply Exists_exists in Hex as (r & Hr & Hid).
    exists (nodes.update_row node now r). split.
    + by apply list_elem_of_fmap_2.
    + by destruct (update_row_hit_columns node now r Hid) as (_ & _ & -> & _).
  - intros r' (r & -> & Hr)%list_elem_of_fmap Hid.
    destruct (decide (nodes.ID r = nodes.ID node)) as [Hr'|Hr'].
    + by destruct (update_row_hit_columns node now r Hr') as (? & ? & _).
    + rewrite update_row_miss in Hid by done. done.
  - intros r Hr Hid. apply list_elem_of_fmap. exists r.
    by rewrite update_row_miss.
Qed.

(** X11: a successful [RegisterConnection] marks the agent's node online:
    afterwards the row with the id of the node found for the hostname has
    status "online", the registration time as last heartbeat, and hostname,
    address and isolation flag as before; the rows of the other ids are as
    they were and no row is added.  A deferred offline check that runs while
    the hostname is registered leaves the world as it is. *)
Theorem RegisterConnection_marks_node_online
    (w : World) (h : string) (conn : ConnId) (now later : Time)
    (node : nodes.Node) :
  nodes.GetNodeByHostname (db_nodes w) h = Some node →
  let w' := (RegisterConnection w h conn now).2 in
  length (db_nodes w') = length (db_nodes w)
  ∧ (∃ n', n' ∈ db_nodes w' ∧ nodes.ID n' = nodes.ID node)
  ∧ (∀ r, r ∈ db_nodes w' → nodes.ID r = nodes.ID node →
          nodes.Status r = "online" ∧ nodes.LastHeartbeat r = now
          ∧ nodes.Hostname r = h
          ∧ nodes.IPAddress r = nodes.IPAddress node
          ∧ nodes.Isolated r = nodes.Isolated node)
  ∧ (∀ r, r ∈ db_nodes w → nodes.ID r ≠ nodes.ID node → r ∈ db_nodes w')
  ∧ offline_check w' h later = w'.
Proof.
  intros Hn. cbv zeta.
  pose proof (GetNodeByHostname_Some _ _ _ Hn) as [_ Hh].
  destruct (UpdateNode_lookup (db_nodes w) h node
              (nodes.set_LastHeartbeat now (nodes.set_Status "online" node)) now
              Hn eq_refl Hh) as (tbl' & Hup & _).
  destruct (UpdateNode_rows _ _ _ _ Hup) as (Hlen & Hex & Hhit & Hmiss).
  unfold RegisterConnection. rewrite Hn. simpl. rewrite Hup. simpl.
  split_and!; [done|done| |done|].
  - intros r Hr Hid. destruct (Hhit r Hr Hid) as [Hcol _].
    destruct Hcol as (?&?&_&_&_&_&_&?&?&?). simpl in *.
    split_and!; congruence.
  - unfold offline_check. simpl. by rewrite lookup_insert_eq.
Qed.

Lemma RegisterConnection_marks_node_online_witness :
  ∃ n', n' ∈ db_nodes (RegisterConnection sample.w0 "h2" 4%nat 50).2
        ∧ nodes.ID n' = 2%Z
        ∧ nodes.Status n' = "online" ∧ nodes.LastHeartbeat n' = 50%Z.
Proof.
  destruct (RegisterConnection_marks_node_online sample.w0 "h2" 4%nat 50 60
              _ eq_refl) as (_ & (n' & Hin & Hid) & Hon & _).
  destruct (Hon n' Hin Hid) as (Hs & Hh & _).
  by exists n'.
Defined.

(** X12: [GetConnectionStats] reports as total the number of hostnames it
    lists; the listed hostnames are pairwise distinct and are exactly the
    registered ones.  Registering a hostname that is already registered
    leaves the total as it is, registering a new one adds one, and
    unregistering a registered one takes one away. *)
Theorem GetConnectionStats_counts_identities (w : World) :
  let stats := GetConnectionStats w in
  stats.1 = length stats.2
  ∧ NoDup stats.2
  ∧ (∀ h, h ∈ stats.2 ↔ is_Some (connections w !! h))
  ∧ (∀ h conn now node,
       nodes.GetNodeByHostname (db_nodes w) h = Some node →
       (GetConnectionStats (RegisterConnection w h conn now).2).1
       = if connections w !! h is Some _ then stats.1 else S stats.1)
  ∧ (∀ h p a now,
       lookup_agent w h = Some (p, a) →
       S (GetConnectionStats (unregisterConnection w h now)).1 = stats.1).
Proof.
  cbv zeta. unfold GetConnectionStats. simpl. split_and!.
  - by rewrite length_fmap, length_map_to_list.
  - apply NoDup_fst_map_to_list.
  - intros h. rewrite list_elem_of_fmap. split.
    + intros ([h' p] & -> & Hin%elem_of_map_to_list). by exists p.
    + intros [p Hp]. exists (h, p). split; [done|].
      by apply elem_of_map_to_list.
  - intros h conn now node Hn.
    pose proof (RegisterConnection_known w h conn now node Hn)
      as (_ & -> & _). simpl.
    destruct (connections w !! h) as [p|] eqn:Hp.
    + by erewrite map_size_insert_Some.
    + by rewrite map_size_insert_None.
  - intros h p a now Hl. unfold unregisterConnection. rewrite Hl. simpl.
    apply lookup_agent_Some in Hl as [Hc _].
    rewrite map_size_delete_Some by (by eexists).
    assert (size (connections w) ≠ 0%nat); [|lia].
    apply map_size_non_empty_iff. intros He. by rewrite He, lookup_empty in Hc.
Qed.

Lemma GetConnectionStats_counts_identities_witness :
  (GetConnectionStats (RegisterConnection sample.w1 "h1" 2%nat Second).2).1 = 1%nat
  ∧ (GetConnectionStats (RegisterConnection sample.w1 "h2" 3%nat Second).2).1 = 2%nat.
Proof.
  destruct (GetConnectionStats_counts_identities sample.w1)
    as (_ & _ & _ & Hreg & _).
  split.
  - exact (Hreg "h1" 2%nat Second _ eq_refl).
  - exact (Hreg "h2" 3%nat Second _ eq_refl).
Defined.

(** ** The inventory: heartbeats, the status sweep, group membership *)

Lemma GetNodeByHostname_None tbl h :
  nodes.GetNodeByHostname tbl h = None ↔ ∀ n, n ∈ tbl → nodes.Hostname n ≠ h.
Proof.
  unfold nodes.GetNodeByHostname. induction tbl as [|r rest IH]; simpl.
  - split; [|done]. by intros _ n ?%elem_of_nil.
  - case_bool_decide as Hr.
    + split; [done|]. intros Hall. destruct (Hall r); [by left|done].
    + rewrite IH. split.
      * intros Hall n [->|?]%elem_of_cons; [done|by apply Hall].
      * intros Hall n Hn. apply Hall. by right.
Qed.

Lemma GetNodeByHostname_app tbl row h :
  nodes.GetNodeByHostname tbl h = None → nodes.Hostname row = h →
  nodes.GetNodeByHostname (tbl ++ [row]) h = Some row.
Proof.
  unfold nodes.GetNodeByHostname. intros Hn Hh.
  induction tbl as [|r rest IH]; simpl in *.
  - by rewrite bool_decide_eq_true_2.
  - case_bool_decide; [done|]. by apply IH.
Qed.

(** X13: [ProcessHeartbeat] is an upsert by hostname.  For a hostname
    without node row, a call that returns a node has added exactly that
    node as one new row: the next id of the sequence, the reported
    hostname, address, OS version, Fibratus version, CPU, memory and disk,
    status "online", not isolated, the time of the call as heartbeat,
    creation and update time; a lookup by hostname finds it.  For a known
    hostname no row is added: the call fails, leaving the inventory as it
    was, whenever another row already has the hostname with the reported
    address; a call that returns a node returns the node found for the
    hostname with the reported address, OS version, Fibratus version, CPU,
    memory and disk, status "online" and the time of the call as heartbeat
    and update time, has written these columns to the row with that id,
    which keeps its hostname and isolation flag, and has left the rows of
    the other ids as they were.  A call that returns no node has changed no
    row. *)
Theorem ProcessHeartbeat_upserts_by_hostname
    (inv : nodes.Inventory) (req : nodes.HeartbeatRequest) (now : Time) :
  let h := nodes.ReqHostname req in
  (nodes.GetNodeByHostname (nodes.table inv) h = None →
   ∀ row inv',
     nodes.ProcessHeartbeat inv req now = (Some row, inv') →
     row = {| nodes.ID := nodes.next_id inv;
              nodes.Hostname := nodes.ReqHostname req;
              nodes.IPAddress := nodes.ReqIPAddress req;
              nodes.OSVersion := nodes.ReqOSVersion req;
              nodes.FibratusVersion := nodes.ReqFibratusVersion req;
              nodes.CPU := nodes.ReqCPU req;
              nodes.Memory := nodes.ReqMemory req;
              nodes.Disk := nodes.ReqDisk req;
              nodes.Status := "online";
              nodes.Isolated := false;
              nodes.LastHeartbeat := now;
              nodes.CreatedAt := now;
              nodes.UpdatedAt := now |}
     ∧ nodes.table inv' = nodes.table inv ++ [row]
     ∧ nodes.next_id inv' = (nodes.next_id inv + 1)%Z
     ∧ nodes.GetNodeByHostname (nodes.table inv') h = Some row)
  ∧ (∀ existing,
       nodes.GetNodeByHostname (nodes.table inv) h = Some existing →
       let conflict :=
         Exists (λ r, nodes.ID r ≠ nodes.ID existing ∧ nodes.Hostname r = h
                      ∧ nodes.IPAddress r = nodes.ReqIPAddress req)
           (nodes.table inv) in
       (conflict → nodes.ProcessHeartbeat inv req now = (None, inv))
       ∧ (∀ node inv',
            nodes.ProcessHeartbeat inv req now = (Some node, inv') →
            ¬ conflict
            ∧ node = {| nodes.ID := nodes.ID existing;
                        nodes.Hostname := h;
                        nodes.IPAddress := nodes.ReqIPAddress req;
                        nodes.OSVersion := nodes.ReqOSVersion req;
                        nodes.FibratusVersion := nodes.ReqFibratusVersion req;
                        nodes.CPU := nodes.ReqCPU req;
                        nodes.Memory := nodes.ReqMemory req;
                        nodes.Disk := nodes.ReqDisk req;
                        nodes.Status := "online";
                        nodes.Isolated := nodes.Isolated existing;
                        nodes.LastHeartbeat := now;
                        nodes.CreatedAt := nodes.CreatedAt existing;
                        nodes.UpdatedAt := now |}
            ∧ length (nodes.table inv') = length (nodes.table inv)
            ∧ nodes.next_id inv' = nodes.next_id inv
            ∧ (∃ n', n' ∈ nodes.table inv' ∧ nodes.ID n' = nodes.ID existing)
            ∧ (∀ r, r ∈ nodes.table inv' → nodes.ID r = nodes.ID existing →
                    nodes.Hostname r = h
                    ∧ nodes.IPAddress r = nodes.ReqIPAddress req
                    ∧ nodes.OSVersion r = nodes.ReqOSVersion req
                    ∧ nodes.FibratusVersion r = nodes.ReqFibratusVersion req
                    ∧ nodes.CPU r = nodes.ReqCPU req
                    ∧ nodes.Memory r = nodes.ReqMemory req
                    ∧ nodes.Disk r = nodes.ReqDisk req
                    ∧ nodes.Status r = "online"
                    ∧ nodes.Isolated r = nodes.Isolated existing
                    ∧ nodes.LastHeartbeat r = now
                    ∧ nodes.UpdatedAt r = now)
            ∧ (∀ r, r ∈ nodes.table inv → nodes.ID r ≠ nodes.ID existing →
                    r ∈ nodes.table inv')))
  ∧ (∀ inv', nodes.ProcessHeartbeat inv req now = (None, inv') →
             nodes.table inv' = nodes.table inv).
Proof.
  cbv zeta. split_and!.
  - intros Hn row inv'. unfold nodes.ProcessHeartbeat. rewrite Hn.
    unfold nodes.CreateNode. simpl.
    rewrite bool_decide_eq_false_2.
    2:{ intros (r & Hr & Hh & _)%Exists_exists.
        by apply (proj1 (GetNodeByHostname_None _ _) Hn r). }
    intros [= <- <-]. simpl. split_and!; try done.
    by apply GetNodeByHostname_app.
  - intros existing He.
    pose proof (GetNodeByHostname_Some _ _ _ He) as [_ Hh].
    unfold nodes.ProcessHeartbeat. rewrite He.
    unfold nodes.UpdateNode_unique. simpl. split.
    + intros Hc. rewrite bool_decide_eq_true_2; [done|].
      eapply Exists_impl; [exact Hc|]. intros r (? & ? & ?).
      split_and!; [done|congruence|done].
    + intros node inv'. case_bool_decide as Hc; [done|].
      match goal with |- context [nodes.UpdateNode _ ?n now] =>
        destruct (nodes.UpdateNode (nodes.table inv) n now) as [tbl'|] eqn:Hup;
          [|done];
        destruct (UpdateNode_rows _ _ _ _ Hup) as (Hlen & Hex & Hhit & Hmiss)
      end.
      intros [= <- <-]. simpl in *. split_and!; try done.
      * intros Hc'. apply Hc. eapply Exists_impl; [exact Hc'|].
        intros r (? & ? & ?). split_and!; [done|congruence|done].
      * by rewrite Hh.
      * intros r Hr Hid. destruct (Hhit r Hr Hid) as [Hcol Hu].
        destruct Hcol as (?&?&?&?&?&?&?&?&?&?). simpl in *.
        split_and!; congruence.
  - intros inv'. unfold nodes.ProcessHeartbeat.
    destruct (nodes.GetNodeByHostname _ _) as [existing|].
    + destruct (nodes.UpdateNode_unique _ _ _); [done|]. by intros [= <-].
    + unfold nodes.CreateNode. case_bool_decide; [|done]. by intros [= <-].
Qed.

Lemma ProcessHeartbeat_upserts_by_hostname_witness :
  ∃ inv',
    nodes.ProcessHeartbeat
      {| nodes.table := sample.inventory; nodes.next_id := 3 |}
      {| nodes.ReqHostname := "h3"; nodes.ReqIPAddress := "10.0.0.3";
         nodes.ReqOSVersion := "11"; nodes.ReqFibratusVersion := "2.0";
         nodes.ReqCPU := "x64"; nodes.ReqMemory := "8G";
         nodes.ReqDisk := "1T" |} 70
    = (Some {| nodes.ID := 3; nodes.Hostname := "h3";
               nodes.IPAddress := "10.0.0.3"; nodes.OSVersion := "11";
               nodes.FibratusVersion := "2.0"; nodes.CPU := "x64";
               nodes.Memory := "8G"; nodes.Disk := "1T";
               nodes.Status := "online"; nodes.Isolated := false;
               nodes.LastHeartbeat := 70; nodes.CreatedAt := 70;
               nodes.UpdatedAt := 70 |}, inv')
    ∧ (nodes.ID <$> nodes.GetNodeByHostname (nodes.table inv') "h3") = Some 3%Z.
Proof.
  destruct (ProcessHeartbeat_upserts_by_hostname
              {| nodes.table := sample.inventory; nodes.next_id := 3 |}
              {| nodes.ReqHostname := "h3"; nodes.ReqIPAddress := "10.0.0.3";
                 nodes.ReqOSVersion := "11"; nodes.ReqFibratusVersion := "2.0";
                 nodes.ReqCPU := "x64"; nodes.ReqMemory := "8G";
                 nodes.ReqDisk := "1T" |}
              70) as (Hnew & _ & _).
  eexists.
  destruct (Hnew eq_refl _ _ eq_refl) as (Hrow & _ & _ & Hl).
  split; [reflexivity|]. exact (f_equal (fmap nodes.ID) Hl).
Defined.

Lemma wrap64_small z :
  (- 2 ^ 63 ≤ z < 2 ^ 63)%Z → wrap64 z = z.
Proof.
  intros Hz. unfold wrap64. rewrite Z.mod_small; lia.
Qed.

Lemma heartbeat_cutoff_exact t now :
  (0 ≤ t ≤ 9223372036)%Z →
  nodes.heartbeat_cutoff t now = (now - t * Second)%Z.
Proof.
  intros Ht. unfold nodes.heartbeat_cutoff, Second.
  rewrite (wrap64_small (- t)) by lia.
  rewrite wrap64_small by lia. lia.
Qed.

(** X14: [UpdateNodeStatus], for a timeout of up to 9223372036 seconds (the
    range in which the duration does not overflow), sets offline exactly the
    nodes that are online with a last heartbeat before now minus the
    timeout: afterwards no online node has an older heartbeat, every other
    row is untouched, no row is added or removed, only status and update
    time of a row change, and a second sweep at the same instant changes
    nothing. *)
Theorem UpdateNodeStatus_marks_silent_nodes_offline
    (tbl : nodes.Table) (heartbeatTimeout : Z) (now : Time) :
  (0 ≤ heartbeatTimeout ≤ 9223372036)%Z →
  let cutoff := (now - heartbeatTimeout * Second)%Z in
  let tbl' := nodes.UpdateNodeStatus tbl heartbeatTimeout now in
  length tbl' = length tbl
  ∧ (∀ n, n ∈ tbl' → nodes.Status n = "online" →
          (cutoff ≤ nodes.LastHeartbeat n)%Z)
  ∧ (∀ i n, tbl !! i = Some n →
       ¬ (nodes.Status n = "online" ∧ (nodes.LastHeartbeat n < cutoff)%Z) →
       tbl' !! i = Some n)
  ∧ (∀ i n, tbl !! i = Some n →
       nodes.Status n = "online" → (nodes.LastHeartbeat n < cutoff)%Z →
       tbl' !! i
       = Some {| nodes.ID := nodes.ID n;
                 nodes.Hostname := nodes.Hostname n;
                 nodes.IPAddress := nodes.IPAddress n;
                 nodes.OSVersion := nodes.OSVersion n;
                 nodes.FibratusVersion := nodes.FibratusVersion n;
                 nodes.CPU := nodes.CPU n;
                 nodes.Memory := nodes.Memory n;
                 nodes.Disk := nodes.Disk n;
                 nodes.Status := "offline";
                 nodes.Isolated := nodes.Isolated n;
                 nodes.LastHeartbeat := nodes.LastHeartbeat n;
                 nodes.CreatedAt := nodes.CreatedAt n;
                 nodes.UpdatedAt := now |})
  ∧ nodes.UpdateNodeStatus tbl' heartbeatTimeout now = tbl'.
Proof.
  intros Ht. cbv zeta. unfold nodes.UpdateNodeStatus, nodes.Table in *.
  rewrite (heartbeat_cutoff_exact _ _ Ht). split_and!.
  - by rewrite length_fmap.
  - intros n' (n & -> & _)%list_elem_of_fmap.
    case_bool_decide as Hs; simpl; [done|]. intros Hon.
    destruct (decide (now - heartbeatTimeout * Second
                      ≤ nodes.LastHeartbeat n)%Z); [done|].
    exfalso. apply Hs. split; [done|lia].
  - intros i n Hi Hns. rewrite list_lookup_fmap, Hi. simpl.
    by rewrite bool_decide_eq_false_2.
  - intros i n Hi Hon Hold. rewrite list_lookup_fmap, Hi. simpl.
    by rewrite bool_decide_eq_true_2 by (by split).
  - rewrite <- list_fmap_compose. apply list_fmap_ext.
    intros _ n _. simpl. destruct (decide (nodes.Status n = "online"
      ∧ (nodes.LastHeartbeat n < now - heartbeatTimeout * Second)%Z)) as [Hs|Hs].
    + rewrite (bool_decide_eq_true_2 _ Hs).
      by rewrite bool_decide_eq_false_2 by (by intros [? _]).
    + by rewrite !(bool_decide_eq_false_2 _ Hs).
Qed.

Lemma UpdateNodeStatus_marks_silent_nodes_offline_witness :
  (0 ≤ 60 ≤ 9223372036)%Z
  ∧ nodes.UpdateNodeStatus (db_nodes sample.w1) 60 (90 * Second) !! 0%nat
    = Some {| nodes.ID := 1; nodes.Hostname := "h1";
              nodes.IPAddress := "10.0.0.1"; nodes.OSVersion := "";
              nodes.FibratusVersion := ""; nodes.CPU := "";
              nodes.Memory := ""; nodes.Disk := "";
              nodes.Status := "offline"; nodes.Isolated := false;
              nodes.LastHeartbeat := 0; nodes.CreatedAt := 0;
              nodes.UpdatedAt := (90 * Second)%Z |}.
Proof.
  assert (0 ≤ 60 ≤ 9223372036)%Z as Ht by lia.
  split; [exact Ht|].
  destruct (UpdateNodeStatus_marks_silent_nodes_offline (db_nodes sample.w1)
              60 (90 * Second) Ht) as (_ & _ & _ & Hoff & _).
  apply (Hoff 0%nat _ eq_refl eq_refl).
  unfold Second. simpl. lia.
Defined.

Lemma elem_of_GetNodesByGroupID tbl mapping g n :
  n ∈ nodes.GetNodesByGroupID tbl mapping g ↔
  n ∈ tbl ∧ (nodes.ID n, g) ∈ mapping.
Proof.
  unfold nodes.GetNodesByGroupID. rewrite list_elem_of_bind. split.
  - intros (r & Hin & Hr). apply list_elem_of_bind in Hin as ([i j] & Hin & Hm).
    case_bool_decide as Hb; [|by apply elem_of_nil in Hin].
    apply list_elem_of_singleton in Hin as ->. simpl in Hb.
    destruct Hb as [-> ->]. done.
  - intros [Hn Hm]. exists n. split; [|done].
    apply list_elem_of_bind. exists (nodes.ID n, g). split; [|done].
    simpl. rewrite bool_decide_eq_true_2 by done.
    by apply list_elem_of_singleton.
Qed.

Lemma length_filter_zero {A} (P : A → Prop) `{!∀ x, Decision (P x)} (l : list A) :
  length (filter P l) = 0%nat ↔ ∀ x, x ∈ l → ¬ P x.
Proof.
  split.
  - intros Hl x Hin HP.
    assert (x ∈ filter P l) as Hf by (by apply list_elem_of_filter).
    destruct (filter P l); [by apply elem_of_nil in Hf|done].
  - intros Hall. destruct (filter P l) as [|x l'] eqn:Hf; [done|].
    assert (x ∈ filter P l) as [HP Hin]%list_elem_of_filter
      by (rewrite Hf; by left).
    by destruct (Hall x).
Qed.

Lemma length_filter_nonzero {A} (P : A → Prop) `{!∀ x, Decision (P x)} (l : list A) :
  length (filter P l) ≠ 0%nat ↔ ∃ x, x ∈ l ∧ P x.
Proof.
  split.
  - intros Hl. destruct (filter P l) as [|x l'] eqn:Hf; [done|].
    assert (x ∈ filter P l) as [HP Hin]%list_elem_of_filter
      by (rewrite Hf; by left).
    by exists x.
  - intros (x & Hin & HP) Hz.
    by apply (proj1 (length_filter_zero P l) Hz x).
Qed.

Lemma AddNodeToGroup_cases tbl groups mapping nodeID groupID :
  let r := nodes.AddNodeToGroup tbl groups mapping nodeID groupID in
  let node_exists := ∃ n, n ∈ tbl ∧ nodes.ID n = nodeID in
  let group_exists := ∃ g, g ∈ groups ∧ nodes.GroupID g = groupID in
  (¬ node_exists ∧ r = (Some "node not found", mapping))
  ∨ (node_exists ∧ ¬ group_exists ∧ r = (Some "group not found", mapping))
  ∨ (node_exists ∧ group_exists ∧ (nodeID, groupID) ∈ mapping
     ∧ r = (None, mapping))
  ∨ (node_exists ∧ group_exists ∧ ((nodeID, groupID) ∉ mapping)
     ∧ r = (None, mapping ++ [(nodeID, groupID)])).
Proof.
  cbv zeta. unfold nodes.AddNodeToGroup.
  case_bool_decide as Hn.
  { left. split; [|done]. intros (n & Hin & Hid).
    by apply (proj1 (length_filter_zero _ _) Hn n). }
  apply length_filter_nonzero in Hn. right.
  case_bool_decide as Hg.
  { left. split_and!; [done| |done]. intros (g & Hin & Hid).
    by apply (proj1 (length_filter_zero _ _) Hg g). }
  apply length_filter_nonzero in Hg. right.
  case_bool_decide; [left|right]; by split_and!.
Qed.

Lemma RemoveNodeFromGroup_members tbl mapping nodeID groupID n g :
  n ∈ nodes.GetNodesByGroupID tbl
        (nodes.RemoveNodeFromGroup mapping nodeID groupID) g ↔
  n ∈ nodes.GetNodesByGroupID tbl mapping g
  ∧ ¬ (nodes.ID n = nodeID ∧ g = groupID).
Proof.
  unfold nodes.RemoveNodeFromGroup.
  rewrite !elem_of_GetNodesByGroupID, list_elem_of_filter. simpl. tauto.
Qed.

(** X15: [AddNodeToGroup] succeeds exactly when a node with the id and a
    group with the id exist, and otherwise leaves the membership as it was.
    After a successful call the node is a member of the group and every
    other membership is as before; adding a pair again changes nothing and
    a membership table without duplicates stays without duplicates.
    [RemoveNodeFromGroup] removes exactly that node from that group. *)
Theorem AddNodeToGroup_and_RemoveNodeFromGroup
    (tbl : nodes.Table) (groups : list nodes.NodeGroup)
    (mapping : list (Z * Z)) (nodeID groupID : Z) :
  let r := nodes.AddNodeToGroup tbl groups mapping nodeID groupID in
  (r.1 = None ↔ (∃ n, n ∈ tbl ∧ nodes.ID n = nodeID)
                ∧ (∃ g, g ∈ groups ∧ nodes.GroupID g = groupID))
  ∧ (r.1 ≠ None → r.2 = mapping)
  ∧ (r.1 = None →
     ∀ n g, n ∈ nodes.GetNodesByGroupID tbl r.2 g ↔
            n ∈ nodes.GetNodesByGroupID tbl mapping g
            ∨ (n ∈ tbl ∧ nodes.ID n = nodeID ∧ g = groupID))
  ∧ (NoDup mapping → NoDup r.2)
  ∧ nodes.AddNodeToGroup tbl groups r.2 nodeID groupID = r
  ∧ (∀ n g, n ∈ nodes.GetNodesByGroupID tbl
                  (nodes.RemoveNodeFromGroup mapping nodeID groupID) g ↔
            n ∈ nodes.GetNodesByGroupID tbl mapping g
            ∧ ¬ (nodes.ID n = nodeID ∧ g = groupID)).
Proof.
  cbv zeta.
  pose proof (AddNodeToGroup_cases tbl groups mapping nodeID groupID) as Hc.
  cbv zeta in Hc.
  destruct Hc as [[Hn ->]|[(Hn & Hg & ->)|[(Hn & Hg & Hin & ->)
                                          |(Hn & Hg & Hin & ->)]]]; simpl.
  - split_and!; try done.
    + split; [done|]. by intros [? _].
    + pose proof (AddNodeToGroup_cases tbl groups mapping nodeID groupID) as Hc.
      cbv zeta in Hc. destruct Hc as [[_ ->]|[(? & _)|[(? & _)|(? & _)]]]; done.
    + intros n g. apply RemoveNodeFromGroup_members.
  - split_and!; try done.
    + split; [done|]. by intros [_ ?].
    + pose proof (AddNodeToGroup_cases tbl groups mapping nodeID groupID) as Hc.
      cbv zeta in Hc.
      destruct Hc as [[? _]|[(_ & _ & ->)|[(_ & ? & _)|(_ & ? & _)]]]; done.
    + intros n g. apply RemoveNodeFromGroup_members.
  - split_and!; try done.
    + intros _ n g. rewrite elem_of_GetNodesByGroupID. split; [by left|].
      intros [?|(? & <- & ->)]; done.
    + pose proof (AddNodeToGroup_cases tbl groups mapping nodeID groupID) as Hc.
      cbv zeta in Hc.
      destruct Hc as [[? _]|[(_ & ? & _)|[(_ & _ & _ & ->)|(_ & _ & ? & _)]]];
        done.
    + intros n g. apply RemoveNodeFromGroup_members.
  - assert ((nodeID, groupID) ∈ mapping ++ [(nodeID, groupID)]) as Hin'.
    { apply elem_of_app. right. by apply list_elem_of_singleton. }
    split_and!; try done.
    + intros _ n g. rewrite !elem_of_GetNodesByGroupID, elem_of_app,
        list_elem_of_singleton. split.
      * intros [Hn' [?|[= <- ->]]]; [by left|by right].
      * intros [[? ?]|(? & <- & ->)]; split; auto.
    + intros Hnd. apply NoDup_app. split_and!; [done| |apply NoDup_singleton].
      by intros ? ? ->%list_elem_of_singleton.
    + pose proof (AddNodeToGroup_cases tbl groups
                    (mapping ++ [(nodeID, groupID)]) nodeID groupID) as Hc.
      cbv zeta in Hc.
      destruct Hc as [[? _]|[(_ & ? & _)|[(_ & _ & _ & ->)|(_ & _ & ? & _)]]];
        done.
    + intros n g. apply RemoveNodeFromGroup_members.
Qed.

(** ** Users: [DeleteUser] *)

Section users_lemmas.
Import users.

Lemma find_user_Some (tbl : list User) id u :
  List.find (λ u, bool_decide (ID u = id)) tbl = Some u → u ∈ tbl ∧ ID u = id.
Proof.
  intros Hf. apply find_some in Hf as [Hin Hb].
  apply list_elem_of_In in Hin. by apply bool_decide_eq_true in Hb.
Qed.

Lemma find_user_None (tbl : list User) id :
  List.find (λ u, bool_decide (ID u = id)) tbl = None ↔
  ∀ u, u ∈ tbl → ID u ≠ id.
Proof.
  induction tbl as [|x l IH]; simpl.
  - split; [|done]. by intros _ u ?%elem_of_nil.
  - case_bool_decide as Hx.
    + split; [done|]. intros Hall. destruct (Hall x); [by left|done].
    + rewrite IH. split.
      * intros Hall u [->|?]%elem_of_cons; [done|by apply Hall].
      * intros Hall u Hu. apply Hall. by right.
Qed.

Lemma two_admins_one_survives (tbl : list User) id :
  NoDup (ID <$> tbl) →
  (2 ≤ length (filter (λ u, Role u = "admin") tbl))%nat →
  ∃ a, a ∈ tbl ∧ Role a = "admin" ∧ ID a ≠ id.
Proof.
  intros Hnd Hlen.
  assert (NoDup (ID <$> filter (λ u, Role u = "admin") tbl)) as Hnd'.
  { eapply sublist_NoDup; [exact Hnd|]. apply fmap_sublist, sublist_filter. }
  destruct (filter (λ u, Role u = "admin") tbl) as [|x [|y l]] eqn:Hf;
    simpl in Hlen; [lia..|].
  assert (x ∈ filter (λ u, Role u = "admin") tbl) as [Hx Hxin]%list_elem_of_filter
    by (rewrite Hf; by left).
  assert (y ∈ filter (λ u, Role u = "admin") tbl) as [Hy Hyin]%list_elem_of_filter
    by (rewrite Hf; right; by left).
  rewrite !fmap_cons in Hnd'. apply NoDup_cons in Hnd' as [Hne _].
  destruct (decide (ID x = id)) as [Hxi|Hxi].
  - exists y. split_and!; [done..|]. intros Hyi. apply Hne.
    rewrite Hxi, <- Hyi. by left.
  - by exists x.
Qed.

End users_lemmas.

(** X16: [DeleteUser] never removes the last administrator: on a table with
    distinct ids that has an admin, the table it leaves has an admin too.
    It fails, leaving the table as it was, exactly for an unknown id, for
    the only admin, and for a user that a rule, a configuration, an API key
    or an acknowledged alert still refers to; otherwise it removes the user
    with the id and no other row. *)
Theorem DeleteUser_keeps_an_admin
    (tbl : users.Table) (referenced : list Z) (id : Z) :
  NoDup (users.ID <$> tbl) →
  let r := users.DeleteUser tbl referenced id in
  let admins := length (filter (λ u, users.Role u = "admin") tbl) in
  ((∃ a, a ∈ tbl ∧ users.Role a = "admin") →
   ∃ a, a ∈ r.2 ∧ users.Role a = "admin")
  ∧ (r.1 = None ↔
     ∃ u, u ∈ tbl ∧ users.ID u = id
          ∧ ¬ (users.Role u = "admin" ∧ (admins ≤ 1)%nat)
          ∧ id ∉ referenced)
  ∧ (is_Some r.1 → r.2 = tbl)
  ∧ (r.1 = None → ∀ u, u ∈ r.2 ↔ u ∈ tbl ∧ users.ID u ≠ id).
Proof.
  unfold users.Table in *. intros Hnd. cbv zeta. unfold users.DeleteUser.
  destruct (List.find _ tbl) as [u|] eqn:Hf.
  - apply find_user_Some in Hf as [Hin Hid].
    assert (∀ v, v ∈ tbl → users.ID v = id → v = u) as Huniq.
    { intros v Hv Hvi.
      apply list_elem_of_lookup in Hv as [i Hi].
      apply list_elem_of_lookup in Hin as [j Hj].
      assert (i = j) as ->; [|congruence].
      apply (NoDup_lookup _ i j (users.ID v) Hnd);
        rewrite list_lookup_fmap; [rewrite Hi|rewrite Hj]; simpl;
        [done|congruence]. }
    case_bool_decide as Hlast; simpl.
    + split_and!; [done| |done|done].
      split; [done|]. intros (v & Hv & Hvi & Hnl & _).
      by rewrite (Huniq v Hv Hvi) in Hnl.
    + case_bool_decide as Href; simpl.
      * split_and!; [done| |done|done].
        split; [done|]. by intros (v & _ & _ & _ & ?).
      * split_and!; [| |by intros [? ?]|].
        -- intros (a & Ha & Hr).
           destruct (decide (users.Role u = "admin")) as [Hu|Hu].
           ++ destruct (two_admins_one_survives tbl id Hnd) as (b & ? & ? & ?).
              { destruct (decide (2 ≤ length
                  (filter (λ u, users.Role u = "admin") tbl))%nat); [done|].
                exfalso. apply Hlast. split; [done|].
                by apply Nat.lt_succ_r, Nat.nle_gt. }
              exists b. split; [|done]. by apply list_elem_of_filter.
           ++ exists a. split; [|done]. apply list_elem_of_filter.
              split; [|done]. intros Hai. apply Hu.
              by rewrite <- (Huniq a Ha Hai).
        -- split; [|done]. intros _. by exists u.
        -- intros _ v. rewrite list_elem_of_filter. tauto.
  - simpl. split_and!; [done| |done|done].
    split; [done|]. intros (v & Hv & Hvi & _). exfalso.
    by apply (proj1 (find_user_None tbl id) Hf v).
Qed.

Lemma accounts_distinct_ids : NoDup (users.ID <$> sample.accounts).
Proof. apply (bool_decide_unpack _). by vm_compute. Qed.

Lemma DeleteUser_keeps_an_admin_witness :
  is_Some (users.DeleteUser sample.accounts [] 1).1
  ∧ (users.DeleteUser sample.accounts [] 1).2 = sample.accounts
  ∧ (users.DeleteUser sample.accounts [] 2).1 = None
  ∧ is_Some (users.DeleteUser sample.accounts [2%Z] 2).1.
Proof.
  destruct (DeleteUser_keeps_an_admin sample.accounts [] 1 accounts_distinct_ids)
    as (_ & _ & Herr & _).
  assert (is_Some (users.DeleteUser sample.accounts [] 1).1) as Hs by (by eexists).
  split; [exact Hs|]. split; [exact (Herr Hs)|].
  split; [reflexivity|by eexists].
Defined.

(** ** The HTTP handlers of the service *)

(** X17: with room in the channel, the [SendCommand] handler answers with
    the JSON object [{command_id, status: "queued"}] exactly when a user id
    is in the context, the body decodes, the command is not empty and a node
    or a group target is given; the command it then appends to the channel
    has the id "cmd-" followed by the time in nanoseconds and carries the
    request's fields.  In every other case it answers with an error and
    leaves the world as it was, and the answer "Failed to send command" is
    never given. *)
Theorem handler_SendCommand_queues_valid_requests
    (w : World) (userID : option Z)
    (body : option handler.SendCommandRequest) (now : Time) :
  length (commandChan w) < commandChan_cap →
  let valid req := handler.ReqCommand req ≠ ""
                   ∧ ¬ (handler.ReqTargetNode req = ""
                        ∧ handler.ReqTargetGroup req = "") in
  let accepted := ∃ req, is_Some userID ∧ body = Some req ∧ valid req in
  (∀ req, is_Some userID → body = Some req → valid req →
     handler.SendCommand w userID body now
     = Some (http.Json [("command_id", JString (String.append "cmd-" (pretty now)));
                        ("status", JString "queued")],
             set_commandChan
               (λ q, q ++ [{| CommandID := String.append "cmd-" (pretty now);
                              Command_ := handler.ReqCommand req;
                              Priority := handler.ReqPriority req;
                              Details := handler.ReqDetails req;
                              TargetNode := handler.ReqTargetNode req;
                              TargetGroup := handler.ReqTargetGroup req |}]) w))
  ∧ (¬ accepted →
     ∃ code msg,
       handler.SendCommand w userID body now = Some (http.Error code msg, w)
       ∧ msg ≠ "Failed to send command").
Proof.
  intros Hroom. cbv zeta. unfold handler.SendCommand. split.
  - intros req [uid ->] -> [Hc Ht].
    rewrite !bool_decide_eq_false_2 by done.
    rewrite SendCommand_valid.
    2:{ unfold fails_validation. simpl. intros [?|[?|?]]; done. }
    unfold chan_send. by rewrite decide_True by done.
  - intros Hna. destruct userID as [uid|]; [|by do 2 eexists].
    destruct body as [req|]; [|by do 2 eexists].
    case_bool_decide as Hc; [by do 2 eexists|].
    case_bool_decide as Ht; [by do 2 eexists|].
    exfalso. apply Hna. exists req. by split_and!.
Qed.

Lemma handler_SendCommand_queues_valid_requests_witness :
  ∃ w', handler.SendCommand sample.w1 (Some 9%Z)
          (Some {| handler.ReqCommand := "reboot-node";
                   handler.ReqPriority := "normal"; handler.ReqDetails := [];
                   handler.ReqTargetNode := "h1";
                   handler.ReqTargetGroup := "" |}) 77
        = Some (http.Json [("command_id", JString "cmd-77");
                           ("status", JString "queued")], w')
        ∧ length (commandChan w') = 1%nat.
Proof.
  assert (length (commandChan sample.w1) < commandChan_cap) as Hroom
    by (vm_compute; lia).
  destruct (handler_SendCommand_queues_valid_requests sample.w1 (Some 9%Z)
              (Some {| handler.ReqCommand := "reboot-node";
                       handler.ReqPriority := "normal"; handler.ReqDetails := [];
                       handler.ReqTargetNode := "h1";
                       handler.ReqTargetGroup := "" |}) 77 Hroom)
    as [Hacc _].
  eexists. split.
  - apply Hacc; [by eexists|done|]. split; [done|]. by intros [? _].
  - reflexivity.
Defined.

(** X18: the [IsolateNode] handler answers "isolation_initiated" only when
    the agent has a registered connection and the write to it succeeds; the
    frame is then on the wire and nothing is queued.  When the write fails
    it answers 500 and the command is neither written nor queued.  For an
    agent without registered connection it answers 500 "Failed to send
    isolation command: agent not currently connected, command queued", with
    the command appended to the channel.  Without user id or hostname it
    answers with an error and changes nothing. *)
Theorem handler_IsolateNode_reports_live_delivery_only
    (w : World) (userID : option Z) (hostname : string)
    (body : option string) (now : Time) :
  let cmd := isolation_command hostname
               (default "Manual isolation by admin" body) now in
  (∀ p a, is_Some userID → hostname ≠ "" →
     lookup_agent w hostname = Some (p, a) →
     (write_ok w (Conn a) = true →
      ∃ w', handler.IsolateNode w userID hostname body now
            = Some (http.Json
                      [("status", JString "isolation_initiated");
                       ("message", JString "Isolation command sent to agent")],
                    w')
        ∧ wire w' = wire w ++ [(Conn a, TextMessage cmd)]
        ∧ commandChan w' = commandChan w)
     ∧ (write_ok w (Conn a) = false →
        ∃ msg w', handler.IsolateNode w userID hostname body now
                  = Some (http.Error 500 msg, w')
          ∧ wire w' = wire w ∧ commandChan w' = commandChan w))
  ∧ (is_Some userID → hostname ≠ "" → lookup_agent w hostname = None →
     length (commandChan w) < commandChan_cap →
     ∃ w', handler.IsolateNode w userID hostname body now
           = Some (http.Error 500
                     "Failed to send isolation command: agent not currently connected, command queued",
                   w')
       ∧ commandChan w' = commandChan w ++ [cmd] ∧ wire w' = wire w)
  ∧ (userID = None ∨ hostname = "" →
     ∃ code msg, handler.IsolateNode w userID hostname body now
                 = Some (http.Error code msg, w)).
Proof.
  cbv zeta. unfold handler.IsolateNode.
  destruct (SendIsolationCommand_cases w hostname
              (default "Manual isolation by admin" body) now) as [Hlive Hq].
  split_and!.
  - intros p a [uid ->] Hh Hl. rewrite bool_decide_eq_false_2 by done.
    destruct (Hlive p a Hl) as (e & w' & -> & Hc & Hok & Hfail). split.
    + intros Hw. destruct (Hok Hw) as [-> Hwire]. by exists w'.
    + intros Hw. destruct (Hfail Hw) as [[err ->] Hwire]. by do 2 eexists.
  - intros [uid ->] Hh Hl Hroom. rewrite bool_decide_eq_false_2 by done.
    destruct (Hq Hl Hroom) as (w' & -> & Hc & Hwire). by exists w'.
  - intros [Hu|Hh]; subst; [by do 2 eexists|].
    destruct userID; by do 2 eexists.
Qed.

Lemma handler_IsolateNode_reports_live_delivery_only_witness :
  ∃ w', handler.IsolateNode sample.w0 (Some 9%Z) "h1" None 5
        = Some (http.Error 500
                  "Failed to send isolation command: agent not currently connected, command queued",
                w')
        ∧ commandChan w'
          = [isolation_command "h1" "Manual isolation by admin" 5].
Proof.
  destruct (handler_IsolateNode_reports_live_delivery_only sample.w0 (Some 9%Z)
              "h1" None 5) as (_ & Habsent & _).
  destruct Habsent as (w' & Hs & Hq & _);
    [by eexists|done|done|vm_compute; lia|].
  by exists w'.
Defined.

(** ** More on the registry and the read loop *)

(** X19: [unregisterConnection] is local to its hostname and idempotent: it
    changes nothing for a hostname without entry, a second call after a
    first changes nothing more, the entries of other hostnames are what
    they were, and it writes no frame and touches neither the inventory nor
    the command store. *)
Theorem unregisterConnection_local_and_idempotent
    (w : World) (h : string) (now later : Time) :
  let w' := unregisterConnection w h now in
  (lookup_agent w h = None → w' = w)
  ∧ unregisterConnection w' h later = w'
  ∧ (∀ k, k ≠ h → lookup_agent w' k = lookup_agent w k)
  ∧ wire w' = wire w ∧ db_nodes w' = db_nodes w
  ∧ db_commands w' = db_commands w ∧ commandChan w' = commandChan w.
Proof.
  cbv zeta. destruct (lookup_agent w h) as [[p a]|] eqn:Hl.
  - assert (unregisterConnection w h now
            = set_goroutines
                (λ g, g ++ [GoOfflineCheck h (now + 30 * Second)%Z])
                (set_connections (delete h)
                   (set_closed (λ c, c ∪ {[Conn a]}) w))) as ->
      by (unfold unregisterConnection; by rewrite Hl).
    split_and!; try done.
    + unfold unregisterConnection, lookup_agent. simpl.
      by rewrite lookup_delete_eq.
    + intros k Hk. unfold lookup_agent. simpl. by rewrite lookup_delete_ne.
  - assert (unregisterConnection w h now = w) as ->
      by (unfold unregisterConnection; by rewrite Hl).
    split_and!; try done. unfold unregisterConnection. by rewrite Hl.
Qed.

(** X20: a message read on a connection changes nothing but the last
    activity of the connection object it arrived on, whatever the message
    is: no frame is written, no command state changes, other connection
    objects keep their last activity.  A registered connection that has read
    a message is neither pinged nor unregistered by a sweep that runs
    within the next 30 seconds. *)
Theorem listen_message_refreshes_last_activity
    (w : World) (h : string) (p : ptr) (a : AgentConnection)
    (message : Message) (now sweep : Time) :
  lookup_agent w h = Some (p, a) →
  (sweep - now ≤ 30 * Second)%Z →
  let w' := listen_message w p message now in
  lookup_agent w' h = Some (p, set_LastActivity now a)
  ∧ (∀ q, q ≠ p → heap w' !! q = heap w !! q)
  ∧ connections w' = connections w ∧ wire w' = wire w
  ∧ db_commands w' = db_commands w ∧ commandChan w' = commandChan w
  ∧ pings_by_check sweep w' (h, p) = []
  ∧ spawned_by_check sweep w' (h, p) = [].
Proof.
  intros [Hc Ha]%lookup_agent_Some Hs. cbv zeta.
  rewrite listen_message_eq. unfold listen_pong.
  assert (heap (set_heap (alter (set_LastActivity now) p) w) !! p
          = Some (set_LastActivity now a)) as Hp.
  { simpl. by rewrite lookup_alter_eq, Ha. }
  split_and!; try done.
  - apply lookup_agent_Some. by split.
  - intros q Hq. simpl. by rewrite lookup_alter_ne.
  - unfold pings_by_check. cbn [snd]. rewrite Hp.
    destruct (write_ok _ _); [|done]. simpl.
    rewrite !decide_False; [done|unfold Second in *; lia
                           |unfold Minute, Second in *; lia].
  - unfold spawned_by_check. cbn [snd]. rewrite Hp.
    destruct (write_ok _ _); [done|]. simpl.
    rewrite !decide_False; [done|unfold Second in *; lia
                           |unfold Minute, Second in *; lia].
Qed.

Lemma listen_message_refreshes_last_activity_witness :
  pings_by_check (3 * Minute + 20 * Second)
    (listen_message sample.w1 0%nat MsgUndecodable (3 * Minute)) ("h1", 0%nat)
  = [].
Proof.
  assert (3 * Minute + 20 * Second - 3 * Minute ≤ 30 * Second)%Z as Hs
    by (unfold Minute, Second; lia).
  destruct (listen_message_refreshes_last_activity sample.w1 "h1" 0%nat _
              MsgUndecodable (3 * Minute) (3 * Minute + 20 * Second)
              eq_refl Hs) as (_ & _ & _ & _ & _ & _ & Hp & _).
  exact Hp.
Defined.

Lemma elem_of_GetNodeGroups groups mapping nodeID g :
  g ∈ nodes.GetNodeGroups groups mapping nodeID ↔
  g ∈ groups ∧ (nodeID, nodes.GroupID g) ∈ mapping.
Proof.
  unfold nodes.GetNodeGroups. rewrite list_elem_of_bind. split.
  - intros (r & Hin & Hr). apply list_elem_of_bind in Hin as ([i j] & Hin & Hm).
    case_bool_decide as Hb; [|by apply elem_of_nil in Hin].
    apply list_elem_of_singleton in Hin as ->. simpl in Hb.
    destruct Hb as [-> <-]. done.
  - intros [Hg Hm]. exists g. split; [|done].
    apply list_elem_of_bind. exists (nodeID, nodes.GroupID g). split; [|done].
    simpl. rewrite bool_decide_eq_true_2 by done.
    by apply list_elem_of_singleton.
Qed.

(** X21: the two views of group membership agree: for a node and a group
    of the inventory, the node is among [GetNodesByGroupID] of the group
    exactly when the group is among [GetNodeGroups] of the node; a group
    without mapping rows has no members, and a mapping row whose node does
    not exist contributes none. *)
Theorem group_membership_views_agree
    (tbl : nodes.Table) (groups : list nodes.NodeGroup)
    (mapping : list (Z * Z)) (n : nodes.Node) (g : nodes.NodeGroup) :
  n ∈ tbl → g ∈ groups →
  (n ∈ nodes.GetNodesByGroupID tbl mapping (nodes.GroupID g) ↔
   g ∈ nodes.GetNodeGroups groups mapping (nodes.ID n))
  ∧ nodes.GetNodesByGroupID tbl [] (nodes.GroupID g) = []
  ∧ (∀ m, m ∈ nodes.GetNodesByGroupID tbl mapping (nodes.GroupID g) → m ∈ tbl).
Proof.
  intros Hn Hg. split_and!.
  - rewrite elem_of_GetNodesByGroupID, elem_of_GetNodeGroups. tauto.
  - unfold nodes.GetNodesByGroupID. clear Hn.
    induction tbl as [|x l IH]; [done|]. csimpl. apply IH.
  - intros m Hm. by apply elem_of_GetNodesByGroupID in Hm as [? _].
Qed.

Lemma group_membership_views_agree_witness :
  sample.node 1 "h1"
    ∈ nodes.GetNodesByGroupID sample.inventory sample.groups 7
  ↔ {| nodes.GroupID := 7; nodes.GroupName := "servers";
       nodes.GroupDescription := ""; nodes.GroupCreatedAt := 0;
       nodes.GroupUpdatedAt := 0 |}
    ∈ nodes.GetNodeGroups
        [{| nodes.GroupID := 7; nodes.GroupName := "servers";
            nodes.GroupDescription := ""; nodes.GroupCreatedAt := 0;
            nodes.GroupUpdatedAt := 0 |}] sample.groups 1.
Proof.
  destruct (group_membership_views_agree sample.inventory
              [{| nodes.GroupID := 7; nodes.GroupName := "servers";
                  nodes.GroupDescription := ""; nodes.GroupCreatedAt := 0;
                  nodes.GroupUpdatedAt := 0 |}] sample.groups
              (sample.node 1 "h1")
              {| nodes.GroupID := 7; nodes.GroupName := "servers";
                 nodes.GroupDescription := ""; nodes.GroupCreatedAt := 0;
                 nodes.GroupUpdatedAt := 0 |}) as (Hiff & _).
  - by left.
  - by left.
  - exact Hiff.
Defined.
